(** * FishVault: the unlock gate in front of the Fish KMS

    A shallow embedding of the Next.js side of FishVault:
    - [lib/session.ts]   the per-owner unlock window kept in the [sessions] table,
    - [lib/fishkms.ts]   the HTTP client of the Fish KMS server,
    - [lib/auth.ts]      the cookie that names the requesting owner,
    - [app/api/session/unlock], [app/api/secrets/create],
      [app/api/secrets/decrypt]   the route handlers.

    Asynchronous functions are written in a state-and-exception monad over a
    [World]: the two Postgres tables, the wall clock, the state of the remote
    KMS and the log of the calls made to it.  A Supabase query never rejects,
    it answers with a [data]/[error] pair; a failure of the store is part of
    the world ([db_fault]).  The Fish KMS server itself is a separate Python
    service whose code is not among the sources; the client is verified
    against any server, and the round trip against a server modelled from
    the specification. *)

From Stdlib Require Import Ascii String ZArith Lia ZifyNat.
From stdpp Require Import gmap strings pretty sorting.

#[local] Open Scope string_scope.
#[local] Open Scope Z_scope.

(** ** JavaScript values that reach the handlers *)

Module Js.

(** A parsed JSON document, as [request.json()] returns it. *)
#[local] Unset Elimination Schemes.
Inductive Json : Type :=
| JNull
| JBool (b : bool)
| JNum (n : Z)
| JStr (s : string)
| JArr (items : list Json)
| JObj (fields : list (string * Json)).
#[local] Set Elimination Schemes.

(** A JavaScript value read out of a document: [None] is [undefined]. *)
Definition Value : Type := option Json.

(** [!!v]: the falsy values are undefined, null, false, 0 and the empty
    string. *)
Definition truthy (v : Value) : bool :=
  match v with
  | None | Some JNull => false
  | Some (JBool b) => b
  | Some (JNum n) => negb (n =? 0)
  | Some (JStr s) => negb (String.eqb s "")
  | Some (JArr _) | Some (JObj _) => true
  end.

(** [typeof v] *)
Definition typeof (v : Value) : string :=
  match v with
  | None => "undefined"
  | Some JNull | Some (JArr _) | Some (JObj _) => "object"
  | Some (JBool _) => "boolean"
  | Some (JNum _) => "number"
  | Some (JStr _) => "string"
  end.

(** The string a value is, once [typeof v === 'string'] has been checked. *)
Definition string_value (v : Value) : string :=
  match v with
  | Some (JStr s) => s
  | _ => ""
  end.

(** [a + b] on numbers, [None] being NaN. *)
Definition add (a b : option Z) : option Z :=
  match a, b with
  | Some x, Some y => Some (x + y)
  | _, _ => None
  end.

(** The last binding of a key wins, as in [JSON.parse]. *)
Fixpoint field (k : string) (fields : list (string * Json)) : Value :=
  match fields with
  | [] => None
  | (k', v) :: rest =>
      match field k rest with
      | Some v' => Some v'
      | None => if String.eqb k k' then Some v else None
      end
  end.

(** Reading a property while destructuring [const { k } = doc]: a
    [TypeError] on null, [undefined] on anything that is not an object
    holding the key.  [None] on the outside is the [TypeError]. *)
Definition prop (doc : Json) (k : string) : option Value :=
  match doc with
  | JNull => None
  | JObj fields => Some (field k fields)
  | _ => Some None
  end.

(** [a || b] on optional strings, where the empty string is falsy too. *)
Definition or_else (a : option string) (b : string) : string :=
  match a with
  | Some s => if String.eqb s "" then b else s
  | None => b
  end.

(** A string is held as its UTF-8 text, one [ascii] for each byte, the way
    a string literal holds it: a character outside ASCII is a sequence of
    two to four bytes, the first of which is no continuation byte.

    The white space of [trim] and [parseInt] is ECMAScript's WhiteSpace and
    LineTerminator: TAB, LF, VT, FF, CR and SP in one byte; the no-break
    space U+00A0 in two; U+1680, U+2000 to U+200A, the line and paragraph
    separators U+2028 and U+2029, U+202F, U+205F, U+3000 and the byte order
    mark U+FEFF in three. *)
Definition is_space (a : ascii) : bool :=
  let n := nat_of_ascii a in
  ((n =? 32) || ((9 <=? n) && (n <=? 13)))%nat.

Definition is_space2 (a b : ascii) : bool :=
  ((nat_of_ascii a =? 194) && (nat_of_ascii b =? 160))%nat.

Definition is_space3 (a b c : ascii) : bool :=
  let x := nat_of_ascii a in
  let y := nat_of_ascii b in
  let z := nat_of_ascii c in
  (((x =? 225) && (y =? 154) && (z =? 128))
   || ((x =? 226) && (y =? 128)
       && (((128 <=? z) && (z <=? 138)) || (z =? 168) || (z =? 169) || (z =? 175)))
   || ((x =? 226) && (y =? 129) && (z =? 159))
   || ((x =? 227) && (y =? 128) && (z =? 128))
   || ((x =? 239) && (y =? 187) && (z =? 191)))%nat.

(** [s.trimStart()] *)
Fixpoint trim_start (s : string) : string :=
  match s with
  | EmptyString => s
  | String a r1 =>
      if is_space a then trim_start r1
      else
        match r1 with
        | EmptyString => s
        | String b r2 =>
            if is_space2 a b then trim_start r2
            else
              match r2 with
              | EmptyString => s
              | String c r3 => if is_space3 a b c then trim_start r3 else s
              end
        end
  end.

(** Nothing but white space. *)
Definition blank (s : string) : bool := String.eqb (trim_start s) "".

(** [s.trimEnd()]: the longest blank tail is cut. *)
Fixpoint trim_end (s : string) : string :=
  match s with
  | EmptyString => EmptyString
  | String a rest => if blank s then EmptyString else String a (trim_end rest)
  end.

(** [s.trim()] *)
Definition trim (s : string) : string := trim_end (trim_start s).

Definition is_digit (a : ascii) : bool :=
  let n := nat_of_ascii a in ((48 <=? n) && (n <=? 57))%nat.

Fixpoint digits (s : string) (acc : option Z) : option Z :=
  match s with
  | String a rest =>
      if is_digit a
      then digits rest (Some (10 * default 0 acc + (Z.of_nat (nat_of_ascii a) - 48)))
      else acc
  | EmptyString => acc
  end.

(** [parseInt(s, 10)]: leading white space, an optional sign, the longest
    run of decimal digits; [None] is NaN. *)
Definition parseInt (s : string) : option Z :=
  match trim_start s with
  | String "-" rest => Z.opp <$> digits rest None
  | String "+" rest => digits rest None
  | s' => digits s' None
  end.

End Js.

(** ** The [Date] object *)

Module JsDate.

(** A Date holds a time value in milliseconds since the epoch; [None] is the
    invalid date (a NaN time value). *)
Definition Date : Type := option Z.

Definition msPerDay : Z := 86400000.
Definition msPerHour : Z := 3600000.
Definition msPerMinute : Z := 60000.
Definition msPerSecond : Z := 1000.

Definition Day (t : Z) : Z := t / msPerDay.
Definition HourFromTime (t : Z) : Z := (t / msPerHour) mod 24.
Definition MinFromTime (t : Z) : Z := (t / msPerMinute) mod 60.
Definition SecFromTime (t : Z) : Z := (t / msPerSecond) mod 60.
Definition msFromTime (t : Z) : Z := t mod msPerSecond.

Definition MakeTime (hour min sec ms : Z) : Z :=
  hour * msPerHour + min * msPerMinute + sec * msPerSecond + ms.
Definition MakeDate (day time : Z) : Z := day * msPerDay + time.

Definition TimeClip (t : Z) : Date :=
  if Z.abs t <=? 8640000000000000 then Some t else None.

(** The local time zone of the server.  [offset_utc t] is the offset from
    UTC, in milliseconds, in force at the instant [t]; [offset_local l] is the
    offset under which the local time [l] is read back as an instant (a local
    time that occurs twice when the clocks are set back is read as its first
    occurrence, with the offset from before the change). *)
Record TimeZone : Type := {
  offset_utc : Z -> Z;
  offset_local : Z -> Z
}.

(** A zone without daylight saving, such as UTC. *)
Definition fixed_zone (offset : Z) : TimeZone :=
  {| offset_utc := fun _ => offset; offset_local := fun _ => offset |}.

Section LocalTime.
Variable zone : TimeZone.

Definition LocalTime (t : Z) : Z := t + offset_utc zone t.
Definition UTC (t : Z) : Z := t - offset_local zone t.

Definition getMinutes (d : Date) : option Z :=
  (fun t => MinFromTime (LocalTime t)) <$> d.

(** [d.setMinutes(min)]: the minutes field of the local time is replaced
    and the fields are put together again; a NaN argument or an invalid
    receiver gives the invalid date. *)
Definition setMinutes (d : Date) (min : option Z) : Date :=
  match d, min with
  | Some t0, Some m =>
      let t := LocalTime t0 in
      let date :=
        MakeDate (Day t)
          (MakeTime (HourFromTime t) m (SecFromTime t) (msFromTime t)) in
      TimeClip (UTC date)
  | _, _ => None
  end.
End LocalTime.

(** [a > b] on dates compares the time values; false when either is NaN. *)
Definition gt (a b : Date) : bool :=
  match a, b with
  | Some x, Some y => y <? x
  | _, _ => false
  end.

(** [d.toISOString()] gives the instant in text, and throws a [RangeError]
    on the invalid date ([None] here).  The instant itself stands for its
    ISO-8601 text, which [new Date(text)] reads back unchanged. *)
Definition toISOString (d : Date) : option Z := d.

Definition parse (iso : Z) : Date := Some iso.

End JsDate.

(** ** The world the handlers run in *)

(** The Supabase operations the code performs; each can be failed by the
    store. *)
Inductive DbOp : Type :=
| SelectSession
| UpsertSession
| UpdateSession
| SelectSecret
| InsertSecret.

(** [secrets]: [id uuid PRIMARY KEY], [owner_id], [title], [ciphertext],
    [nonce]; the map is keyed by [id]. *)
Record SecretRow : Type := {
  row_owner_id : string;
  row_title : string;
  row_ciphertext : string;
  row_nonce : string
}.

(** The calls that leave for the Fish KMS server. *)
Inductive KmsCall : Type :=
| CallUnlock (ownerId : string)
| CallEncrypt (ownerId plaintext : string)
| CallDecrypt (ownerId ciphertext nonce : string).

(** [sessions]: [owner_id uuid PRIMARY KEY], [unlocked_until timestamptz]
    (nullable); the map is keyed by [owner_id] and holds the column.  [now]
    is what the wall clock reads while a handler runs, in milliseconds since
    the epoch; [db_fault] is the error, if any, with which the store answers
    each kind of query; [new_uuid] is the id the store draws for the next
    inserted secret. *)
Record World (K : Type) : Type := {
  sessions : gmap string (option Z);
  secrets : gmap string SecretRow;
  now : Z;
  db_fault : DbOp -> option string;
  new_uuid : string;
  kms_state : K;
  kms_log : list KmsCall
}.
Arguments sessions {K} _.
Arguments secrets {K} _.
Arguments now {K} _.
Arguments db_fault {K} _ _.
Arguments new_uuid {K} _.
Arguments kms_state {K} _.
Arguments kms_log {K} _.

Definition set_sessions {K} (f : gmap string (option Z) -> gmap string (option Z))
    (w : World K) : World K :=
  {| sessions := f (sessions w); secrets := secrets w; now := now w;
     db_fault := db_fault w; new_uuid := new_uuid w;
     kms_state := kms_state w; kms_log := kms_log w |}.

Definition set_secrets {K} (f : gmap string SecretRow -> gmap string SecretRow)
    (w : World K) : World K :=
  {| sessions := sessions w; secrets := f (secrets w); now := now w;
     db_fault := db_fault w; new_uuid := new_uuid w;
     kms_state := kms_state w; kms_log := kms_log w |}.

Definition set_now {K} (t : Z) (w : World K) : World K :=
  {| sessions := sessions w; secrets := secrets w; now := t;
     db_fault := db_fault w; new_uuid := new_uuid w;
     kms_state := kms_state w; kms_log := kms_log w |}.

Definition set_db_fault {K} (f : DbOp -> option string) (w : World K) : World K :=
  {| sessions := sessions w; secrets := secrets w; now := now w;
     db_fault := f; new_uuid := new_uuid w;
     kms_state := kms_state w; kms_log := kms_log w |}.

Definition set_kms {K} (k : K) (c : KmsCall) (w : World K) : World K :=
  {| sessions := sessions w; secrets := secrets w; now := now w;
     db_fault := db_fault w; new_uuid := new_uuid w;
     kms_state := k; kms_log := kms_log w ++ [c] |}.

(** ** Promises: state passing with exceptions *)

Inductive Completion (A : Type) : Type :=
| Normal (a : A)
| Throw (message : string).
Arguments Normal {A} _.
Arguments Throw {A} _.

Definition M (K A : Type) : Type := World K -> Completion A * World K.

Definition ret {K A} (a : A) : M K A := fun w => (Normal a, w).

Definition throw {K A} (message : string) : M K A := fun w => (Throw message, w).

Definition bind {K A B} (m : M K A) (f : A -> M K B) : M K B :=
  fun w =>
    match m w with
    | (Normal a, w') => f a w'
    | (Throw e, w') => (Throw e, w')
    end.

(** [try { body } catch (error) { handler }] *)
Definition try_catch {K A} (body : M K A) (handler : string -> M K A) : M K A :=
  fun w =>
    match body w with
    | (Normal a, w') => (Normal a, w')
    | (Throw e, w') => handler e w'
    end.

Declare Scope promise_scope.
Delimit Scope promise_scope with promise.
Notation "x <- m ;; k" := (bind m (fun x => k))
  (at level 100, m at next level, right associativity) : promise_scope.
#[local] Open Scope promise_scope.

(** [new Date()] *)
Definition new_Date {K} : M K JsDate.Date := fun w => (Normal (Some (now w)), w).

(** The answer of a Supabase query. *)
Record PgResult (A : Type) : Type := {
  data : option A;
  pg_error : option string
}.
Arguments data {A} _.
Arguments pg_error {A} _.

(** The message PostgREST gives when [.single()] does not find exactly one
    row. *)
Definition PGRST116 : string := "JSON object requested, multiple (or no) rows returned".

(** ** lib/session.ts *)

Module Session.
Section Session.
Context {K : Type}.

(** [from('sessions').select('unlocked_until').eq('owner_id', userId).single()] *)
Definition select_unlocked_until (userId : string) : M K (PgResult (option Z)) :=
  fun w =>
    match db_fault w SelectSession with
    | Some e => (Normal {| data := None; pg_error := Some e |}, w)
    | None =>
        match sessions w !! userId with
        | Some unlocked_until =>
            (Normal {| data := Some unlocked_until; pg_error := None |}, w)
        | None => (Normal {| data := None; pg_error := Some PGRST116 |}, w)
        end
    end.

Definition checkUnlocked (userId : string) : M K bool :=
  r <- select_unlocked_until userId ;;
  match pg_error r, data r with
  | Some _, _ | None, None => ret false
  | None, Some unlocked_until =>
      match unlocked_until with
      | None => ret false
      | Some iso =>
          let unlockedUntil := JsDate.parse iso in
          today <- new_Date ;;
          ret (JsDate.gt unlockedUntil today)
      end
  end.

(** [upsert({ owner_id, unlocked_until }, { onConflict: 'owner_id' })] *)
Definition upsert_session (userId : string) (iso : Z) : M K (option string) :=
  fun w =>
    match db_fault w UpsertSession with
    | Some e => (Normal (Some e), w)
    | None => (Normal None, set_sessions (<[userId := Some iso]>) w)
    end.

Definition setUnlockedUntil (userId : string) (unlockedUntil : JsDate.Date)
    : M K unit :=
  match JsDate.toISOString unlockedUntil with
  | None => throw "Invalid time value"
  | Some iso =>
      error <- upsert_session userId iso ;;
      match error with
      | Some message => throw ("Failed to update session: " +:+ message)
      | None => ret tt
      end
  end.

Definition getUnlockedUntil (userId : string) : M K (option JsDate.Date) :=
  r <- select_unlocked_until userId ;;
  match pg_error r, data r with
  | None, Some (Some iso) => ret (Some (JsDate.parse iso))
  | _, _ => ret None
  end.

(** [update({ unlocked_until }).eq('owner_id', userId)]: the rows that
    match are changed, and none matching is no error. *)
Definition update_session (userId : string) (iso : Z) : M K (option string) :=
  fun w =>
    match db_fault w UpdateSession with
    | Some e => (Normal (Some e), w)
    | None => (Normal None, set_sessions (alter (fun _ => Some iso) userId) w)
    end.

Definition lockNow (userId : string) : M K unit :=
  today <- new_Date ;;
  match JsDate.toISOString today with
  | None => throw "Invalid time value"
  | Some iso =>
      error <- update_session userId iso ;;
      match error with
      | Some message => throw ("Failed to lock session: " +:+ message)
      | None => ret tt
      end
  end.
End Session.
End Session.

(** ** lib/fishkms.ts *)

Record UnlockResponse : Type := {
  ok : bool;
  error : option string
}.

Record EncryptResponse : Type := {
  ciphertext : string;
  nonce : string
}.

Record DecryptResponse : Type := {
  plaintext : string
}.

(** What [fetch] brings back: it rejects when the server cannot be reached,
    and otherwise resolves with a status and a body; [None] is a body that
    [response.json()] cannot read as the declared interface. *)
Inductive FetchResult (B : Type) : Type :=
| NetworkError (message : string)
| HttpResponse (status : Z) (body : option B).
Arguments NetworkError {B} _.
Arguments HttpResponse {B} _ _.

(** The Fish KMS server as the client sees it: each endpoint takes the
    [X-FISH-AUTH] header and the JSON fields of the request. *)
Record KmsServer (K : Type) : Type := {
  serve_unlock : string -> string -> K -> FetchResult UnlockResponse * K;
  serve_encrypt : string -> string -> string -> K -> FetchResult EncryptResponse * K;
  serve_decrypt :
    string -> string -> string -> string -> K -> FetchResult DecryptResponse * K
}.
Arguments serve_unlock {K} _ _ _ _.
Arguments serve_encrypt {K} _ _ _ _ _.
Arguments serve_decrypt {K} _ _ _ _ _ _.

Module FishKms.
Section FishKms.
Context {K : Type} (kms : KmsServer K).

(** [process.env.FISH_KMS_API_KEY || 'dev_secret'] *)
Variable FISH_KMS_API_KEY : string.

Definition fetch {B} (call : KmsCall) (serve : K -> FetchResult B * K)
    : M K (Z * option B) :=
  fun w =>
    let '(answer, k) := serve (kms_state w) in
    let w' := set_kms k call w in
    match answer with
    | NetworkError message => (Throw message, w')
    | HttpResponse status body => (Normal (status, body), w')
    end.

(** [response.ok] *)
Definition response_ok (status : Z) : bool := (200 <=? status) && (status <=? 299).

(** [await response.json()] *)
Definition json {B} (body : option B) : M K B :=
  match body with
  | Some b => ret b
  | None => throw "Unexpected end of JSON input"
  end.

Definition unlockVault (ownerId : string) : M K UnlockResponse :=
  response <- fetch (CallUnlock ownerId) (serve_unlock kms FISH_KMS_API_KEY ownerId) ;;
  if negb (response_ok response.1)
  then ret {| ok := false; error := Some ("HTTP " +:+ pretty response.1) |}
  else json response.2.

Definition encryptSecret (ownerId plaintext : string) : M K EncryptResponse :=
  response <- fetch (CallEncrypt ownerId plaintext)
                (serve_encrypt kms FISH_KMS_API_KEY ownerId plaintext) ;;
  if negb (response_ok response.1)
  then throw ("Encrypt failed: HTTP " +:+ pretty response.1)
  else json response.2.

Definition decryptSecret (ownerId ciphertext nonce : string) : M K DecryptResponse :=
  response <- fetch (CallDecrypt ownerId ciphertext nonce)
                (serve_decrypt kms FISH_KMS_API_KEY ownerId ciphertext nonce) ;;
  if negb (response_ok response.1)
  then throw ("Decrypt failed: HTTP " +:+ pretty response.1)
  else json response.2.

End FishKms.
End FishKms.

(** ** The requests and responses of the route handlers *)

Record Request : Type := {
  cookie_fishvault_user_id : option string;
  body : option Js.Json
}.

(** The JSON a handler answers with, and its status. *)
Record ApiResponse : Type := {
  res_status : Z;
  res_ok : bool;
  res_error : option string;
  res_plaintext : option string;
  res_unlockedUntil : option Z
}.

(** [NextResponse.json({ ok: false, error }, { status })] *)
Definition failure (message : string) (status : Z) : ApiResponse :=
  {| res_status := status; res_ok := false; res_error := Some message;
     res_plaintext := None; res_unlockedUntil := None |}.

(** [NextResponse.json({ ok: true })] *)
Definition success : ApiResponse :=
  {| res_status := 200; res_ok := true; res_error := None;
     res_plaintext := None; res_unlockedUntil := None |}.

(** [await request.json()] *)
Definition request_json {K} (request : Request) : M K Js.Json :=
  match body request with
  | Some doc => ret doc
  | None => throw "Unexpected end of JSON input"
  end.

(** [const { a, b } = doc] *)
Definition destructure2 {K} (doc : Js.Json) (a b : string) : M K (Js.Value * Js.Value) :=
  match Js.prop doc a, Js.prop doc b with
  | Some va, Some vb => ret (va, vb)
  | _, _ => throw "Cannot destructure property of null"
  end.

Definition destructure1 {K} (doc : Js.Json) (a : string) : M K Js.Value :=
  match Js.prop doc a with
  | Some va => ret va
  | None => throw "Cannot destructure property of null"
  end.

(** ** lib/auth.ts *)

Module Auth.

(** [cookieStore.get(COOKIE_NAME)?.value], then [userId || null]: it reads
    the request only. *)
Definition getUserId (request : Request) : option string :=
  match cookie_fishvault_user_id request with
  | Some userId => if String.eqb userId "" then None else Some userId
  | None => None
  end.

End Auth.

(** ** app/api/session/unlock/route.ts *)

Module UnlockRoute.
Section Route.
Context {K : Type} (kms : KmsServer K) (FISH_KMS_API_KEY : string).

(** The server's time zone and [process.env.UNLOCK_WINDOW_MINUTES]. *)
Variable zone : JsDate.TimeZone.
Variable env_UNLOCK_WINDOW_MINUTES : option string.

Definition UNLOCK_WINDOW_MINUTES : option Z :=
  Js.parseInt (Js.or_else env_UNLOCK_WINDOW_MINUTES "10").

Definition POST (request : Request) : M K ApiResponse :=
  try_catch
    (match Auth.getUserId request with
     | None => ret (failure "Not authenticated" 401)
     | Some userId =>
         unlockResult <- FishKms.unlockVault kms FISH_KMS_API_KEY userId ;;
         if negb (ok unlockResult)
         then ret (failure (Js.or_else (error unlockResult) "Unlock failed") 400)
         else
           today <- new_Date ;;
           let unlockedUntil :=
             JsDate.setMinutes zone today
               (Js.add (JsDate.getMinutes zone today) UNLOCK_WINDOW_MINUTES) in
           _ <- Session.setUnlockedUntil userId unlockedUntil ;;
           ret {| res_status := 200; res_ok := true; res_error := None;
                  res_plaintext := None;
                  res_unlockedUntil := JsDate.toISOString unlockedUntil |}
     end)
    (fun _ => ret (failure "Internal server error" 500)).

End Route.
End UnlockRoute.

(** ** app/api/secrets/create/route.ts *)

Module CreateRoute.
Section Route.
Context {K : Type} (kms : KmsServer K) (FISH_KMS_API_KEY : string).

(** [from('secrets').insert({ owner_id, title, ciphertext, nonce })]: the
    store draws the [id]. *)
Definition insert_secret (row : SecretRow) : M K (option string) :=
  fun w =>
    match db_fault w InsertSecret with
    | Some e => (Normal (Some e), w)
    | None =>
        match secrets w !! new_uuid w with
        | Some _ => (Normal (Some "duplicate key value violates unique constraint"), w)
        | None => (Normal None, set_secrets (<[new_uuid w := row]>) w)
        end
    end.

Definition POST (request : Request) : M K ApiResponse :=
  try_catch
    (match Auth.getUserId request with
     | None => ret (failure "Not authenticated" 401)
     | Some userId =>
         isUnlocked <- Session.checkUnlocked userId ;;
         if negb isUnlocked
         then ret (failure "Vault is locked. Please unlock first." 403)
         else
           doc <- request_json request ;;
           fields <- destructure2 doc "title" "plaintext" ;;
           let '(title, plaintext) := fields in
           if negb (Js.truthy title) || negb (String.eqb (Js.typeof title) "string")
           then ret (failure "Title is required" 400)
           else
             if negb (Js.truthy plaintext)
                || negb (String.eqb (Js.typeof plaintext) "string")
             then ret (failure "Secret value is required" 400)
             else
               encrypted <- FishKms.encryptSecret kms FISH_KMS_API_KEY userId
                              (Js.string_value plaintext) ;;
               insertError <- insert_secret
                                {| row_owner_id := userId;
                                   row_title := Js.trim (Js.string_value title);
                                   row_ciphertext := ciphertext encrypted;
                                   row_nonce := nonce encrypted |} ;;
               match insertError with
               | Some _ => ret (failure "Failed to save secret" 500)
               | None => ret success
               end
     end)
    (fun message => ret (failure message 500)).

End Route.
End CreateRoute.

(** ** app/api/secrets/decrypt/route.ts *)

Module DecryptRoute.
Section Route.
Context {K : Type} (kms : KmsServer K) (FISH_KMS_API_KEY : string).

(** [from('secrets').select('ciphertext, nonce').eq('id', secretId)
    .eq('owner_id', userId).single()] *)
Definition select_secret (secretId userId : string) : M K (PgResult SecretRow) :=
  fun w =>
    match db_fault w SelectSecret with
    | Some e => (Normal {| data := None; pg_error := Some e |}, w)
    | None =>
        match secrets w !! secretId with
        | Some row =>
            if String.eqb (row_owner_id row) userId
            then (Normal {| data := Some row; pg_error := None |}, w)
            else (Normal {| data := None; pg_error := Some PGRST116 |}, w)
        | None => (Normal {| data := None; pg_error := Some PGRST116 |}, w)
        end
    end.

Definition POST (request : Request) : M K ApiResponse :=
  try_catch
    (match Auth.getUserId request with
     | None => ret (failure "Not authenticated" 401)
     | Some userId =>
         isUnlocked <- Session.checkUnlocked userId ;;
         if negb isUnlocked
         then ret (failure "Vault is locked. Please unlock first." 403)
         else
           doc <- request_json request ;;
           secretId <- destructure1 doc "secretId" ;;
           if negb (Js.truthy secretId)
              || negb (String.eqb (Js.typeof secretId) "string")
           then ret (failure "Secret ID is required" 400)
           else
             r <- select_secret (Js.string_value secretId) userId ;;
             match pg_error r, data r with
             | Some _, _ | None, None => ret (failure "Secret not found" 404)
             | None, Some secret =>
                 decrypted <- FishKms.decryptSecret kms FISH_KMS_API_KEY userId
                                (row_ciphertext secret) (row_nonce secret) ;;
                 ret {| res_status := 200; res_ok := true; res_error := None;
                        res_plaintext := Some (plaintext decrypted);
                        res_unlockedUntil := None |}
             end
     end)
    (fun message => ret (failure message 500)).

End Route.
End DecryptRoute.

(** ** The Fish KMS server, from its specification

    The server is a separate Python service ([fish-kms/server.py],
    [crypto.py], [state.py], [entropy.py]); the client above only sees its
    HTTP interface. *)

Module Base64.

(** Modelled from the spec: the transport encoding of ciphertext and nonce
    (section 4.3, "e.g. base64"; the README of the server names base64): the
    standard alphabet with [=] padding. *)
Definition alphabet : string :=
  "ABCDEFGHIJKLMNOPQRSTUVWXYZabcdefghijklmnopqrstuvwxyz0123456789+/".

Definition pad : ascii := "="%char.

Definition sextet_char (n : nat) : ascii := default pad (String.get n alphabet).

Fixpoint index_from (c : ascii) (s : string) (i : nat) : option nat :=
  match s with
  | String c' rest => if Ascii.eqb c c' then Some i else index_from c rest (S i)
  | EmptyString => None
  end.

Definition char_sextet (c : ascii) : option nat := index_from c alphabet 0.

Definition code (a : ascii) : nat := nat_of_ascii a.
Definition byte (n : nat) : ascii := ascii_of_nat n.

(** Modelled from the spec: base64 encoding.  Three bytes make four
    sextets; one or two bytes left over are padded with [=]. *)
Fixpoint encode (bs : string) : string :=
  match bs with
  | EmptyString => EmptyString
  | String a EmptyString =>
      String (sextet_char (code a / 4))
        (String (sextet_char (code a mod 4 * 16))
           (String pad (String pad EmptyString)))
  | String a (String b EmptyString) =>
      String (sextet_char (code a / 4))
        (String (sextet_char (code a mod 4 * 16 + code b / 16))
           (String (sextet_char (code b mod 16 * 4))
              (String pad EmptyString)))
  | String a (String b (String c rest)) =>
      String (sextet_char (code a / 4))
        (String (sextet_char (code a mod 4 * 16 + code b / 16))
           (String (sextet_char (code b mod 16 * 4 + code c / 64))
              (String (sextet_char (code c mod 64)) (encode rest))))
  end%nat.

Definition is_empty (s : string) : bool :=
  match s with EmptyString => true | String _ _ => false end.

(** Modelled from the spec: base64 decoding; [None] on text that is not
    base64. *)
Fixpoint decode (s : string) : option string :=
  match s with
  | EmptyString => Some EmptyString
  | String c1 (String c2 (String c3 (String c4 rest))) =>
      match char_sextet c1, char_sextet c2 with
      | Some s1, Some s2 =>
          let a := byte (s1 * 4 + s2 / 16) in
          if Ascii.eqb c3 pad
          then
            if Ascii.eqb c4 pad && is_empty rest
            then Some (String a EmptyString)
            else None
          else
            match char_sextet c3 with
            | Some s3 =>
                let b := byte (s2 mod 16 * 16 + s3 / 4) in
                if Ascii.eqb c4 pad
                then
                  if is_empty rest
                  then Some (String a (String b EmptyString))
                  else None
                else
                  match char_sextet c4 with
                  | Some s4 =>
                      let c := byte (s3 mod 4 * 64 + s4) in
                      match decode rest with
                      | Some bs => Some (String a (String b (String c bs)))
                      | None => None
                      end
                  | None => None
                  end
            | None => None
            end
      | _, _ => None
      end
  | _ => None
  end%nat.

End Base64.

(** Modelled from the spec: the AEAD primitive of the Cipher Engine
    (section 4.3, AES-256-GCM or equivalent; [fish-kms/crypto.py] and the
    cipher library it calls are not among the sources).  [seal] gives the
    ciphertext with its tag, [open] checks the tag and gives the plaintext
    back, failing in one way whatever the cause. *)
Class Aead : Type := {
  seal : string -> string -> string -> string;
  open : string -> string -> string -> option string;
  open_seal : forall key iv message,
    String.length key = 32%nat -> String.length iv = 12%nat ->
    open key iv (seal key iv message) = Some message
}.

Module Kms.

(** Modelled from the spec: the status of an Entropy Sample (section 3). *)
Inductive EntropyStatus : Type := LIVE | LOW | DEMO | NONE.

(** Modelled from the spec: the configuration surface (section 6), as far as
    the operations below read it: the shared secret and the unlock window, in
    the unit of the server's clock. *)
Record Config : Type := {
  shared_secret : string;
  unlock_window : Z
}.

(** Modelled from the spec: the process-wide context of the server
    (sections 3 and 9): the Key Vault, the Unlock Ledger, the server's
    clock in seconds, the secure random source as a tape with a cursor, and
    the outcome the Entropy Source gives at the next sampling ([None] is a
    hard failure). *)
Record State : Type := {
  keys : gmap string string;
  unlocked : gmap string Z;
  clock : Z;
  tape : nat -> ascii;
  cursor : nat;
  next_sample : option EntropyStatus
}.

Definition set_keys (f : gmap string string -> gmap string string) (st : State) : State :=
  {| keys := f (keys st); unlocked := unlocked st; clock := clock st;
     tape := tape st; cursor := cursor st; next_sample := next_sample st |}.

Definition set_unlocked (f : gmap string Z -> gmap string Z) (st : State) : State :=
  {| keys := keys st; unlocked := f (unlocked st); clock := clock st;
     tape := tape st; cursor := cursor st; next_sample := next_sample st |}.

Definition set_cursor (n : nat) (st : State) : State :=
  {| keys := keys st; unlocked := unlocked st; clock := clock st;
     tape := tape st; cursor := n; next_sample := next_sample st |}.

Definition set_clock (t : Z) (st : State) : State :=
  {| keys := keys st; unlocked := unlocked st; clock := t;
     tape := tape st; cursor := cursor st; next_sample := next_sample st |}.

Definition set_next_sample (s : option EntropyStatus) (st : State) : State :=
  {| keys := keys st; unlocked := unlocked st; clock := clock st;
     tape := tape st; cursor := cursor st; next_sample := s |}.

Fixpoint read_tape (t : nat -> ascii) (from n : nat) : string :=
  match n with
  | O => EmptyString
  | S n' => String (t from) (read_tape t (S from) n')
  end.

(** Modelled from the spec: [n] bytes of the secure random source. *)
Definition random_bytes (n : nat) (st : State) : string * State :=
  (read_tape (tape st) (cursor st) n, set_cursor (cursor st + n)%nat st).

(** Modelled from the spec: Key Vault, [getOrCreate(ownerId)] (section
    4.2): the stored key, or 32 fresh bytes stored on first use. *)
Definition getOrCreate (ownerId : string) (st : State) : string * State :=
  match keys st !! ownerId with
  | Some key => (key, st)
  | None =>
      let '(key, st') := random_bytes 32 st in
      (key, set_keys (<[ownerId := key]>) st')
  end.

(** Modelled from the spec: Unlock Ledger, [isUnlocked(ownerId)] (section
    4.4). *)
Definition isUnlocked (ownerId : string) (st : State) : bool :=
  match unlocked st !! ownerId with
  | Some unlockedUntil => clock st <? unlockedUntil
  | None => false
  end.

(** Modelled from the spec: a Master Key is 32 bytes (section 3). *)
Definition vault_wf (st : State) : Prop :=
  forall ownerId key, keys st !! ownerId = Some key -> String.length key = 32%nat.

Section Server.
Context {aead : Aead} (config : Config).

(** Modelled from the spec: Unlock Ledger, [unlock(ownerId)] (section 4.4):
    one sample is taken, any outcome but a hard failure grants, and the
    window is overwritten with now + window. *)
Definition unlock (ownerId : string) (st : State) : FetchResult UnlockResponse * State :=
  match next_sample st with
  | None => (HttpResponse 500 None, st)
  | Some _ =>
      (HttpResponse 200 (Some {| ok := true; error := None |}),
       set_unlocked (<[ownerId := clock st + unlock_window config]>) st)
  end.

(** Modelled from the spec: Unlock Ledger, [lock(ownerId)]. *)
Definition lock (ownerId : string) (st : State) : State :=
  set_unlocked (<[ownerId := clock st]>) st.

(** Modelled from the spec: Cipher Engine, [encrypt(ownerId, plaintext)]
    (section 4.3): the owner's key, a fresh 96-bit nonce, the AEAD, and both
    outputs in base64; no unlock check. *)
Definition encrypt (ownerId plaintext : string) (st : State)
    : FetchResult EncryptResponse * State :=
  let '(key, st1) := getOrCreate ownerId st in
  let '(iv, st2) := random_bytes 12 st1 in
  (HttpResponse 200
     (Some {| ciphertext := Base64.encode (seal key iv plaintext);
              nonce := Base64.encode iv |}),
   st2).

(** Modelled from the spec: Cipher Engine, [decrypt(ownerId, ciphertext,
    nonce)] (section 4.3): the owner's key and the AEAD; a bad encoding, a
    nonce of the wrong length and a tag mismatch all fail alike (status 400
    in the README of the server). *)
Definition decrypt (ownerId ciphertext64 nonce64 : string) (st : State)
    : FetchResult DecryptResponse * State :=
  let '(key, st1) := getOrCreate ownerId st in
  match Base64.decode ciphertext64, Base64.decode nonce64 with
  | Some sealed, Some iv =>
      if negb (String.length iv =? 12)%nat then (HttpResponse 400 None, st1)
      else
        match open key iv sealed with
        | Some message => (HttpResponse 200 (Some {| plaintext := message |}), st1)
        | None => (HttpResponse 400 None, st1)
        end
  | _, _ => (HttpResponse 400 None, st1)
  end.

(** Modelled from the spec: the Decrypt operation of the Gateway (sections 2
    and 6): the Unlock Ledger is checked first, and a locked owner is
    refused with an authorization error (status 403 in the README of the
    server) before the Cipher Engine is reached. *)
Definition gated_decrypt (ownerId ciphertext64 nonce64 : string) (st : State)
    : FetchResult DecryptResponse * State :=
  if negb (isUnlocked ownerId st) then (HttpResponse 403 None, st)
  else decrypt ownerId ciphertext64 nonce64 st.

(** Modelled from the spec: every request must carry the shared secret, or
    is rejected before any core operation (section 6). *)
Definition authenticated {B} (header : string)
    (handler : State -> FetchResult B * State) (st : State) : FetchResult B * State :=
  if String.eqb header (shared_secret config) then handler st
  else (HttpResponse 401 None, st).

(** Modelled from the spec: the three operations behind the HTTP interface
    (section 6). *)
Definition server : KmsServer State :=
  {| serve_unlock := fun header ownerId => authenticated header (unlock ownerId);
     serve_encrypt := fun header ownerId message =>
       authenticated header (encrypt ownerId message);
     serve_decrypt := fun header ownerId ciphertext64 nonce64 =>
       authenticated header (gated_decrypt ownerId ciphertext64 nonce64) |}.

(** Modelled from the spec: what can happen to the server between two
    requests of a client: any request is served, time passes, an owner
    locks, the Entropy Source changes its mind, the process restarts with
    its persisted keys and no windows (sections 3 and 5). *)
Inductive step : State -> State -> Prop :=
| step_unlock header ownerId st :
    step st (serve_unlock server header ownerId st).2
| step_encrypt header ownerId message st :
    step st (serve_encrypt server header ownerId message st).2
| step_decrypt header ownerId c n st :
    step st (serve_decrypt server header ownerId c n st).2
| step_lock ownerId st : step st (lock ownerId st)
| step_tick d st : 0 <= d -> step st (set_clock (clock st + d) st)
| step_sample s st : step st (set_next_sample s st)
| step_restart st : step st (set_unlocked (fun _ => ∅) st).

End Server.
End Kms.

(** A stand-in cipher that has the shape of an AEAD: a keystream is XORed
    over the message and a 16-byte keyed checksum is put in front.  It shows
    that the interface can be met, and says nothing about AES-GCM. *)
Module ToyAead.

Definition xor_ascii (a b : ascii) : ascii :=
  match a, b with
  | Ascii a0 a1 a2 a3 a4 a5 a6 a7, Ascii b0 b1 b2 b3 b4 b5 b6 b7 =>
      Ascii (xorb a0 b0) (xorb a1 b1) (xorb a2 b2) (xorb a3 b3)
        (xorb a4 b4) (xorb a5 b5) (xorb a6 b6) (xorb a7 b7)
  end.

Definition at_index (s : string) (i : nat) : ascii :=
  default Ascii.zero (String.get i s).

Definition keystream (key iv : string) (i : nat) : ascii :=
  xor_ascii (at_index key (i mod 32)) (at_index iv (i mod 12)).

Fixpoint xor_stream (ks : nat -> ascii) (i : nat) (message : string) : string :=
  match message with
  | EmptyString => EmptyString
  | String c rest => String (xor_ascii c (ks i)) (xor_stream ks (S i) rest)
  end.

Fixpoint checksum (acc : ascii) (s : string) : ascii :=
  match s with
  | EmptyString => acc
  | String c rest => checksum (xor_ascii acc c) rest
  end.

Fixpoint repeat_char (c : ascii) (n : nat) : string :=
  match n with
  | O => EmptyString
  | S n' => String c (repeat_char c n')
  end.

Definition tag (key iv message : string) : string :=
  repeat_char (checksum (checksum (checksum Ascii.zero key) iv) message) 16.

Fixpoint split_at (n : nat) (s : string) : option (string * string) :=
  match n, s with
  | O, _ => Some (EmptyString, s)
  | S n', String c rest =>
      match split_at n' rest with
      | Some (front, back) => Some (String c front, back)
      | None => None
      end
  | S _, EmptyString => None
  end.

Definition toy_seal (key iv message : string) : string :=
  tag key iv message +:+ xor_stream (keystream key iv) 0 message.

Definition toy_open (key iv sealed : string) : option string :=
  match split_at 16 sealed with
  | Some (t, body) =>
      let message := xor_stream (keystream key iv) 0 body in
      if String.eqb t (tag key iv message) then Some message else None
  | None => None
  end.

(** The law the interface asks for, and the instance. *)

Lemma xor_ascii_cancel (c k : ascii) : xor_ascii (xor_ascii c k) k = c.
Proof.
  destruct c as [c0 c1 c2 c3 c4 c5 c6 c7], k as [k0 k1 k2 k3 k4 k5 k6 k7].
  simpl.
  f_equal;
    match goal with
    | |- xorb (xorb ?x ?y) ?y = ?x => destruct x, y; reflexivity
    end.
Qed.

Lemma xor_stream_cancel (ks : nat -> ascii) (message : string) :
  forall i, xor_stream ks i (xor_stream ks i message) = message.
Proof.
  induction message as [|c rest IH]; intros i; simpl; [reflexivity|].
  rewrite xor_ascii_cancel, IH. reflexivity.
Qed.

Lemma split_at_tag (c : ascii) (body : string) :
  split_at 16 (repeat_char c 16 +:+ body) = Some (repeat_char c 16, body).
Proof. reflexivity. Qed.

Lemma toy_open_seal (key iv message : string) :
  toy_open key iv (toy_seal key iv message) = Some message.
Proof.
  unfold toy_open, toy_seal, tag. rewrite split_at_tag, xor_stream_cancel.
  rewrite String.eqb_refl. reflexivity.
Qed.

Definition toy : Aead :=
  {| seal := toy_seal; open := toy_open;
     open_seal := fun key iv message _ _ => toy_open_seal key iv message |}.

End ToyAead.

(** ** Worlds and requests to run the handlers on *)

Module Example.

(** A KMS double that grants every unlock and answers every call with a
    success. *)
Definition obliging_kms : KmsServer unit :=
  {| serve_unlock := fun _ _ k =>
       (HttpResponse 200 (Some {| ok := true; error := None |}), k);
     serve_encrypt := fun _ _ _ k =>
       (HttpResponse 200 (Some {| ciphertext := "Y2lwaGVy"; nonce := "bm9uY2U=" |}), k);
     serve_decrypt := fun _ _ _ _ k =>
       (HttpResponse 200 (Some {| plaintext := "secret123" |}), k) |}.

(** A KMS double whose sampling hard-fails. *)
Definition failing_kms : KmsServer unit :=
  {| serve_unlock := fun _ _ k =>
       (HttpResponse 200 (Some {| ok := false; error := Some "Entropy unavailable" |}), k);
     serve_encrypt := fun _ _ _ k => (HttpResponse 500 None, k);
     serve_decrypt := fun _ _ _ _ k => (HttpResponse 500 None, k) |}.

Definition healthy : DbOp -> option string := fun _ => None.

Definition utc : JsDate.TimeZone := JsDate.fixed_zone 0.

(** Central European time around the end of daylight saving in 2025: UTC+2
    until 2025-10-26T01:00:00Z, UTC+1 from then on; the local hour from
    02:00 to 03:00 occurs twice and is read as daylight saving time. *)
Definition berlin : JsDate.TimeZone :=
  {| JsDate.offset_utc := fun t => if t <? 1761440400000 then 7200000 else 3600000;
     JsDate.offset_local :=
       fun l => if l <? 1761440400000 + 7200000 then 7200000 else 3600000 |}.

Definition sessions_unreadable : DbOp -> option string :=
  fun op =>
    match op with
    | SelectSession => Some "connection refused"
    | _ => None
    end.

Definition bobs_secret : SecretRow :=
  {| row_owner_id := "bob"; row_title := "wifi";
     row_ciphertext := "Y2lwaGVy"; row_nonce := "bm9uY2U=" |}.

Definition world (windows : gmap string (option Z)) (clock : Z)
    (faults : DbOp -> option string) : World unit :=
  {| sessions := windows; secrets := {[ "s1" := bobs_secret ]}; now := clock;
     db_fault := faults; new_uuid := "s2"; kms_state := tt; kms_log := [] |}.

(** Alice holds a window until 2000 and Bob holds none; the clock reads
    1000. *)
Definition alice_unlocked : World unit :=
  world {[ "alice" := Some 2000 ]} 1000 healthy.

Definition alice_unlocked_unreadable : World unit :=
  world {[ "alice" := Some 2000 ]} 1000 sessions_unreadable.

(** Nobody has ever unlocked. *)
Definition all_locked : World unit := world ∅ 1000 healthy.

(** Nobody has unlocked, and it is 2025-10-26T00:55:00Z, five minutes before
    Central European clocks are set back. *)
Definition before_clock_change : World unit := world ∅ 1761440100000 healthy.

(** The same, once the KMS has granted Alice an unlock and the row
    2025-10-26T02:05:00Z has been stored for her. *)
Definition unlocked_across_clock_change : World unit :=
  {| sessions := {[ "alice" := Some 1761444300000 ]};
     secrets := {[ "s1" := bobs_secret ]}; now := 1761440100000;
     db_fault := healthy; new_uuid := "s2"; kms_state := tt;
     kms_log := [CallUnlock "alice"] |}.

Definition request_of (userId : string) (doc : Js.Json) : Request :=
  {| cookie_fishvault_user_id := Some userId; body := Some doc |}.

Definition create_doc (title message : string) : Js.Json :=
  Js.JObj [("title", Js.JStr title); ("plaintext", Js.JStr message)].

Definition decrypt_doc (secretId : string) : Js.Json :=
  Js.JObj [("secretId", Js.JStr secretId)].

(** A freshly started KMS in demo mode, with a window of 600 seconds, and a
    world in front of it. *)
Definition kms_config : Kms.Config :=
  {| Kms.shared_secret := "dev_secret"; Kms.unlock_window := 600 |}.

Definition kms_started : Kms.State :=
  {| Kms.keys := ∅; Kms.unlocked := ∅; Kms.clock := 0;
     Kms.tape := fun i => ascii_of_nat (7 * i + 3); Kms.cursor := 0;
     Kms.next_sample := Some Kms.DEMO |}.

Definition kms_world : World Kms.State :=
  {| sessions := ∅; secrets := ∅; now := 1000; db_fault := healthy;
     new_uuid := "s1"; kms_state := kms_started; kms_log := [] |}.

(** The same world once the KMS has served one more unlock for [ownerId]. *)
Definition after_unlock (ownerId : string) (w : World Kms.State) : World Kms.State :=
  {| sessions := sessions w; secrets := secrets w; now := now w;
     db_fault := db_fault w; new_uuid := new_uuid w;
     kms_state :=
       (serve_unlock (@Kms.server ToyAead.toy kms_config) "dev_secret" ownerId
          (kms_state w)).2;
     kms_log := kms_log w |}.

End Example.

(** ** app/api/session/status/route.ts *)

Module StatusRoute.
Section Route.
Context {K : Type}.

Definition GET (request : Request) : M K ApiResponse :=
  try_catch
    (match Auth.getUserId request with
     | None => ret (failure "Not authenticated" 401)
     | Some userId =>
         unlockedUntil <- Session.getUnlockedUntil userId ;;
         match unlockedUntil with
         | Some date =>
             match JsDate.toISOString date with
             | Some iso =>
                 ret {| res_status := 200; res_ok := true; res_error := None;
                        res_plaintext := None; res_unlockedUntil := Some iso |}
             | None => throw "Invalid time value"
             end
         | None => ret success
         end
     end)
    (fun _ => ret (failure "Internal server error" 500)).

End Route.
End StatusRoute.

(** ** app/api/secrets/list/route.ts *)

Module ListRoute.

(** A row of the answer: [select('id, title, created_at')]. *)
Record SecretSummary : Type := {
  sum_id : string;
  sum_title : string;
  sum_created_at : Z
}.

Record ListResponse : Type := {
  list_status : Z;
  list_ok : bool;
  list_error : option string;
  list_secrets : list SecretSummary
}.

Definition list_failure (message : string) (status : Z) : ListResponse :=
  {| list_status := status; list_ok := false; list_error := Some message;
     list_secrets := [] |}.

(** [order('created_at', { ascending: false })]: later rows first. *)
Definition newer_first (a b : SecretSummary) : Prop :=
  sum_created_at b <= sum_created_at a.

#[global] Instance newer_first_dec (a b : SecretSummary) : Decision (newer_first a b).
Proof. unfold newer_first. apply _. Defined.

Section Route.
Context {K : Type}.

(** The [created_at] column of [secrets], by row id. *)
Variable created_at : string -> Z.

Definition summary (entry : string * SecretRow) : SecretSummary :=
  {| sum_id := entry.1; sum_title := row_title entry.2;
     sum_created_at := created_at entry.1 |}.

(** [eq('owner_id', userId)] *)
Definition owned_by (userId : string) (entry : string * SecretRow) : Prop :=
  row_owner_id entry.2 = userId.

#[global] Instance owned_by_dec (userId : string) (entry : string * SecretRow) :
  Decision (owned_by userId entry).
Proof. unfold owned_by. apply _. Defined.

(** [from('secrets').select('id, title, created_at').eq('owner_id', userId)
    .order('created_at', { ascending: false })]; rows created at the same
    instant come in the order the merge sort leaves them in. *)
Definition select_secrets (userId : string) : M K (PgResult (list SecretSummary)) :=
  fun w =>
    match db_fault w SelectSecret with
    | Some e => (Normal {| data := None; pg_error := Some e |}, w)
    | None =>
        (Normal
           {| data :=
                Some (merge_sort newer_first
                        (summary <$> filter (owned_by userId)
                                       (map_to_list (secrets w))));
              pg_error := None |}, w)
    end.

Definition GET (request : Request) : M K ListResponse :=
  try_catch
    (match Auth.getUserId request with
     | None => ret (list_failure "Not authenticated" 401)
     | Some userId =>
         r <- select_secrets userId ;;
         match pg_error r with
         | Some _ => ret (list_failure "Failed to fetch secrets" 500)
         | None =>
             ret {| list_status := 200; list_ok := true; list_error := None;
                    list_secrets := default [] (data r) |}
         end
     end)
    (fun _ => ret (list_failure "Internal server error" 500)).

End Route.
End ListRoute.

(** ** lib/auth.ts: writing the cookie *)

Module Cookies.

Record Cookie : Type := {
  cookie_value : string;
  httpOnly : bool;
  secure : bool;
  sameSite : string;
  maxAge : Z
}.

(** The cookie store of one browser, for the name [fishvault_user_id]. *)
Definition Jar : Type := option Cookie.

Section Cookies.
(** [process.env.NODE_ENV] *)
Variable NODE_ENV : string.

Definition setUserId (userId : string) (jar : Jar) : Jar :=
  Some {| cookie_value := userId; httpOnly := true;
          secure := String.eqb NODE_ENV "production";
          sameSite := "lax"; maxAge := 60 * 60 * 24 * 30 |}.

Definition clearUserId (jar : Jar) : Jar := None.

End Cookies.

End Cookies.

(** ** app/api/auth/login/route.ts *)

Module LoginRoute.

Inductive UsersOp : Type := SelectUser | InsertUser.

(** [users]: [id uuid PRIMARY KEY], [email text UNIQUE NOT NULL]; the map is
    keyed by [email] and holds the [id].  [next_user_id] is the id the store
    draws for the next inserted user. *)
Record State : Type := {
  users : gmap string string;
  users_fault : UsersOp -> option string;
  next_user_id : string;
  jar : Cookies.Jar
}.

Definition set_users (f : gmap string string -> gmap string string) (st : State) : State :=
  {| users := f (users st); users_fault := users_fault st;
     next_user_id := next_user_id st; jar := jar st |}.

Definition set_jar (j : Cookies.Jar) (st : State) : State :=
  {| users := users st; users_fault := users_fault st;
     next_user_id := next_user_id st; jar := j |}.

(** Some user already has this id. *)
Definition id_in_use (id : string) (table : gmap string string) : bool :=
  bool_decide (map_Exists (fun _ id' => id' = id) table).

(** [from('users').select('id').eq('email', email).single()] *)
Definition select_user (email : string) (st : State) : PgResult string :=
  match users_fault st SelectUser with
  | Some e => {| data := None; pg_error := Some e |}
  | None =>
      match users st !! email with
      | Some id => {| data := Some id; pg_error := None |}
      | None => {| data := None; pg_error := Some PGRST116 |}
      end
  end.

(** [from('users').insert({ email }).select('id').single()] *)
Definition insert_user (email : string) (st : State) : PgResult string * State :=
  match users_fault st InsertUser with
  | Some e => ({| data := None; pg_error := Some e |}, st)
  | None =>
      match users st !! email with
      | Some _ =>
          ({| data := None;
              pg_error := Some "duplicate key value violates unique constraint" |}, st)
      | None =>
          if id_in_use (next_user_id st) (users st)
          then ({| data := None;
                   pg_error := Some "duplicate key value violates unique constraint" |},
                st)
          else ({| data := Some (next_user_id st); pg_error := None |},
                set_users (<[email := next_user_id st]>) st)
      end
  end.

Section Route.
(** [String.prototype.toLowerCase] and [process.env.NODE_ENV]. *)
Variable toLowerCase : string -> string.
Variable NODE_ENV : string.

(** [email.toLowerCase().trim()] *)
Definition normalized (email : string) : string := Js.trim (toLowerCase email).

Definition POST (request : Request) (st : State) : ApiResponse * State :=
  match body request with
  | None => (failure "Internal server error" 500, st)
  | Some doc =>
      match Js.prop doc "email" with
      | None => (failure "Internal server error" 500, st)
      | Some email =>
          if negb (Js.truthy email) || negb (String.eqb (Js.typeof email) "string")
          then (failure "Email is required" 400, st)
          else
            let existing := select_user (normalized (Js.string_value email)) st in
            match pg_error existing, data existing with
            | None, Some userId =>
                (success, set_jar (Cookies.setUserId NODE_ENV userId (jar st)) st)
            | _, _ =>
                let '(created, st1) :=
                  insert_user (normalized (Js.string_value email)) st in
                match pg_error created, data created with
                | None, Some userId =>
                    (success, set_jar (Cookies.setUserId NODE_ENV userId (jar st1)) st1)
                | _, _ => (failure "Failed to create user" 500, st1)
                end
            end
      end
  end.

End Route.
End LoginRoute.

(** ** app/page.tsx *)

Module HomePage.

(** [redirect(url)] of [next/navigation] does not return: it throws the
    error that carries the target, for the framework to catch. *)
Definition redirect {A} (url : string) : Completion A :=
  Throw ("NEXT_REDIRECT;" +:+ url).

(** [try { ... } catch { ... }] around a computation without state. *)
Definition catching {A} (attempt : Completion A) (handler : Completion A) : Completion A :=
  match attempt with
  | Normal a => Normal a
  | Throw _ => handler
  end.

Definition Home (request : Request) : Completion unit :=
  catching
    (let userId := cookie_fishvault_user_id request in
     if Js.truthy (Js.JStr <$> userId)
     then redirect "/vault"
     else redirect "/login")
    (redirect "/login").

End HomePage.

(** ** components/StatusChip.tsx and app/vault/page.tsx *)

Module VaultPage.

(** What the chip shows; the time is shown as text in "Unlocked until". *)
Inductive Chip : Type :=
| Locked
| UnlockedUntil (time : Z).

(** [unlockedUntil && new Date(unlockedUntil) > new Date()], with
    [unlockedUntil : Date | null] and [today] what [new Date()] gives. *)
Definition isUnlocked (unlockedUntil : option JsDate.Date) (today : JsDate.Date) : bool :=
  match unlockedUntil with
  | Some date => JsDate.gt date today
  | None => false
  end.

Definition StatusChip (unlockedUntil : option JsDate.Date) (today : JsDate.Date) : Chip :=
  if isUnlocked unlockedUntil today
  then
    match unlockedUntil with
    | Some (Some time) => UnlockedUntil time
    | _ => Locked
    end
  else Locked.

(** [checkSession]: the [unlockedUntil] state after the page has asked
    [/api/session/status], starting from [null]; [None] as the answer is a
    failed [fetch], which the handler swallows. *)
Definition checkSession (answer : option ApiResponse) : option JsDate.Date :=
  match answer with
  | Some res =>
      if FishKms.response_ok (res_status res)
      then
        match res_unlockedUntil res with
        | Some iso => Some (JsDate.parse iso)
        | None => None
        end
      else None
  | None => None
  end.

End VaultPage.

(** ** More worlds, for the routes above *)

Module Scenario.

(** A KMS double that encrypts and, holding the owner for locked, refuses to
    decrypt with 403. *)
Definition kms_locked : KmsServer unit :=
  {| serve_unlock := fun _ _ k =>
       (HttpResponse 200 (Some {| ok := true; error := None |}), k);
     serve_encrypt := fun _ _ _ k =>
       (HttpResponse 200 (Some {| ciphertext := "Y2lwaGVy"; nonce := "bm9uY2U=" |}), k);
     serve_decrypt := fun _ _ _ _ k => (HttpResponse 403 None, k) |}.

Definition alices_secret : SecretRow :=
  {| row_owner_id := "alice"; row_title := "door code";
     row_ciphertext := "YWxpY2U="; row_nonce := "bjE=" |}.

(** Alice and Bob are both unlocked until 2000 at clock 1000; Alice owns
    [a1], Bob owns [s1]. *)
Definition both_unlocked : World unit :=
  {| sessions := {[ "alice" := Some 2000; "bob" := Some 2000 ]};
     secrets := {[ "a1" := alices_secret; "s1" := Example.bobs_secret ]};
     now := 1000; db_fault := Example.healthy; new_uuid := "n1";
     kms_state := tt; kms_log := [] |}.

(** The no-break space U+00A0, the two bytes C2 A0. *)
Definition nbsp : string :=
  String (ascii_of_nat 194) (String (ascii_of_nat 160) EmptyString).

(** When the rows were created. *)
Definition created_at (id : string) : Z :=
  if String.eqb id "a1" then 500 else if String.eqb id "s1" then 700 else 900.

(** [toLowerCase] on the letters A to Z. *)
Definition lower_char (a : ascii) : ascii :=
  let n := nat_of_ascii a in
  if ((65 <=? n) && (n <=? 90))%nat then ascii_of_nat (n + 32) else a.

Fixpoint ascii_lower (s : string) : string :=
  match s with
  | String a rest => String (lower_char a) (ascii_lower rest)
  | EmptyString => EmptyString
  end.

Definition no_users_fault : LoginRoute.UsersOp -> option string := fun _ => None.

(** One user, Alice, and a browser without a cookie. *)
Definition one_user : LoginRoute.State :=
  {| LoginRoute.users := {[ "alice@example.com" := "u-alice" ]};
     LoginRoute.users_fault := no_users_fault;
     LoginRoute.next_user_id := "u-next"; LoginRoute.jar := None |}.

Definition login_doc (email : string) : Js.Json :=
  Js.JObj [("email", Js.JStr email)].

Definition login_request (email : string) : Request :=
  {| cookie_fishvault_user_id := None; body := Some (login_doc email) |}.

End Scenario.

(** ** Notions used in the statements *)

(** The owner's unlock window is currently valid: a window is stored and its
    [unlocked_until] is strictly later than the clock. *)
Definition window_valid {K} (w : World K) (userId : string) : Prop :=
  exists unlockedUntil,
    sessions w !! userId = Some (Some unlockedUntil) /\ now w < unlockedUntil.

(** The KMS answered the unlock call with a success. *)
Definition reports_success (answer : FetchResult UnlockResponse) : bool :=
  match answer with
  | HttpResponse status (Some b) => FishKms.response_ok status && ok b
  | _ => false
  end.

(** The answer of a gated route to a locked owner. *)
Definition locked_response : ApiResponse :=
  failure "Vault is locked. Please unlock first." 403.

(** The create route lets the request through to the KMS: the owner is
    authenticated and found unlocked, and the body is an object whose
    [title] and [plaintext] are non-empty strings. *)
Definition create_accepts {K} (request : Request) (w : World K)
    (userId title message : string) : Prop :=
  Auth.getUserId request = Some userId /\
  Session.checkUnlocked userId w = (Normal true, w) /\
  exists doc,
    body request = Some doc /\
    Js.prop doc "title" = Some (Some (Js.JStr title)) /\ title <> "" /\
    Js.prop doc "plaintext" = Some (Some (Js.JStr message)) /\ message <> "".

(** The decrypt route lets the request through to the KMS: the owner is
    authenticated and found unlocked, the body names a secret by a non-empty
    string, and the lookup by id and owner finds this row. *)
Definition decrypt_accepts {K} (request : Request) (w : World K)
    (userId secretId : string) (row : SecretRow) : Prop :=
  Auth.getUserId request = Some userId /\
  Session.checkUnlocked userId w = (Normal true, w) /\
  (exists doc,
     body request = Some doc /\
     Js.prop doc "secretId" = Some (Some (Js.JStr secretId)) /\ secretId <> "") /\
  db_fault w SelectSecret = None /\
  secrets w !! secretId = Some row /\
  row_owner_id row = userId.

(** No two emails of the [users] table share an id ([id] is the primary
    key). *)
Definition ids_unique (table : gmap string string) : Prop :=
  forall email1 email2 id,
    table !! email1 = Some id -> table !! email2 = Some id -> email1 = email2.

(** The body of a login request gives this non-empty string as [email]. *)
Definition gives_email (request : Request) (email : string) : Prop :=
  exists doc,
    body request = Some doc /\
    Js.prop doc "email" = Some (Some (Js.JStr email)) /\ email <> "".

(** * Properties *)

(** ** The unlock window: [checkUnlocked], [setUnlockedUntil], [lockNow] *)

Section SessionFacts.
Context {K : Type}.
Implicit Types (w : World K) (userId : string).

(** [checkUnlocked] always resolves, leaves the world as it found it, and
    answers [true] exactly when the read went through and found a valid
    window. *)
Lemma checkUnlocked_run w userId :
  exists b, Session.checkUnlocked userId w = (Normal b, w) /\
    (b = true <-> db_fault w SelectSession = None /\ window_valid w userId).
Proof.
  unfold Session.checkUnlocked, bind, Session.select_unlocked_until, window_valid.
  destruct (db_fault w SelectSession) as [e|] eqn:Hf; simpl.
  { exists false. split; [reflexivity|]. split; [discriminate|]. intros [? _]. discriminate. }
  destruct (sessions w !! userId) as [[t|]|] eqn:Hrow; simpl.
  - unfold new_Date, ret. simpl. exists (now w <? t). split; [reflexivity|].
    rewrite Z.ltb_lt. split.
    + intros Hlt. split; [reflexivity|]. exists t. split; [reflexivity|exact Hlt].
    + intros [_ [t' [Ht' Hlt]]]. congruence.
  - exists false. split; [reflexivity|]. split; [discriminate|].
    intros [_ [t' [Ht' _]]]. discriminate.
  - exists false. split; [reflexivity|]. split; [discriminate|].
    intros [_ [t' [Ht' _]]]. discriminate.
Qed.

Lemma checkUnlocked_locked w userId :
  ~ window_valid w userId ->
  Session.checkUnlocked userId w = (Normal false, w).
Proof.
  intros Hlocked. destruct (checkUnlocked_run w userId) as [b [Hrun Hb]].
  destruct b; [|exact Hrun]. exfalso. apply Hlocked. apply Hb. reflexivity.
Qed.

Lemma lockNow_run w userId :
  Session.lockNow userId w =
    match db_fault w UpdateSession with
    | Some e => (Throw ("Failed to lock session: " +:+ e), w)
    | None =>
        (Normal tt, set_sessions (alter (fun _ => Some (now w)) userId) w)
    end.
Proof.
  unfold Session.lockNow, bind, new_Date, Session.update_session. simpl.
  destruct (db_fault w UpdateSession); reflexivity.
Qed.

Lemma setUnlockedUntil_run w userId (d : JsDate.Date) :
  Session.setUnlockedUntil userId d w =
    match d with
    | None => (Throw "Invalid time value", w)
    | Some iso =>
        match db_fault w UpsertSession with
        | Some e => (Throw ("Failed to update session: " +:+ e), w)
        | None => (Normal tt, set_sessions (<[userId := Some iso]>) w)
        end
    end.
Proof.
  unfold Session.setUnlockedUntil, JsDate.toISOString, bind, Session.upsert_session.
  destruct d as [iso|]; [|reflexivity].
  destruct (db_fault w UpsertSession); reflexivity.
Qed.

End SessionFacts.

(** C9. [checkUnlocked] is total and fails closed: it always resolves with a
    boolean, never throws and never changes the world; and when the read of
    the session store answers with an error, finds no row, or finds a row
    whose [unlocked_until] is null, the boolean is [false]. *)
Theorem checkUnlocked_fail_closed {K} (w : World K) (userId : string) :
  (exists b, Session.checkUnlocked userId w = (Normal b, w)) /\
  (is_Some (db_fault w SelectSession) \/
   sessions w !! userId = None \/
   sessions w !! userId = Some None ->
   Session.checkUnlocked userId w = (Normal false, w)).
Proof.
  split.
  - destruct (checkUnlocked_run w userId) as [b [Hrun _]]. exists b. exact Hrun.
  - intros Hcase.
    unfold Session.checkUnlocked, bind, Session.select_unlocked_until.
    destruct Hcase as [[e He] | [Hrow | Hrow]].
    + rewrite He. reflexivity.
    + rewrite Hrow. destruct (db_fault w SelectSession); reflexivity.
    + rewrite Hrow. destruct (db_fault w SelectSession); reflexivity.
Qed.

(** A row is stored with a window that is still open, and the store cannot
    be read: the owner is observed as locked. *)
Lemma checkUnlocked_fail_closed_witness :
  Session.checkUnlocked "alice" Example.alice_unlocked_unreadable
  = (Normal false, Example.alice_unlocked_unreadable).
Proof.
  apply (proj2 (checkUnlocked_fail_closed Example.alice_unlocked_unreadable "alice")).
  left. exists "connection refused". reflexivity.
Defined.

(** C4, as the spec words it, fails when the store cannot be read: Alice's
    window is stored and open until 2000 at clock 1000, and [checkUnlocked]
    answers [false]. *)
Lemma checkUnlocked_not_iff_window_valid :
  ~ (Session.checkUnlocked "alice" Example.alice_unlocked_unreadable
       = (Normal true, Example.alice_unlocked_unreadable)
     <-> window_valid Example.alice_unlocked_unreadable "alice").
Proof.
  intros [_ Hback].
  assert (Hvalid : window_valid Example.alice_unlocked_unreadable "alice").
  { exists 2000. split; [reflexivity | reflexivity]. }
  specialize (Hback Hvalid). discriminate Hback.
Qed.

(** C4, amended. [checkUnlocked] answers [true] if and only if the read of
    the session store goes through and finds a window whose [unlocked_until]
    is strictly later than the clock.  An owner with no stored row is locked.
    Expiry is a comparison made at the read: with the same row stored and
    nothing else run, the answer is [false] once the clock has reached the
    stored instant. *)
Theorem checkUnlocked_iff_read_and_window {K} (w : World K) (userId : string) :
  (exists b, Session.checkUnlocked userId w = (Normal b, w) /\
     (b = true <-> db_fault w SelectSession = None /\ window_valid w userId)) /\
  (sessions w !! userId = None ->
     Session.checkUnlocked userId w = (Normal false, w)) /\
  (forall unlockedUntil later,
     sessions w !! userId = Some (Some unlockedUntil) ->
     unlockedUntil <= later ->
     Session.checkUnlocked userId (set_now later w) = (Normal false, set_now later w)).
Proof.
  split; [apply checkUnlocked_run|]. split.
  - intros Hrow. apply checkUnlocked_locked. intros [t [Ht _]]. congruence.
  - intros t later Hrow Hle. apply checkUnlocked_locked.
    intros [t' [Ht' Hlt]]. simpl in Ht', Hlt.
    assert (t' = t) by congruence. subst t'. lia.
Qed.

(** Alice's window, readable, is open at clock 1000 and closed at 2000. *)
Lemma checkUnlocked_iff_read_and_window_witness :
  Session.checkUnlocked "alice" (set_now 2000 Example.alice_unlocked)
  = (Normal false, set_now 2000 Example.alice_unlocked).
Proof.
  apply (proj2 (proj2 (checkUnlocked_iff_read_and_window Example.alice_unlocked "alice"))
           2000 2000).
  - reflexivity.
  - lia.
Defined.

(** C7. Whatever the owner's state before, once [lockNow] has resolved the
    stored [unlocked_until] is the clock reading of the call, or the owner
    has no row; and [checkUnlocked] answers [false] from then on, as long as
    the row is left alone and the clock does not run backwards. *)
Theorem lockNow_locks {K} (w w' : World K) (userId : string) :
  Session.lockNow userId w = (Normal tt, w') ->
  (sessions w' !! userId = Some (Some (now w)) \/ sessions w' !! userId = None) /\
  (forall w'' : World K,
     sessions w'' !! userId = sessions w' !! userId ->
     now w <= now w'' ->
     Session.checkUnlocked userId w'' = (Normal false, w'')).
Proof.
  rewrite lockNow_run. destruct (db_fault w UpdateSession) as [e|]; [discriminate|].
  intros Hrun. inversion Hrun as [Hw']. clear Hrun.
  assert (Hstored : sessions (set_sessions (alter (fun _ => Some (now w)) userId) w) !! userId
                    = Some (Some (now w)) \/
                    sessions (set_sessions (alter (fun _ => Some (now w)) userId) w) !! userId
                    = None).
  { simpl. rewrite lookup_alter_eq.
    destruct (sessions w !! userId); simpl; [left|right]; reflexivity. }
  split; [exact Hstored|].
  intros w'' Hsame Hclock. apply checkUnlocked_locked.
  intros [t [Ht Hlt]]. rewrite Hsame in Ht.
  destruct Hstored as [Hs | Hs]; rewrite Hs in Ht; [|discriminate].
  assert (t = now w) by congruence. lia.
Qed.

(** Alice locks at 1000 with 1000 seconds of her window left; a read at the
    same instant finds her locked. *)
Lemma lockNow_locks_witness :
  Session.checkUnlocked "alice"
    (set_sessions (alter (fun _ => Some 1000) "alice") Example.alice_unlocked)
  = (Normal false,
     set_sessions (alter (fun _ => Some 1000) "alice") Example.alice_unlocked).
Proof.
  apply (proj2 (lockNow_locks Example.alice_unlocked
                  (set_sessions (alter (fun _ => Some 1000) "alice") Example.alice_unlocked)
                  "alice" eq_refl)).
  - reflexivity.
  - simpl. lia.
Defined.

(** ** The unlock route *)

Section DateArithmetic.
Variable zone : JsDate.TimeZone.

(** Replacing the minutes field by itself plus [m] moves the local time by
    [m] minutes; the instant is what that local time is read back as. *)
Lemma setMinutes_fields (t m : Z) :
  JsDate.setMinutes zone (Some t)
    (Js.add (JsDate.getMinutes zone (Some t)) (Some m))
  = JsDate.TimeClip (JsDate.UTC zone (JsDate.LocalTime zone t + m * 60000)).
Proof.
  unfold JsDate.setMinutes, JsDate.getMinutes, Js.add. simpl.
  do 2 f_equal.
  unfold JsDate.MakeDate, JsDate.MakeTime, JsDate.Day,
    JsDate.HourFromTime, JsDate.MinFromTime, JsDate.SecFromTime,
    JsDate.msFromTime, JsDate.msPerDay, JsDate.msPerHour,
    JsDate.msPerMinute, JsDate.msPerSecond.
  generalize (JsDate.LocalTime zone t). intros l.
  Z.div_mod_to_equations. lia.
Qed.

(** When the new local time is read back with the offset the old instant was
    shown in, the instant has moved by [m] minutes. *)
Lemma setMinutes_adds (t m : Z) :
  JsDate.offset_local zone (JsDate.LocalTime zone t + m * 60000)
    = JsDate.offset_utc zone t ->
  JsDate.setMinutes zone (Some t)
    (Js.add (JsDate.getMinutes zone (Some t)) (Some m))
  = JsDate.TimeClip (t + m * 60000).
Proof.
  intros Hsame. rewrite setMinutes_fields. f_equal.
  unfold JsDate.UTC. rewrite Hsame. unfold JsDate.LocalTime. lia.
Qed.

Lemma TimeClip_Some (t iso : Z) : JsDate.TimeClip t = Some iso -> iso = t.
Proof.
  unfold JsDate.TimeClip. destruct (Z.abs t <=? 8640000000000000); congruence.
Qed.

Lemma setMinutes_NaN (d : JsDate.Date) :
  JsDate.setMinutes zone d (Js.add (JsDate.getMinutes zone d) None) = None.
Proof. destruct d; reflexivity. Qed.

End DateArithmetic.

#[local] Arguments JsDate.setMinutes : simpl never.
#[local] Arguments JsDate.getMinutes : simpl never.
#[local] Arguments Js.add : simpl never.
#[local] Arguments Session.setUnlockedUntil : simpl never.
#[local] Arguments Session.checkUnlocked : simpl never.

Section UnlockFacts.
Context {K : Type} (kms : KmsServer K) (FISH_KMS_API_KEY : string).
Variable zone : JsDate.TimeZone.
Variable env_UNLOCK_WINDOW_MINUTES : option string.

#[local] Abbreviation POST :=
  (UnlockRoute.POST kms FISH_KMS_API_KEY zone env_UNLOCK_WINDOW_MINUTES).
#[local] Abbreviation WINDOW :=
  (UnlockRoute.UNLOCK_WINDOW_MINUTES env_UNLOCK_WINDOW_MINUTES).

(** The handler, run: the KMS is called once; when it does not report a
    success the handler answers with a failure and writes nothing; when it
    does, the end of the window is computed from the clock and upserted. *)
Lemma unlock_POST_run (request : Request) (userId : string) (w : World K) :
  Auth.getUserId request = Some userId ->
  let answer := (serve_unlock kms FISH_KMS_API_KEY userId (kms_state w)).1 in
  let w1 := set_kms (serve_unlock kms FISH_KMS_API_KEY userId (kms_state w)).2
              (CallUnlock userId) w in
  if reports_success answer
  then
    match JsDate.setMinutes zone (Some (now w))
            (Js.add (JsDate.getMinutes zone (Some (now w))) WINDOW),
          db_fault w UpsertSession with
    | Some iso, None =>
        POST request w =
          (Normal {| res_status := 200; res_ok := true; res_error := None;
                     res_plaintext := None; res_unlockedUntil := Some iso |},
           set_sessions (<[userId := Some iso]>) w1)
    | _, _ => POST request w = (Normal (failure "Internal server error" 500), w1)
    end
  else
    exists message status,
      POST request w = (Normal (failure message status), w1) /\
      (status = 400 \/ status = 500).
Proof.
  intros Hauth. cbv zeta. unfold UnlockRoute.POST, try_catch, bind. rewrite Hauth.
  unfold FishKms.unlockVault, bind, FishKms.fetch.
  destruct (serve_unlock kms FISH_KMS_API_KEY userId (kms_state w)) as [answer k].
  simpl. destruct answer as [message | status body]; simpl.
  { exists "Internal server error", 500. split; [reflexivity | right; reflexivity]. }
  destruct (FishKms.response_ok status) eqn:Hok; simpl.
  2:{ destruct body; eexists _, 400; (split; [reflexivity | left; reflexivity]). }
  destruct body as [[granted err]|]; simpl.
  2:{ exists "Internal server error", 500. split; [reflexivity | right; reflexivity]. }
  destruct granted; simpl.
  2:{ eexists _, 400. split; [reflexivity | left; reflexivity]. }
  unfold new_Date. simpl. rewrite setUnlockedUntil_run.
  destruct (JsDate.setMinutes zone (Some (now w))
              (Js.add (JsDate.getMinutes zone (Some (now w))) WINDOW)) as [iso|];
    [|reflexivity].
  simpl. destruct (db_fault w UpsertSession); reflexivity.
Qed.

End UnlockFacts.

(** Where the server's offset from UTC never changes, an unlock that
    answered with a success has replaced the owner's row by the clock reading
    plus the configured window, 10 minutes when the variable is unset, and
    left the other rows alone. *)
Lemma unlock_sets_window_fixed_zone {K} (kms : KmsServer K) (FISH_KMS_API_KEY : string)
    (offset : Z) (env_UNLOCK_WINDOW_MINUTES : option string)
    (request : Request) (userId : string) (w w' : World K) (res : ApiResponse) :
  Auth.getUserId request = Some userId ->
  UnlockRoute.POST kms FISH_KMS_API_KEY (JsDate.fixed_zone offset)
    env_UNLOCK_WINDOW_MINUTES request w = (Normal res, w') ->
  res_ok res = true ->
  exists minutes,
    UnlockRoute.UNLOCK_WINDOW_MINUTES env_UNLOCK_WINDOW_MINUTES = Some minutes /\
    (env_UNLOCK_WINDOW_MINUTES = None -> minutes * 60000 = 600 * 1000) /\
    sessions w' = <[userId := Some (now w + minutes * 60000)]> (sessions w).
Proof.
  intros Hauth Hrun Hok.
  pose proof (unlock_POST_run kms FISH_KMS_API_KEY (JsDate.fixed_zone offset)
                env_UNLOCK_WINDOW_MINUTES request userId w Hauth) as Hcases.
  cbv zeta in Hcases.
  destruct (reports_success _).
  2:{ destruct Hcases as [message [status [Hfail _]]].
      rewrite Hfail in Hrun. inversion Hrun; subst. discriminate Hok. }
  destruct (UnlockRoute.UNLOCK_WINDOW_MINUTES env_UNLOCK_WINDOW_MINUTES)
    as [minutes|] eqn:Hwindow.
  2:{ rewrite setMinutes_NaN in Hcases.
      rewrite Hcases in Hrun. inversion Hrun; subst. discriminate Hok. }
  rewrite setMinutes_adds in Hcases by reflexivity.
  destruct (JsDate.TimeClip (now w + minutes * 60000)) as [iso|] eqn:Hclip.
  2:{ rewrite Hcases in Hrun. inversion Hrun; subst. discriminate Hok. }
  destruct (db_fault w UpsertSession).
  { rewrite Hcases in Hrun. inversion Hrun; subst. discriminate Hok. }
  rewrite Hcases in Hrun. inversion Hrun; subst. clear Hrun.
  apply TimeClip_Some in Hclip. subst iso.
  exists minutes. split; [reflexivity|]. split; [|reflexivity].
  intros Hunset. subst env_UNLOCK_WINDOW_MINUTES.
  vm_compute in Hwindow. inversion Hwindow. reflexivity.
Qed.

(** C5. The route adds the window to the minutes field of the server's local
    time, so the stored instant is the clock reading plus the window only
    where the offset from UTC stays the same.  On a server in Central
    European time, at 2025-10-26T00:55:00Z (02:55 local), five minutes before
    the clocks are set back, an unlock with the default window of 10 minutes
    answers with a success and stores 2025-10-26T02:05:00Z (03:05 local), 70
    minutes after the call, where the clock reading plus 600 seconds is
    01:05:00Z; an hour after the call the owner is still unlocked. *)
Theorem unlock_window_across_clock_change :
  UnlockRoute.POST Example.obliging_kms "dev_secret" Example.berlin None
    (Example.request_of "alice" Js.JNull) Example.before_clock_change
  = (Normal {| res_status := 200; res_ok := true; res_error := None;
               res_plaintext := None; res_unlockedUntil := Some 1761444300000 |},
     Example.unlocked_across_clock_change) /\
  sessions Example.unlocked_across_clock_change !! "alice" = Some (Some 1761444300000) /\
  now Example.before_clock_change + 600 * 1000 = 1761440700000 /\
  Session.checkUnlocked "alice"
    (set_now (now Example.before_clock_change + 3600 * 1000)
       Example.unlocked_across_clock_change)
  = (Normal true,
     set_now (now Example.before_clock_change + 3600 * 1000)
       Example.unlocked_across_clock_change).
Proof.
  split; [vm_compute; reflexivity|]. split; [reflexivity|].
  split; [reflexivity|]. vm_compute. reflexivity.
Qed.

(** C8. The handler always answers.  When the KMS does not report a
    successful unlock (the call fails, the status is not a success, the body
    cannot be read, or its [ok] is false) the answer is a failure and the
    [sessions] table is as it was; so the table changes only after a reported
    success.  An answer that is a success carries the [unlockedUntil] that
    was stored for the owner. *)
Theorem unlock_hard_failure_writes_nothing {K} (kms : KmsServer K)
    (FISH_KMS_API_KEY : string) (zone : JsDate.TimeZone)
    (env_UNLOCK_WINDOW_MINUTES : option string)
    (request : Request) (userId : string) (w : World K) :
  Auth.getUserId request = Some userId ->
  exists res w',
    UnlockRoute.POST kms FISH_KMS_API_KEY zone env_UNLOCK_WINDOW_MINUTES request w
      = (Normal res, w') /\
    (reports_success (serve_unlock kms FISH_KMS_API_KEY userId (kms_state w)).1 = false ->
       res_ok res = false /\ res_status res <> 200 /\ sessions w' = sessions w) /\
    (sessions w' <> sessions w ->
       reports_success (serve_unlock kms FISH_KMS_API_KEY userId (kms_state w)).1 = true) /\
    (res_ok res = true ->
       reports_success (serve_unlock kms FISH_KMS_API_KEY userId (kms_state w)).1 = true /\
       exists iso,
         res_unlockedUntil res = Some iso /\ sessions w' !! userId = Some (Some iso)).
Proof.
  intros Hauth.
  pose proof (unlock_POST_run kms FISH_KMS_API_KEY zone env_UNLOCK_WINDOW_MINUTES
                request userId w Hauth) as Hcases.
  cbv zeta in Hcases.
  destruct (reports_success _).
  2:{ destruct Hcases as [message [status [Hfail Hstatus]]].
      do 2 eexists. split; [exact Hfail|]. simpl. split; [|split].
      - intros _. split; [reflexivity|]. split; [|reflexivity].
        destruct Hstatus; subst status; discriminate.
      - intros Hchanged. exfalso. apply Hchanged. reflexivity.
      - discriminate. }
  assert (Hquiet : forall w1 : World K,
            UnlockRoute.POST kms FISH_KMS_API_KEY zone env_UNLOCK_WINDOW_MINUTES
              request w = (Normal (failure "Internal server error" 500), w1) ->
            sessions w1 = sessions w ->
            exists res w',
              UnlockRoute.POST kms FISH_KMS_API_KEY zone env_UNLOCK_WINDOW_MINUTES
                request w = (Normal res, w') /\
              (true = false ->
                 res_ok res = false /\ res_status res <> 200 /\ sessions w' = sessions w) /\
              (sessions w' <> sessions w -> true = true) /\
              (res_ok res = true ->
                 true = true /\
                 exists iso,
                   res_unlockedUntil res = Some iso /\
                   sessions w' !! userId = Some (Some iso))).
  { intros w1 Hfail Hsame. do 2 eexists. split; [exact Hfail|].
    split; [discriminate|]. split; [reflexivity|]. simpl. discriminate. }
  destruct (JsDate.setMinutes zone (Some (now w))
              (Js.add (JsDate.getMinutes zone (Some (now w)))
                 (UnlockRoute.UNLOCK_WINDOW_MINUTES env_UNLOCK_WINDOW_MINUTES)))
    as [iso|].
  2:{ eapply Hquiet; [exact Hcases | reflexivity]. }
  destruct (db_fault w UpsertSession).
  { eapply Hquiet; [exact Hcases | reflexivity]. }
  do 2 eexists. split; [exact Hcases|].
  split; [discriminate|]. split; [reflexivity|].
  intros _. split; [reflexivity|]. exists iso. split; [reflexivity|].
  simpl. apply lookup_insert_eq.
Qed.

(** The sampling hard-fails while Alice holds a window until 2000: the
    answer is a failure and her row still reads 2000. *)
Lemma unlock_hard_failure_writes_nothing_witness :
  exists res w',
    UnlockRoute.POST Example.failing_kms "dev_secret" Example.utc None
      (Example.request_of "alice" Js.JNull) Example.alice_unlocked = (Normal res, w') /\
    res_ok res = false /\ res_status res <> 200 /\
    sessions w' = sessions Example.alice_unlocked.
Proof.
  destruct (unlock_hard_failure_writes_nothing Example.failing_kms "dev_secret"
              Example.utc None
              (Example.request_of "alice" Js.JNull) "alice" Example.alice_unlocked
              eq_refl)
    as [res [w' [Hrun [Hfail _]]]].
  exists res, w'. split; [exact Hrun|]. apply Hfail. reflexivity.
Defined.

(** ** The decrypt route *)

(** What the routes require of a title, a value, a secret id and an email:
    a non-empty string. *)
Lemma nonempty_string_inv (v : Js.Value) :
  negb (Js.truthy v) || negb (String.eqb (Js.typeof v) "string") = false ->
  exists s, v = Some (Js.JStr s) /\ s <> "".
Proof.
  destruct v as [[| b | n | s | items | fields]|]; simpl;
    try discriminate; try (destruct b; discriminate);
    try (destruct (n =? 0); discriminate).
  intros Hs. exists s. split; [reflexivity|].
  apply String.eqb_neq. destruct (String.eqb s ""); [discriminate | reflexivity].
Qed.

Section DecryptFacts.
Context {K : Type} (kms : KmsServer K) (FISH_KMS_API_KEY : string).

#[local] Abbreviation POST := (DecryptRoute.POST kms FISH_KMS_API_KEY).

(** The gate: when [checkUnlocked] answers [false] the handler stops there. *)
Lemma decrypt_POST_gate (request : Request) (userId : string) (w : World K) :
  Auth.getUserId request = Some userId ->
  Session.checkUnlocked userId w = (Normal false, w) ->
  POST request w = (Normal locked_response, w).
Proof.
  intros Hauth Hlocked. unfold DecryptRoute.POST, try_catch, bind.
  rewrite Hauth, Hlocked. reflexivity.
Qed.

(** Past the gate, a request naming [secretId] is looked up by id and
    owner. *)
Lemma decrypt_POST_lookup (request : Request) (userId secretId : string)
    (doc : Js.Json) (w : World K) :
  Auth.getUserId request = Some userId ->
  Session.checkUnlocked userId w = (Normal true, w) ->
  body request = Some doc ->
  Js.prop doc "secretId" = Some (Some (Js.JStr secretId)) ->
  secretId <> "" ->
  POST request w =
    try_catch
      (r <- DecryptRoute.select_secret secretId userId ;;
       match pg_error r, data r with
       | Some _, _ | None, None => ret (failure "Secret not found" 404)
       | None, Some secret =>
           decrypted <- FishKms.decryptSecret kms FISH_KMS_API_KEY userId
                          (row_ciphertext secret) (row_nonce secret) ;;
           ret {| res_status := 200; res_ok := true; res_error := None;
                  res_plaintext := Some (plaintext decrypted);
                  res_unlockedUntil := None |}
       end)
      (fun message => ret (failure message 500)) w.
Proof.
  intros Hauth Hopen Hbody Hprop Hne.
  unfold DecryptRoute.POST, try_catch, bind at 1. rewrite Hauth.
  unfold bind at 1. rewrite Hopen. simpl.
  unfold request_json, destructure1, bind at 1. rewrite Hbody. simpl.
  unfold bind at 1. rewrite Hprop. simpl.
  apply String.eqb_neq in Hne. rewrite Hne. simpl. reflexivity.
Qed.

Lemma select_secret_foreign (userId secretId : string) (w : World K) :
  (forall row, secrets w !! secretId = Some row -> row_owner_id row <> userId) ->
  exists r, DecryptRoute.select_secret secretId userId w = (Normal r, w) /\
            (is_Some (pg_error r) \/ data r = None).
Proof.
  intros Hforeign. unfold DecryptRoute.select_secret.
  destruct (db_fault w SelectSecret) as [e|].
  { eexists. split; [reflexivity|]. left. simpl. eauto. }
  destruct (secrets w !! secretId) as [row|] eqn:Hrow.
  2:{ eexists. split; [reflexivity|]. left. simpl. eauto. }
  specialize (Hforeign row eq_refl). apply String.eqb_neq in Hforeign.
  rewrite Hforeign. eexists. split; [reflexivity|]. left. simpl. eauto.
Qed.

End DecryptFacts.

Section DecryptStatus.
Context {K : Type} (kms : KmsServer K) (FISH_KMS_API_KEY : string).

(** Once the KMS has been called, the handler answers 200 with the
    plaintext, or 500 with the message of the failed call. *)
Lemma decryptSecret_then_respond (userId c n : string) (w : World K) :
  exists res w',
    try_catch
      (decrypted <- FishKms.decryptSecret kms FISH_KMS_API_KEY userId c n ;;
       ret {| res_status := 200; res_ok := true; res_error := None;
              res_plaintext := Some (plaintext decrypted);
              res_unlockedUntil := None |})
      (fun message => ret (failure message 500)) w = (Normal res, w') /\
    (res_status res = 200 \/ res_status res = 500).
Proof.
  unfold try_catch, bind, FishKms.decryptSecret, bind, FishKms.fetch.
  destruct (serve_decrypt kms FISH_KMS_API_KEY userId c n (kms_state w)) as [answer k].
  destruct answer as [message | status body]; simpl.
  { do 2 eexists. split; [reflexivity | right; reflexivity]. }
  destruct (FishKms.response_ok status); simpl.
  2:{ do 2 eexists. split; [reflexivity | right; reflexivity]. }
  destruct body; simpl; do 2 eexists; (split; [reflexivity|]); [left | right]; reflexivity.
Qed.

(** Status 403 comes from the unlock gate and from nowhere else: the world
    is then untouched, so no call has left for the KMS. *)
Lemma decrypt_POST_403 (request : Request) (w w' : World K) (res : ApiResponse) :
  DecryptRoute.POST kms FISH_KMS_API_KEY request w = (Normal res, w') ->
  res_status res = 403 ->
  res = locked_response /\ w' = w.
Proof.
  unfold DecryptRoute.POST, try_catch, bind at 1.
  destruct (Auth.getUserId request) as [userId|].
  2:{ intros Hrun; inversion Hrun; subst; discriminate. }
  unfold bind at 1.
  destruct (checkUnlocked_run w userId) as [b [Hb _]]. rewrite Hb.
  destruct b; simpl.
  2:{ intros Hrun; inversion Hrun; subst. intros _. split; reflexivity. }
  unfold request_json, bind at 1.
  destruct (body request) as [doc|]; simpl.
  2:{ intros Hrun; inversion Hrun; subst; discriminate. }
  unfold destructure1, bind at 1.
  destruct (Js.prop doc "secretId") as [secretId|]; simpl.
  2:{ intros Hrun; inversion Hrun; subst; discriminate. }
  destruct (negb (Js.truthy secretId) || negb (String.eqb (Js.typeof secretId) "string")).
  { simpl. intros Hrun; inversion Hrun; subst; discriminate. }
  unfold bind at 1, DecryptRoute.select_secret.
  assert (Hcall : forall c n res0 w0,
            (match
               (decrypted <- FishKms.decryptSecret kms FISH_KMS_API_KEY userId c n ;;
                ret {| res_status := 200; res_ok := true; res_error := None;
                       res_plaintext := Some (plaintext decrypted);
                       res_unlockedUntil := None |}) w
             with
             | (Normal a, w1) => (Normal a, w1)
             | (Throw e, w1) => ret (failure e 500) w1
             end) = (Normal res0, w0) ->
            res_status res0 = 403 -> res0 = locked_response /\ w0 = w).
  { intros c n res0 w0 Hrun Hstatus.
    destruct (decryptSecret_then_respond userId c n w) as [res1 [w1 [Hrun1 Hcases]]].
    unfold try_catch in Hrun1. rewrite Hrun1 in Hrun. inversion Hrun; subst.
    destruct Hcases as [H1 | H1]; rewrite H1 in Hstatus; discriminate. }
  destruct (db_fault w SelectSecret); simpl.
  { intros Hrun; inversion Hrun; subst; discriminate. }
  destruct (secrets w !! Js.string_value secretId) as [row|]; simpl.
  2:{ intros Hrun; inversion Hrun; subst; discriminate. }
  destruct (String.eqb (row_owner_id row) userId); simpl.
  2:{ intros Hrun; inversion Hrun; subst; discriminate. }
  apply Hcall.
Qed.

End DecryptStatus.

(** C1. For an authenticated owner whose unlock window is not currently
    valid (no row, a null [unlocked_until], or one not later than the
    clock), the decrypt route answers 403 with "Vault is locked. Please
    unlock first." whatever the request names and whatever is stored, and
    the world is untouched: no call leaves for the KMS.  The status is the
    gate's alone: a request that did reach the KMS, and so any failure of
    the decryption itself, is never answered with 403. *)
Theorem decrypt_locked_is_403 {K} (kms : KmsServer K) (FISH_KMS_API_KEY : string)
    (request : Request) (userId : string) (w : World K) :
  Auth.getUserId request = Some userId ->
  (~ window_valid w userId ->
     DecryptRoute.POST kms FISH_KMS_API_KEY request w = (Normal locked_response, w)) /\
  (forall res w',
     DecryptRoute.POST kms FISH_KMS_API_KEY request w = (Normal res, w') ->
     kms_log w' <> kms_log w ->
     res_status res <> 403).
Proof.
  intros Hauth. split.
  - intros Hlocked.
    apply (decrypt_POST_gate kms FISH_KMS_API_KEY request userId w Hauth).
    apply checkUnlocked_locked. exact Hlocked.
  - intros res w' Hrun Hcalled Hstatus.
    destruct (decrypt_POST_403 kms FISH_KMS_API_KEY request w w' res Hrun Hstatus)
      as [_ Hsame].
    apply Hcalled. rewrite Hsame. reflexivity.
Qed.

(** Bob has never unlocked and asks for his own secret: 403, and the KMS log
    stays empty. *)
Lemma decrypt_locked_is_403_witness :
  DecryptRoute.POST Example.obliging_kms "dev_secret"
    (Example.request_of "bob" (Example.decrypt_doc "s1")) Example.all_locked
  = (Normal locked_response, Example.all_locked).
Proof.
  apply (proj1 (decrypt_locked_is_403 Example.obliging_kms "dev_secret"
                  (Example.request_of "bob" (Example.decrypt_doc "s1")) "bob"
                  Example.all_locked eq_refl)).
  intros [t [Hrow _]]. discriminate Hrow.
Defined.

Section DecryptCalls.
Context {K : Type} (kms : KmsServer K) (FISH_KMS_API_KEY : string).

Lemma decryptSecret_log (userId c n : string) (w : World K) :
  kms_log (FishKms.decryptSecret kms FISH_KMS_API_KEY userId c n w).2
  = (kms_log w ++ [CallDecrypt userId c n])%list.
Proof.
  unfold FishKms.decryptSecret, bind, FishKms.fetch.
  destruct (serve_decrypt kms FISH_KMS_API_KEY userId c n (kms_state w)) as [answer k].
  destruct answer as [message | status body]; simpl; [reflexivity|].
  destruct (FishKms.response_ok status); simpl; [|reflexivity].
  destruct body; reflexivity.
Qed.

(** The handler always answers, and either leaves the world untouched or
    has made exactly one call to the KMS: a decryption, for the requesting
    owner, of the row of [secrets] that the request names and that carries
    the owner's id. *)
Lemma decrypt_POST_calls (request : Request) (w : World K) :
  exists res w',
    DecryptRoute.POST kms FISH_KMS_API_KEY request w = (Normal res, w') /\
    (w' = w /\ res_ok res = false /\ res_plaintext res = None
     \/ exists userId secretId row,
          decrypt_accepts request w userId secretId row /\
          kms_log w' = (kms_log w ++
            [CallDecrypt userId (row_ciphertext row) (row_nonce row)])%list).
Proof.
  unfold DecryptRoute.POST, try_catch, bind at 1.
  destruct (Auth.getUserId request) as [userId|] eqn:Hauth.
  2:{ do 2 eexists. split; [reflexivity|]. left. repeat split. }
  unfold bind at 1.
  destruct (checkUnlocked_run w userId) as [b [Hb _]]. rewrite Hb.
  destruct b; simpl.
  2:{ do 2 eexists. split; [reflexivity|]. left. repeat split. }
  unfold request_json, bind at 1.
  destruct (body request) as [doc|] eqn:Hbody; simpl.
  2:{ do 2 eexists. split; [reflexivity|]. left. repeat split. }
  unfold destructure1, bind at 1.
  destruct (Js.prop doc "secretId") as [secretId|] eqn:Hprop; simpl.
  2:{ do 2 eexists. split; [reflexivity|]. left. repeat split. }
  destruct (negb (Js.truthy secretId) || negb (String.eqb (Js.typeof secretId) "string"))
    eqn:Hcheck.
  { simpl. do 2 eexists. split; [reflexivity|]. left. repeat split. }
  destruct (nonempty_string_inv secretId Hcheck) as [sid [-> Hsid]]. simpl.
  unfold bind at 1, DecryptRoute.select_secret.
  destruct (db_fault w SelectSecret) eqn:Hfault; simpl.
  { do 2 eexists. split; [reflexivity|]. left. repeat split. }
  destruct (secrets w !! sid) as [row|] eqn:Hrow; simpl.
  2:{ do 2 eexists. split; [reflexivity|]. left. repeat split. }
  destruct (String.eqb (row_owner_id row) userId) eqn:Howner; simpl.
  2:{ do 2 eexists. split; [reflexivity|]. left. repeat split. }
  apply String.eqb_eq in Howner.
  assert (Hacc : decrypt_accepts request w userId sid row).
  { split; [exact Hauth|]. split; [exact Hb|]. split; [exists doc; auto|]. auto. }
  pose proof (decryptSecret_log userId (row_ciphertext row) (row_nonce row) w) as Hlog.
  destruct (FishKms.decryptSecret kms FISH_KMS_API_KEY userId
              (row_ciphertext row) (row_nonce row) w) as [[decrypted | message] w1];
    simpl in Hlog |- *.
  - do 2 eexists. split; [reflexivity|]. right. exists userId, sid, row. auto.
  - do 2 eexists. split; [reflexivity|]. right. exists userId, sid, row. auto.
Qed.

End DecryptCalls.

(** C10, as worded, fails for a locked owner: Alice has never unlocked and
    names [s1], which is Bob's; the answer is the 403 of the unlock gate,
    not a not-found error. *)
Lemma decrypt_foreign_secret_while_locked_is_403 :
  Auth.getUserId (Example.request_of "alice" (Example.decrypt_doc "s1")) = Some "alice" /\
  secrets Example.all_locked !! "s1" = Some Example.bobs_secret /\
  row_owner_id Example.bobs_secret <> "alice" /\
  DecryptRoute.POST Example.obliging_kms "dev_secret"
    (Example.request_of "alice" (Example.decrypt_doc "s1")) Example.all_locked
  = (Normal (failure "Vault is locked. Please unlock first." 403), Example.all_locked) /\
  failure "Vault is locked. Please unlock first." 403 <> failure "Secret not found" 404.
Proof.
  split; [reflexivity|]. split; [reflexivity|]. split; [discriminate|].
  split; [reflexivity | discriminate].
Qed.

(** C10, amended. The decrypt route only ever sends the KMS the row of
    [secrets] that is stored under the [secretId] of the request body and
    carries the requesting owner's id: the one call it can make is the
    decryption of that row's ciphertext and nonce, for an owner found
    unlocked.  A request naming a secret that does not exist or belongs to
    another owner never reaches the KMS and returns no plaintext: it is
    answered 404 "Secret not found" when the owner is unlocked, and with the
    403 of the unlock gate when the owner is locked. *)
Theorem decrypt_only_own_records {K} (kms : KmsServer K) (FISH_KMS_API_KEY : string)
    (request : Request) (userId : string) (w : World K) :
  Auth.getUserId request = Some userId ->
  (exists res w',
     DecryptRoute.POST kms FISH_KMS_API_KEY request w = (Normal res, w') /\
     (kms_log w' = kms_log w /\ res_plaintext res = None
      \/ exists secretId row,
           decrypt_accepts request w userId secretId row /\
           kms_log w' = (kms_log w ++
             [CallDecrypt userId (row_ciphertext row) (row_nonce row)])%list)) /\
  (forall doc secretId,
     body request = Some doc ->
     Js.prop doc "secretId" = Some (Some (Js.JStr secretId)) ->
     secretId <> "" ->
     (forall row, secrets w !! secretId = Some row -> row_owner_id row <> userId) ->
     exists res,
       DecryptRoute.POST kms FISH_KMS_API_KEY request w = (Normal res, w) /\
       res_ok res = false /\ res_plaintext res = None /\
       (Session.checkUnlocked userId w = (Normal true, w) ->
          res = failure "Secret not found" 404) /\
       (Session.checkUnlocked userId w = (Normal false, w) ->
          res = locked_response)).
Proof.
  intros Hauth. split.
  - destruct (decrypt_POST_calls kms FISH_KMS_API_KEY request w)
      as [res [w' [Hrun Hcases]]].
    exists res, w'. split; [exact Hrun|].
    destruct Hcases as [[Hsame [_ Hplain]] | [u [sid [row [Hacc Hlog]]]]].
    + left. subst w'. split; [reflexivity | exact Hplain].
    + right. assert (Hsame : u = userId).
      { destruct Hacc as [Hu _]. congruence. }
      exists sid, row. rewrite <- Hsame. auto.
  - intros doc secretId Hbody Hprop Hne Hforeign.
    destruct (checkUnlocked_run w userId) as [b [Hb _]]. destruct b.
    + rewrite (decrypt_POST_lookup kms FISH_KMS_API_KEY request userId secretId doc w
                 Hauth Hb Hbody Hprop Hne).
      destruct (select_secret_foreign userId secretId w Hforeign) as [r [Hsel Hr]].
      exists (failure "Secret not found" 404).
      split.
      * unfold try_catch, bind. rewrite Hsel.
        destruct Hr as [[e He] | Hdata].
        -- rewrite He. reflexivity.
        -- rewrite Hdata. destruct (pg_error r); reflexivity.
      * split; [reflexivity|]. split; [reflexivity|]. split; [reflexivity|].
        rewrite Hb. intros Habs. inversion Habs.
    + exists locked_response. split.
      * apply (decrypt_POST_gate kms FISH_KMS_API_KEY request userId w Hauth Hb).
      * split; [reflexivity|]. split; [reflexivity|]. split; [|reflexivity].
        rewrite Hb. intros Habs. inversion Habs.
Qed.

(** Alice, unlocked, names Bob's secret: 404, and nothing is sent to the
    KMS.  Alice, unlocked, names her own secret [a1]: the KMS is sent the
    ciphertext and nonce of [a1], not those of Bob's [s1]. *)
Lemma decrypt_only_own_records_witness :
  DecryptRoute.POST Example.obliging_kms "dev_secret"
    (Example.request_of "alice" (Example.decrypt_doc "s1")) Example.alice_unlocked
  = (Normal (failure "Secret not found" 404), Example.alice_unlocked) /\
  kms_log
    (DecryptRoute.POST Example.obliging_kms "dev_secret"
       (Example.request_of "alice" (Example.decrypt_doc "a1")) Scenario.both_unlocked).2
  = [CallDecrypt "alice" "YWxpY2U=" "bjE="].
Proof.
  split.
  - destruct (proj2 (decrypt_only_own_records Example.obliging_kms "dev_secret"
                       (Example.request_of "alice" (Example.decrypt_doc "s1")) "alice"
                       Example.alice_unlocked eq_refl)
                (Example.decrypt_doc "s1") "s1" eq_refl eq_refl)
      as [res [Hrun [_ [_ [Hfound _]]]]].
    + discriminate.
    + intros row Hrow. vm_compute in Hrow. inversion Hrow. discriminate.
    + rewrite Hrun. rewrite (Hfound eq_refl). reflexivity.
  - destruct (proj1 (decrypt_only_own_records Example.obliging_kms "dev_secret"
                       (Example.request_of "alice" (Example.decrypt_doc "a1")) "alice"
                       Scenario.both_unlocked eq_refl))
      as [res [w' [Hrun [[Hsame _] | [secretId [row [Haccepts Hlog]]]]]]].
    + assert (Hcalled :
        kms_log
          (DecryptRoute.POST Example.obliging_kms "dev_secret"
             (Example.request_of "alice" (Example.decrypt_doc "a1"))
             Scenario.both_unlocked).2 = kms_log w') by (rewrite Hrun; reflexivity).
      rewrite Hsame in Hcalled. vm_compute in Hcalled. discriminate Hcalled.
    + rewrite Hrun. simpl. rewrite Hlog.
      destruct Haccepts as [_ [_ [[doc [Hbody [Hprop _]]] [_ [Hrow _]]]]].
      vm_compute in Hbody. inversion Hbody; subst.
      vm_compute in Hprop. inversion Hprop; subst.
      vm_compute in Hrow. inversion Hrow; subst.
      reflexivity.
Defined.

(** ** The create route and the encrypt call *)

Section CreateFacts.
Context {K : Type} (kms : KmsServer K) (FISH_KMS_API_KEY : string).

Lemma create_POST_gate (request : Request) (userId : string) (w : World K) :
  Auth.getUserId request = Some userId ->
  Session.checkUnlocked userId w = (Normal false, w) ->
  CreateRoute.POST kms FISH_KMS_API_KEY request w = (Normal locked_response, w).
Proof.
  intros Hauth Hlocked. unfold CreateRoute.POST, try_catch, bind.
  rewrite Hauth, Hlocked. reflexivity.
Qed.

(** What [encryptSecret] does is decided by the answer of the KMS alone. *)
Lemma encryptSecret_run (ownerId message : string) (w : World K) :
  FishKms.encryptSecret kms FISH_KMS_API_KEY ownerId message w =
    (match (serve_encrypt kms FISH_KMS_API_KEY ownerId message (kms_state w)).1 with
     | NetworkError e => Throw e
     | HttpResponse status b =>
         if FishKms.response_ok status
         then match b with
              | Some encrypted => Normal encrypted
              | None => Throw "Unexpected end of JSON input"
              end
         else Throw ("Encrypt failed: HTTP " +:+ pretty status)
     end,
     set_kms (serve_encrypt kms FISH_KMS_API_KEY ownerId message (kms_state w)).2
       (CallEncrypt ownerId message) w).
Proof.
  unfold FishKms.encryptSecret, bind, FishKms.fetch.
  destruct (serve_encrypt kms FISH_KMS_API_KEY ownerId message (kms_state w)) as [answer k].
  destruct answer as [e | status b]; simpl; [reflexivity|].
  destruct (FishKms.response_ok status); simpl; [|reflexivity].
  destruct b; reflexivity.
Qed.

End CreateFacts.

(** C2, as worded, fails on the create route: Bob has never unlocked, sends
    a well-formed secret to a KMS that would encrypt it, and is refused with
    403. *)
Lemma create_while_locked_is_refused :
  Auth.getUserId (Example.request_of "bob" (Example.create_doc "wifi" "hunter2"))
  = Some "bob" /\
  CreateRoute.POST Example.obliging_kms "dev_secret"
    (Example.request_of "bob" (Example.create_doc "wifi" "hunter2")) Example.all_locked
  = (Normal (failure "Vault is locked. Please unlock first." 403), Example.all_locked) /\
  res_ok (failure "Vault is locked. Please unlock first." 403) = false.
Proof. repeat split. Qed.

(** C2, amended. The client call [encryptSecret] makes no unlock check: its
    outcome and what it leaves at the KMS are the same whatever the
    [sessions] table, the clock and the store's health are.  The create
    route is gated: for an authenticated owner whose window is not valid it
    answers 403 "Vault is locked. Please unlock first." and the world is
    untouched, so nothing is sent to the KMS and nothing is stored. *)
Theorem encrypt_client_ungated_create_gated {K} (kms : KmsServer K)
    (FISH_KMS_API_KEY : string) :
  (forall (ownerId message : string) (w : World K)
          (windows : gmap string (option Z)) (clock : Z)
          (faults : DbOp -> option string),
     FishKms.encryptSecret kms FISH_KMS_API_KEY ownerId message
       (set_db_fault faults (set_now clock (set_sessions (fun _ => windows) w)))
     = ((FishKms.encryptSecret kms FISH_KMS_API_KEY ownerId message w).1,
        set_db_fault faults
          (set_now clock
             (set_sessions (fun _ => windows)
                (FishKms.encryptSecret kms FISH_KMS_API_KEY ownerId message w).2)))) /\
  (forall (request : Request) (userId : string) (w : World K),
     Auth.getUserId request = Some userId ->
     ~ window_valid w userId ->
     CreateRoute.POST kms FISH_KMS_API_KEY request w = (Normal locked_response, w)).
Proof.
  split.
  - intros ownerId message w windows clock faults.
    rewrite !encryptSecret_run. reflexivity.
  - intros request userId w Hauth Hlocked.
    apply (create_POST_gate kms FISH_KMS_API_KEY request userId w Hauth).
    apply checkUnlocked_locked. exact Hlocked.
Qed.

(** Alice's window ran out at 2000; at 2000 her create request is refused. *)
Lemma encrypt_client_ungated_create_gated_witness :
  CreateRoute.POST Example.obliging_kms "dev_secret"
    (Example.request_of "alice" (Example.create_doc "wifi" "hunter2"))
    (set_now 2000 Example.alice_unlocked)
  = (Normal locked_response, set_now 2000 Example.alice_unlocked).
Proof.
  apply (proj2 (encrypt_client_ungated_create_gated Example.obliging_kms "dev_secret")
           (Example.request_of "alice" (Example.create_doc "wifi" "hunter2")) "alice"
           (set_now 2000 Example.alice_unlocked) eq_refl).
  intros [t [Hrow Hlt]]. vm_compute in Hrow. inversion Hrow. subst t.
  vm_compute in Hlt. discriminate Hlt.
Defined.

(** C6, as worded, fails on the create route: Alice is unlocked and sends a
    titled secret whose value is the empty string; the answer is the
    validation error 400. *)
Lemma create_empty_plaintext_is_rejected :
  Session.checkUnlocked "alice" Example.alice_unlocked
  = (Normal true, Example.alice_unlocked) /\
  CreateRoute.POST Example.obliging_kms "dev_secret"
    (Example.request_of "alice" (Example.create_doc "wifi" "")) Example.alice_unlocked
  = (Normal (failure "Secret value is required" 400), Example.alice_unlocked) /\
  res_ok (failure "Secret value is required" 400) = false.
Proof. repeat split. Qed.

(** C6, amended. The create route requires a non-empty secret value: for an
    unlocked owner whose request gives the empty string as plaintext it
    answers with a validation error, status 400, and the world is untouched,
    so the KMS is not called and nothing is stored.  The error is "Secret
    value is required" when the body gives a non-empty string as title, and
    "Title is required" when it does not, the title being checked first.
    The client call [encryptSecret] itself does not validate: given the
    empty string it sends it to the KMS as it is and returns what the KMS
    answers. *)
Theorem create_requires_nonempty_plaintext {K} (kms : KmsServer K)
    (FISH_KMS_API_KEY : string) (request : Request) (userId : string)
    (doc : Js.Json) (w : World K) :
  Auth.getUserId request = Some userId ->
  Session.checkUnlocked userId w = (Normal true, w) ->
  body request = Some doc ->
  Js.prop doc "plaintext" = Some (Some (Js.JStr "")) ->
  (exists res,
     CreateRoute.POST kms FISH_KMS_API_KEY request w = (Normal res, w) /\
     res_status res = 400 /\ res_ok res = false /\
     ((exists title, Js.prop doc "title" = Some (Some (Js.JStr title)) /\ title <> "") ->
        res = failure "Secret value is required" 400) /\
     (~ (exists title, Js.prop doc "title" = Some (Some (Js.JStr title)) /\ title <> "") ->
        res = failure "Title is required" 400)) /\
  kms_log (FishKms.encryptSecret kms FISH_KMS_API_KEY userId "" w).2
    = (kms_log w ++ [CallEncrypt userId ""])%list /\
  (forall status encrypted,
     (serve_encrypt kms FISH_KMS_API_KEY userId "" (kms_state w)).1
       = HttpResponse status (Some encrypted) ->
     FishKms.response_ok status = true ->
     (FishKms.encryptSecret kms FISH_KMS_API_KEY userId "" w).1 = Normal encrypted).
Proof.
  intros Hauth Hopen Hbody Hplain. split; [|split].
  - unfold CreateRoute.POST, try_catch, bind at 1. rewrite Hauth.
    unfold bind at 1. rewrite Hopen. simpl.
    unfold request_json, bind at 1. rewrite Hbody. simpl.
    unfold destructure2, bind at 1. rewrite Hplain.
    destruct (Js.prop doc "title") as [title|] eqn:Htitle.
    2:{ destruct doc; discriminate. }
    simpl.
    destruct (negb (Js.truthy title) || negb (String.eqb (Js.typeof title) "string"))
      eqn:Hcheck; simpl.
    + eexists. split; [reflexivity|]. split; [reflexivity|]. split; [reflexivity|].
      split; [|reflexivity].
      intros [t [Ht Hne]]. inversion Ht; subst title. simpl in Hcheck.
      apply String.eqb_neq in Hne. rewrite Hne in Hcheck. discriminate Hcheck.
    + eexists. split; [reflexivity|]. split; [reflexivity|]. split; [reflexivity|].
      split; [reflexivity|].
      intros Hnone. exfalso. apply Hnone.
      destruct (nonempty_string_inv title Hcheck) as [t [-> Hne]].
      exists t. split; [reflexivity | exact Hne].
  - rewrite encryptSecret_run. reflexivity.
  - intros status encrypted Hanswer Hok. rewrite encryptSecret_run. simpl.
    rewrite Hanswer, Hok. reflexivity.
Qed.

(** Alice, unlocked, sends an empty value: once under the title "wifi",
    once without a title. *)
Lemma create_requires_nonempty_plaintext_witness :
  CreateRoute.POST Example.obliging_kms "dev_secret"
    (Example.request_of "alice" (Example.create_doc "wifi" "")) Example.alice_unlocked
  = (Normal (failure "Secret value is required" 400), Example.alice_unlocked) /\
  CreateRoute.POST Example.obliging_kms "dev_secret"
    (Example.request_of "alice" (Js.JObj [("plaintext", Js.JStr "")]))
    Example.alice_unlocked
  = (Normal (failure "Title is required" 400), Example.alice_unlocked).
Proof.
  split.
  - destruct (proj1 (create_requires_nonempty_plaintext Example.obliging_kms "dev_secret"
                       (Example.request_of "alice" (Example.create_doc "wifi" "")) "alice"
                       (Example.create_doc "wifi" "") Example.alice_unlocked
                       eq_refl eq_refl eq_refl eq_refl))
      as [res [Hrun [_ [_ [Htitled _]]]]].
    rewrite Hrun, Htitled; [reflexivity|].
    exists "wifi". split; [reflexivity | discriminate].
  - destruct (proj1 (create_requires_nonempty_plaintext Example.obliging_kms "dev_secret"
                       (Example.request_of "alice" (Js.JObj [("plaintext", Js.JStr "")]))
                       "alice" (Js.JObj [("plaintext", Js.JStr "")])
                       Example.alice_unlocked eq_refl eq_refl eq_refl eq_refl))
      as [res [Hrun [_ [_ [_ Huntitled]]]]].
    rewrite Hrun, Huntitled; [reflexivity|].
    intros [title [Htitle _]]. discriminate Htitle.
Defined.

(** ** The KMS server: encoding, cipher, vault *)

Section Base64Facts.
Import Base64.

Lemma char_sextet_char (n : nat) :
  (n < 64)%nat -> char_sextet (sextet_char n) = Some n.
Proof.
  intros Hn. do 64 (destruct n as [|n]; [reflexivity|]). lia.
Qed.

Lemma sextet_char_not_pad (n : nat) :
  (n < 64)%nat -> Ascii.eqb (sextet_char n) pad = false.
Proof.
  intros Hn. do 64 (destruct n as [|n]; [reflexivity|]). lia.
Qed.

Lemma code_bound (a : ascii) : (code a < 256)%nat.
Proof. apply nat_ascii_bounded. Qed.

Lemma byte_code (a : ascii) : byte (code a) = a.
Proof. apply ascii_nat_embedding. Qed.

Lemma sextets_bytes (a b c : nat) :
  (a < 256 -> b < 256 -> c < 256 ->
   (a / 4 < 64 /\ a mod 4 * 16 + b / 16 < 64 /\
    b mod 16 * 4 + c / 64 < 64 /\ c mod 64 < 64) /\
   a / 4 * 4 + (a mod 4 * 16 + b / 16) / 16 = a /\
   (a mod 4 * 16 + b / 16) mod 16 * 16 + (b mod 16 * 4 + c / 64) / 4 = b /\
   (b mod 16 * 4 + c / 64) mod 4 * 64 + c mod 64 = c)%nat.
Proof.
  intros Ha Hb Hc. zify. Z.div_mod_to_equations. lia.
Qed.

End Base64Facts.

Section Base64RoundTrip.
Import Base64.

(** Four characters that spell three bytes decode to them, and the rest of
    the text is decoded after them. *)
Lemma decode_quad (a b c : ascii) (rest : string) :
  decode
    (String (sextet_char (code a / 4))
       (String (sextet_char (code a mod 4 * 16 + code b / 16))
          (String (sextet_char (code b mod 16 * 4 + code c / 64))
             (String (sextet_char (code c mod 64)) rest))))
  = match decode rest with
    | Some bs => Some (String a (String b (String c bs)))
    | None => None
    end.
Proof.
  destruct (sextets_bytes (code a) (code b) (code c)
              (code_bound a) (code_bound b) (code_bound c))
    as [[H1 [H2 [H3 H4]]] [Ha [Hb Hc]]].
  cbn [decode].
  rewrite !char_sextet_char by assumption.
  rewrite !sextet_char_not_pad by assumption.
  rewrite Ha, Hb, Hc, !byte_code. reflexivity.
Qed.

Lemma decode_encode_bounded (n : nat) :
  forall bs, (String.length bs <= n)%nat -> decode (encode bs) = Some bs.
Proof.
  induction n as [|n IH]; intros bs Hlen.
  { destruct bs; [reflexivity | simpl in Hlen; lia]. }
  destruct bs as [|a [|b [|c rest]]].
  - reflexivity.
  - destruct (sextets_bytes (code a) 0 0 (code_bound a) ltac:(lia) ltac:(lia))
      as [[H1 [H2 _]] [Ha _]].
    cbn [encode decode].
    replace (code a mod 4 * 16)%nat with (code a mod 4 * 16 + 0 / 16)%nat
      by (rewrite Nat.Div0.div_0_l; lia).
    rewrite !char_sextet_char by assumption.
    rewrite Ascii.eqb_refl. cbn [is_empty andb].
    rewrite Ha, byte_code. reflexivity.
  - destruct (sextets_bytes (code a) (code b) 0 (code_bound a) (code_bound b) ltac:(lia))
      as [[H1 [H2 [H3 _]]] [Ha [Hb _]]].
    cbn [encode decode].
    replace (code b mod 16 * 4)%nat with (code b mod 16 * 4 + 0 / 64)%nat
      by (rewrite Nat.Div0.div_0_l; lia).
    rewrite !char_sextet_char by assumption.
    rewrite sextet_char_not_pad by assumption.
    rewrite Ascii.eqb_refl. cbn [is_empty].
    rewrite Ha, Hb, !byte_code. reflexivity.
  - cbn [encode]. rewrite decode_quad, IH; [reflexivity|].
    simpl in Hlen. lia.
Qed.

(** Decoding what was encoded gives the bytes back. *)
Lemma decode_encode (bs : string) : decode (encode bs) = Some bs.
Proof. apply (decode_encode_bounded (String.length bs)). lia. Qed.

End Base64RoundTrip.

Lemma read_tape_length (t : nat -> ascii) (n : nat) :
  forall from, String.length (Kms.read_tape t from n) = n.
Proof.
  induction n as [|n IH]; intros from; simpl; [reflexivity | rewrite IH; reflexivity].
Qed.

#[local] Arguments Base64.encode : simpl never.
#[local] Arguments Base64.decode : simpl never.
#[local] Arguments Kms.read_tape : simpl never.

Section KmsFacts.
Context {aead : Aead} (config : Kms.Config).
Implicit Types (st : Kms.State) (ownerId : string).

(** The Key Vault hands out a 32-byte key, stores it, keeps every key it
    held, and touches neither the ledger nor the clock. *)
Lemma getOrCreate_run ownerId st :
  Kms.vault_wf st ->
  Kms.keys (Kms.getOrCreate ownerId st).2 !! ownerId
    = Some (Kms.getOrCreate ownerId st).1 /\
  String.length (Kms.getOrCreate ownerId st).1 = 32%nat /\
  (forall other key, Kms.keys st !! other = Some key ->
     Kms.keys (Kms.getOrCreate ownerId st).2 !! other = Some key) /\
  Kms.unlocked (Kms.getOrCreate ownerId st).2 = Kms.unlocked st /\
  Kms.clock (Kms.getOrCreate ownerId st).2 = Kms.clock st.
Proof.
  intros Hwf. unfold Kms.getOrCreate.
  destruct (Kms.keys st !! ownerId) as [key|] eqn:Hkey; simpl.
  - split; [exact Hkey|]. split; [apply (Hwf ownerId key Hkey)|]. auto.
  - split; [apply lookup_insert_eq|].
    split; [first [apply read_tape_length | reflexivity]|].
    split; [|auto]. intros other key Hother.
    rewrite lookup_insert_ne; [exact Hother|]. congruence.
Qed.

Lemma getOrCreate_known ownerId key st :
  Kms.keys st !! ownerId = Some key -> Kms.getOrCreate ownerId st = (key, st).
Proof. intros Hkey. unfold Kms.getOrCreate. rewrite Hkey. reflexivity. Qed.

Lemma getOrCreate_keeps ownerId other key st :
  Kms.keys st !! other = Some key ->
  Kms.keys (Kms.getOrCreate ownerId st).2 !! other = Some key.
Proof.
  intros Hother. unfold Kms.getOrCreate.
  destruct (Kms.keys st !! ownerId) as [k|] eqn:Hkey; simpl; [exact Hother|].
  rewrite lookup_insert_ne; [exact Hother|]. congruence.
Qed.

Lemma authenticated_keeps {B} header (handler : Kms.State -> FetchResult B * Kms.State)
    other key st :
  (Kms.keys st !! other = Some key -> Kms.keys (handler st).2 !! other = Some key) ->
  Kms.keys st !! other = Some key ->
  Kms.keys (Kms.authenticated config header handler st).2 !! other = Some key.
Proof.
  intros Hhandler Hother. unfold Kms.authenticated.
  destruct (String.eqb header (Kms.shared_secret config)); [auto | exact Hother].
Qed.

(** Invariant 1 of the spec: a Master Key, once created, never changes. *)
Lemma step_keeps_keys st st' other key :
  Kms.step config st st' ->
  Kms.keys st !! other = Some key -> Kms.keys st' !! other = Some key.
Proof.
  intros Hstep Hother. destruct Hstep; simpl; try exact Hother.
  - apply authenticated_keeps; [|exact Hother]. intros Hk.
    unfold Kms.unlock. destruct (Kms.next_sample st); exact Hk.
  - apply authenticated_keeps; [|exact Hother]. intros Hk.
    unfold Kms.encrypt.
    pose proof (getOrCreate_keeps ownerId other key st Hk) as Hkept.
    destruct (Kms.getOrCreate ownerId st) as [k st1]. exact Hkept.
  - apply authenticated_keeps; [|exact Hother]. intros Hk.
    unfold Kms.gated_decrypt, Kms.decrypt.
    destruct (negb (Kms.isUnlocked ownerId st)); [exact Hk|].
    pose proof (getOrCreate_keeps ownerId other key st Hk) as Hkept.
    destruct (Kms.getOrCreate ownerId st) as [k st1]. simpl in Hkept.
    destruct (Base64.decode c) as [sealed|]; [|exact Hkept].
    destruct (Base64.decode n) as [iv|]; [|exact Hkept].
    destruct (negb (String.length iv =? 12)%nat); [exact Hkept|].
    destruct (open k iv sealed); exact Hkept.
Qed.

Lemma steps_keep_keys st st' other key :
  rtc (Kms.step config) st st' ->
  Kms.keys st !! other = Some key -> Kms.keys st' !! other = Some key.
Proof.
  induction 1 as [|st1 st2 st3 Hstep _ IH]; [auto|].
  intros Hk. apply IH. exact (step_keeps_keys st1 st2 other key Hstep Hk).
Qed.

(** The Cipher Engine on its own.  [encrypt] always answers, with the
    owner's 32-byte key and a 12-byte nonce behind the two encoded outputs. *)
Lemma encrypt_run ownerId message st :
  Kms.vault_wf st ->
  exists key iv st1,
    Kms.encrypt ownerId message st
      = (HttpResponse 200
           (Some {| ciphertext := Base64.encode (seal key iv message);
                    nonce := Base64.encode iv |}), st1) /\
    Kms.keys st1 !! ownerId = Some key /\
    String.length key = 32%nat /\ String.length iv = 12%nat.
Proof.
  intros Hwf. destruct (getOrCreate_run ownerId st Hwf) as [Hstored [Hlen _]].
  unfold Kms.encrypt.
  destruct (Kms.getOrCreate ownerId st) as [key st0]. simpl in *.
  do 3 eexists. split; [reflexivity|]. split; [exact Hstored|].
  split; [exact Hlen | apply read_tape_length].
Qed.

(** The Decrypt operation opens what was sealed under the key the vault
    holds, while the owner is unlocked. *)
Lemma decrypt_run ownerId key iv message st :
  Kms.keys st !! ownerId = Some key ->
  String.length key = 32%nat -> String.length iv = 12%nat ->
  Kms.isUnlocked ownerId st = true ->
  Kms.gated_decrypt ownerId (Base64.encode (seal key iv message)) (Base64.encode iv) st
    = (HttpResponse 200 (Some {| plaintext := message |}), st).
Proof.
  intros Hkey Hlen Hiv Hopen. unfold Kms.gated_decrypt, Kms.decrypt.
  rewrite Hopen. simpl. rewrite (getOrCreate_known ownerId key st Hkey).
  rewrite !decode_encode, Hiv. simpl.
  rewrite open_seal; [reflexivity | exact Hlen | exact Hiv].
Qed.

End KmsFacts.

Section ClientFacts.
Context {K : Type} (kms : KmsServer K) (FISH_KMS_API_KEY : string).

Lemma decryptSecret_run (ownerId c n : string) (w : World K) :
  FishKms.decryptSecret kms FISH_KMS_API_KEY ownerId c n w =
    (match (serve_decrypt kms FISH_KMS_API_KEY ownerId c n (kms_state w)).1 with
     | NetworkError e => Throw e
     | HttpResponse status b =>
         if FishKms.response_ok status
         then match b with
              | Some decrypted => Normal decrypted
              | None => Throw "Unexpected end of JSON input"
              end
         else Throw ("Decrypt failed: HTTP " +:+ pretty status)
     end,
     set_kms (serve_decrypt kms FISH_KMS_API_KEY ownerId c n (kms_state w)).2
       (CallDecrypt ownerId c n) w).
Proof.
  unfold FishKms.decryptSecret, bind, FishKms.fetch.
  destruct (serve_decrypt kms FISH_KMS_API_KEY ownerId c n (kms_state w)) as [answer k].
  destruct answer as [e | status b]; simpl; [reflexivity|].
  destruct (FishKms.response_ok status); simpl; [|reflexivity].
  destruct b; reflexivity.
Qed.

End ClientFacts.

(** C3. Against the KMS of the specification, with any AEAD that opens what
    it sealed: for every owner and every plaintext, the empty one and long
    ones alike, [encryptSecret] returns a ciphertext and a nonce, locked or
    not; and in any later state of the server in which the owner is
    unlocked, [decryptSecret] of that pair returns exactly the plaintext. *)
Theorem encrypt_decrypt_roundtrip {aead : Aead} (config : Kms.Config)
    (FISH_KMS_API_KEY ownerId message : string) (w : World Kms.State) :
  FISH_KMS_API_KEY = Kms.shared_secret config ->
  Kms.vault_wf (kms_state w) ->
  exists encrypted w1,
    FishKms.encryptSecret (Kms.server config) FISH_KMS_API_KEY ownerId message w
      = (Normal encrypted, w1) /\
    forall w2 : World Kms.State,
      rtc (Kms.step config) (kms_state w1) (kms_state w2) ->
      Kms.isUnlocked ownerId (kms_state w2) = true ->
      (FishKms.decryptSecret (Kms.server config) FISH_KMS_API_KEY ownerId
         (ciphertext encrypted) (nonce encrypted) w2).1
      = Normal {| plaintext := message |}.
Proof.
  intros Hsecret Hwf. subst FISH_KMS_API_KEY.
  destruct (encrypt_run ownerId message (kms_state w) Hwf)
    as [key [iv [st1 [Hencrypt [Hkey [Hlen Hiv]]]]]].
  rewrite encryptSecret_run. simpl. unfold Kms.authenticated.
  rewrite String.eqb_refl, Hencrypt. simpl.
  do 2 eexists. split; [reflexivity|].
  intros w2 Hsteps Hopen. simpl in Hsteps.
  rewrite decryptSecret_run. simpl. unfold Kms.authenticated.
  rewrite String.eqb_refl.
  rewrite (decrypt_run ownerId key iv message (kms_state w2)
             (steps_keep_keys config st1 (kms_state w2) ownerId key Hsteps Hkey)
             Hlen Hiv Hopen).
  reflexivity.
Qed.

(** The scenario of the specification, on a freshly started server with the
    stand-in cipher: [u1] encrypts "secret123" while locked, unlocks, and
    decrypts the pair. *)
Lemma encrypt_decrypt_roundtrip_witness :
  exists encrypted w1,
    FishKms.encryptSecret (@Kms.server ToyAead.toy Example.kms_config) "dev_secret"
      "u1" "secret123" Example.kms_world = (Normal encrypted, w1) /\
    (FishKms.decryptSecret (@Kms.server ToyAead.toy Example.kms_config) "dev_secret"
       "u1" (ciphertext encrypted) (nonce encrypted) (Example.after_unlock "u1" w1)).1
    = Normal {| plaintext := "secret123" |}.
Proof.
  destruct (@encrypt_decrypt_roundtrip ToyAead.toy Example.kms_config "dev_secret"
              "u1" "secret123" Example.kms_world eq_refl)
    as [encrypted [w1 [Hencrypt Hdecrypt]]].
  - intros ownerId key Hkey. discriminate Hkey.
  - exists encrypted, w1. split; [exact Hencrypt|]. apply Hdecrypt.
    + apply rtc_once. apply Kms.step_unlock.
    + assert (Hw1 : w1 = (FishKms.encryptSecret (@Kms.server ToyAead.toy Example.kms_config)
                            "dev_secret" "u1" "secret123" Example.kms_world).2)
        by (rewrite Hencrypt; reflexivity).
      rewrite Hw1. vm_compute. reflexivity.
Defined.

(** * Further properties of the code *)

(** ** Reading and writing the window *)

Section WindowFacts.
Context {K : Type}.
Implicit Types (w : World K) (userId : string).

Lemma getUnlockedUntil_run w userId :
  Session.getUnlockedUntil userId w =
    (Normal
       match db_fault w SelectSession with
       | Some _ => None
       | None =>
           match sessions w !! userId with
           | Some (Some iso) => Some (JsDate.parse iso)
           | _ => None
           end
       end, w).
Proof.
  unfold Session.getUnlockedUntil, bind, Session.select_unlocked_until.
  destruct (db_fault w SelectSession) as [e|]; [reflexivity|].
  destruct (sessions w !! userId) as [[iso|]|]; reflexivity.
Qed.

Lemma checkUnlocked_value w userId :
  Session.checkUnlocked userId w =
    (Normal
       match db_fault w SelectSession with
       | Some _ => false
       | None =>
           match sessions w !! userId with
           | Some (Some iso) => now w <? iso
           | _ => false
           end
       end, w).
Proof.
  unfold Session.checkUnlocked, bind, Session.select_unlocked_until.
  destruct (db_fault w SelectSession) as [e|]; [reflexivity|].
  destruct (sessions w !! userId) as [[iso|]|]; reflexivity.
Qed.

End WindowFacts.

(** X1. The gate and the status reading never disagree: in every world,
    store failures included, [checkUnlocked] answers exactly what the page's
    [isUnlocked] computes from the date [getUnlockedUntil] returns, at the
    same clock reading; and neither changes the world. *)
Theorem checkUnlocked_agrees_with_getUnlockedUntil {K} (w : World K) (userId : string) :
  exists unlockedUntil,
    Session.getUnlockedUntil userId w = (Normal unlockedUntil, w) /\
    Session.checkUnlocked userId w
    = (Normal (VaultPage.isUnlocked unlockedUntil (Some (now w))), w).
Proof.
  rewrite getUnlockedUntil_run, checkUnlocked_value.
  eexists. split; [reflexivity|].
  destruct (db_fault w SelectSession); [reflexivity|].
  destruct (sessions w !! userId) as [[iso|]|]; reflexivity.
Qed.

(** X2. What [setUnlockedUntil] stored is what [getUnlockedUntil] reads
    back for that owner when the read goes through, and the write touches
    nothing else: every other owner's row and the [secrets] table are as
    they were. *)
Theorem setUnlockedUntil_then_getUnlockedUntil {K} (w w' : World K)
    (userId : string) (unlockedUntil : JsDate.Date) :
  Session.setUnlockedUntil userId unlockedUntil w = (Normal tt, w') ->
  (db_fault w SelectSession = None ->
     Session.getUnlockedUntil userId w' = (Normal (Some unlockedUntil), w')) /\
  (forall other, other <> userId -> sessions w' !! other = sessions w !! other) /\
  secrets w' = secrets w.
Proof.
  rewrite setUnlockedUntil_run. destruct unlockedUntil as [iso|]; [|discriminate].
  destruct (db_fault w UpsertSession); [discriminate|].
  intros Hrun. inversion Hrun; subst w'. clear Hrun. split; [|split].
  - intros Hread. rewrite getUnlockedUntil_run. simpl. rewrite Hread.
    rewrite lookup_insert_eq. reflexivity.
  - intros other Hother. simpl. apply lookup_insert_ne. congruence.
  - reflexivity.
Qed.

Lemma setUnlockedUntil_then_getUnlockedUntil_witness :
  Session.getUnlockedUntil "bob"
    (set_sessions (<["bob" := Some 5000]>) Example.alice_unlocked)
  = (Normal (Some (Some 5000)),
     set_sessions (<["bob" := Some 5000]>) Example.alice_unlocked).
Proof.
  apply (proj1 (setUnlockedUntil_then_getUnlockedUntil Example.alice_unlocked
                  (set_sessions (<["bob" := Some 5000]>) Example.alice_unlocked)
                  "bob" (Some 5000) eq_refl)).
  reflexivity.
Defined.

(** X3. [lockNow] never creates a row and never touches another owner: the
    owners that have a row are the same before and after, an owner without
    a row leaves the table as it was, and every other owner's row and answer
    of [checkUnlocked] are unchanged. *)
Theorem lockNow_touches_one_row {K} (w w' : World K) (userId : string) :
  Session.lockNow userId w = (Normal tt, w') ->
  dom (sessions w') = dom (sessions w) /\
  (sessions w !! userId = None -> sessions w' = sessions w) /\
  (forall other, other <> userId ->
     sessions w' !! other = sessions w !! other /\
     (Session.checkUnlocked other w').1 = (Session.checkUnlocked other w).1) /\
  secrets w' = secrets w.
Proof.
  rewrite lockNow_run. destruct (db_fault w UpdateSession); [discriminate|].
  intros Hrun. inversion Hrun; subst w'. clear Hrun. simpl.
  split; [apply dom_alter_L|]. split; [|split; [|reflexivity]].
  - intros Hnone. apply map_eq. intros i.
    destruct (decide (i = userId)) as [->|Hne].
    + rewrite lookup_alter_eq, Hnone. reflexivity.
    + apply lookup_alter_ne. congruence.
  - intros other Hother.
    assert (Hrow : alter (fun _ => Some (now w)) userId (sessions w) !! other
                   = sessions w !! other) by (apply lookup_alter_ne; congruence).
    split; [exact Hrow|].
    rewrite !checkUnlocked_value. simpl. rewrite Hrow. reflexivity.
Qed.

Lemma lockNow_touches_one_row_witness :
  sessions (set_sessions (alter (fun _ => Some 1000) "bob") Example.alice_unlocked)
  = sessions Example.alice_unlocked.
Proof.
  apply (proj1 (proj2 (lockNow_touches_one_row Example.alice_unlocked
                         (set_sessions (alter (fun _ => Some 1000) "bob")
                            Example.alice_unlocked) "bob" eq_refl))).
  reflexivity.
Defined.

(** X4. The two writers are all-or-nothing: when [setUnlockedUntil] or
    [lockNow] throws (the date is invalid, or the store answers with an
    error) the world is exactly as it was, and the message of a store error
    is passed on behind the function's own prefix. *)
Theorem session_writers_fail_without_writing {K} (w w' : World K)
    (userId message : string) (unlockedUntil : JsDate.Date) :
  (Session.setUnlockedUntil userId unlockedUntil w = (Throw message, w') ->
     w' = w /\
     (message = "Invalid time value" /\ unlockedUntil = None \/
      exists e, db_fault w UpsertSession = Some e /\
                message = "Failed to update session: " +:+ e)) /\
  (Session.lockNow userId w = (Throw message, w') ->
     w' = w /\
     exists e, db_fault w UpdateSession = Some e /\
               message = "Failed to lock session: " +:+ e).
Proof.
  split.
  - rewrite setUnlockedUntil_run. destruct unlockedUntil as [iso|].
    + destruct (db_fault w UpsertSession) as [e|] eqn:Hf; [|discriminate].
      intros Hrun. inversion Hrun; subst. split; [reflexivity|]. right. eauto.
    + intros Hrun. inversion Hrun; subst. split; [reflexivity|]. left. auto.
  - rewrite lockNow_run. destruct (db_fault w UpdateSession) as [e|] eqn:Hf; [|discriminate].
    intros Hrun. inversion Hrun; subst. split; [reflexivity|]. eauto.
Qed.

Lemma session_writers_fail_without_writing_witness :
  set_db_fault (fun _ => Some "timeout") Example.alice_unlocked
  = set_db_fault (fun _ => Some "timeout") Example.alice_unlocked /\
  exists e,
    db_fault (set_db_fault (fun _ => Some "timeout") Example.alice_unlocked) UpdateSession
      = Some e /\
    "Failed to lock session: timeout" = "Failed to lock session: " +:+ e.
Proof.
  apply (proj2 (session_writers_fail_without_writing
                  (set_db_fault (fun _ => Some "timeout") Example.alice_unlocked)
                  (set_db_fault (fun _ => Some "timeout") Example.alice_unlocked)
                  "alice" "Failed to lock session: timeout" None)).
  reflexivity.
Defined.

(** ** The routes, without a cookie *)

(** X5. A request that carries no user id, or an empty one, is answered 401
    "Not authenticated" by the unlock, create, decrypt, status and list
    routes, before anything else happens: the world is untouched, so neither
    the store nor the KMS has been reached. *)
Theorem routes_refuse_without_cookie {K} (kms : KmsServer K) (FISH_KMS_API_KEY : string)
    (zone : JsDate.TimeZone) (env_UNLOCK_WINDOW_MINUTES : option string)
    (created_at : string -> Z) (request : Request) (w : World K) :
  Auth.getUserId request = None ->
  UnlockRoute.POST kms FISH_KMS_API_KEY zone env_UNLOCK_WINDOW_MINUTES request w
    = (Normal (failure "Not authenticated" 401), w) /\
  CreateRoute.POST kms FISH_KMS_API_KEY request w
    = (Normal (failure "Not authenticated" 401), w) /\
  DecryptRoute.POST kms FISH_KMS_API_KEY request w
    = (Normal (failure "Not authenticated" 401), w) /\
  StatusRoute.GET request w = (Normal (failure "Not authenticated" 401), w) /\
  ListRoute.GET created_at request w
    = (Normal (ListRoute.list_failure "Not authenticated" 401), w).
Proof.
  intros Hauth.
  unfold UnlockRoute.POST, CreateRoute.POST, DecryptRoute.POST, StatusRoute.GET,
    ListRoute.GET, try_catch.
  rewrite Hauth. repeat split.
Qed.

(** The cookie is there and empty. *)
Lemma routes_refuse_without_cookie_witness :
  DecryptRoute.POST Example.obliging_kms "dev_secret"
    (Example.request_of "" (Example.decrypt_doc "s1")) Example.alice_unlocked
  = (Normal (failure "Not authenticated" 401), Example.alice_unlocked).
Proof.
  apply (proj1 (proj2 (proj2 (routes_refuse_without_cookie Example.obliging_kms
                  "dev_secret" Example.utc None (fun _ => 0)
                  (Example.request_of "" (Example.decrypt_doc "s1"))
                  Example.alice_unlocked eq_refl)))).
Defined.

(** ** The status route and the chip *)

Section StatusFacts.
Context {K : Type}.

Lemma status_GET_run (request : Request) (userId : string) (w : World K) :
  Auth.getUserId request = Some userId ->
  StatusRoute.GET request w =
    (Normal {| res_status := 200; res_ok := true; res_error := None;
               res_plaintext := None;
               res_unlockedUntil :=
                 match db_fault w SelectSession with
                 | Some _ => None
                 | None =>
                     match sessions w !! userId with
                     | Some (Some iso) => Some iso
                     | _ => None
                     end
                 end |}, w).
Proof.
  intros Hauth. unfold StatusRoute.GET, try_catch, bind. rewrite Hauth.
  rewrite getUnlockedUntil_run.
  destruct (db_fault w SelectSession); [reflexivity|].
  destruct (sessions w !! userId) as [[iso|]|]; reflexivity.
Qed.

End StatusFacts.

(** X6. For an authenticated owner the status route always answers 200 with
    [ok: true] and never changes the world.  It reports the stored
    [unlocked_until] as it is, also when that instant has already passed;
    and it reports null when the owner has no row, when the column is null,
    and when the store cannot be read. *)
Theorem status_reports_stored_instant {K} (request : Request) (userId : string)
    (w : World K) :
  Auth.getUserId request = Some userId ->
  exists res,
    StatusRoute.GET request w = (Normal res, w) /\
    res_status res = 200 /\ res_ok res = true /\
    (forall iso, db_fault w SelectSession = None ->
       sessions w !! userId = Some (Some iso) -> res_unlockedUntil res = Some iso) /\
    (is_Some (db_fault w SelectSession) \/ sessions w !! userId = None \/
     sessions w !! userId = Some None -> res_unlockedUntil res = None).
Proof.
  intros Hauth. eexists. split; [apply (status_GET_run request userId w Hauth)|].
  simpl. split; [reflexivity|]. split; [reflexivity|]. split.
  - intros iso Hf Hrow. rewrite Hf, Hrow. reflexivity.
  - intros [[e He] | [Hrow | Hrow]].
    + rewrite He. reflexivity.
    + rewrite Hrow. destruct (db_fault w SelectSession); reflexivity.
    + rewrite Hrow. destruct (db_fault w SelectSession); reflexivity.
Qed.

(** Alice's window ran out at 2000; at 9000 the route still reports 2000. *)
Lemma status_reports_stored_instant_witness :
  exists res,
    StatusRoute.GET (Example.request_of "alice" Js.JNull)
      (set_now 9000 Example.alice_unlocked)
    = (Normal res, set_now 9000 Example.alice_unlocked) /\
    res_unlockedUntil res = Some 2000.
Proof.
  destruct (status_reports_stored_instant (Example.request_of "alice" Js.JNull) "alice"
              (set_now 9000 Example.alice_unlocked) eq_refl)
    as [res [Hrun [_ [_ [Hstored _]]]]].
  exists res. split; [exact Hrun|]. apply Hstored; reflexivity.
Defined.

(** X7. What the page shows is what the gate does: when the page loads the
    status of an authenticated owner and hands it to the chip, the chip shows
    "Unlocked until" exactly when [checkUnlocked] answers [true] at the same
    clock reading, and then it shows the stored instant; otherwise, an
    expired window and an unreadable store included, it shows "Locked". *)
Theorem chip_shows_what_the_gate_does {K} (request : Request) (userId : string)
    (w : World K) :
  Auth.getUserId request = Some userId ->
  exists res,
    StatusRoute.GET request w = (Normal res, w) /\
    ((exists iso,
        VaultPage.StatusChip (VaultPage.checkSession (Some res)) (Some (now w))
          = VaultPage.UnlockedUntil iso /\
        sessions w !! userId = Some (Some iso) /\
        Session.checkUnlocked userId w = (Normal true, w))
     \/
     (VaultPage.StatusChip (VaultPage.checkSession (Some res)) (Some (now w))
        = VaultPage.Locked /\
      Session.checkUnlocked userId w = (Normal false, w))).
Proof.
  intros Hauth. eexists. split; [apply (status_GET_run request userId w Hauth)|].
  rewrite checkUnlocked_value.
  unfold VaultPage.StatusChip, VaultPage.checkSession, VaultPage.isUnlocked. simpl.
  destruct (db_fault w SelectSession); [right; split; reflexivity|].
  destruct (sessions w !! userId) as [[iso|]|]; simpl;
    [|right; split; reflexivity|right; split; reflexivity].
  destruct (now w <? iso).
  - left. exists iso. repeat split.
  - right. split; reflexivity.
Qed.

Lemma chip_shows_what_the_gate_does_witness :
  exists res,
    StatusRoute.GET (Example.request_of "alice" Js.JNull) Example.alice_unlocked
    = (Normal res, Example.alice_unlocked) /\
    VaultPage.StatusChip (VaultPage.checkSession (Some res)) (Some 1000)
    = VaultPage.UnlockedUntil 2000.
Proof.
  destruct (chip_shows_what_the_gate_does (Example.request_of "alice" Js.JNull) "alice"
              Example.alice_unlocked eq_refl)
    as [res [Hrun Hcases]].
  exists res. split; [exact Hrun|].
  destruct Hcases as [[iso [Hchip [Hrow _]]] | [_ Hlocked]].
  - vm_compute in Hrow. inversion Hrow. subst iso. exact Hchip.
  - vm_compute in Hlocked. discriminate Hlocked.
Defined.

(** ** The unlock route, further *)

(** [parseInt] and [trim] skip the white space outside ASCII too: a window
    written after a no-break space is read, and a title between no-break
    spaces is stored without them. *)
Lemma white_space_outside_ascii :
  UnlockRoute.UNLOCK_WINDOW_MINUTES (Some (Scenario.nbsp +:+ "15")) = Some 15 /\
  Js.trim (Scenario.nbsp +:+ "wifi" +:+ Scenario.nbsp) = "wifi".
Proof. split; reflexivity. Qed.

(** X8. A window the configuration does not spell as a number disables
    unlocking: when [parseInt] finds no digits in [UNLOCK_WINDOW_MINUTES],
    every authenticated unlock is answered with a failure and the [sessions]
    table is left as it was, although the KMS has been asked (and may have
    granted). *)
Theorem unlock_with_unreadable_window {K} (kms : KmsServer K) (FISH_KMS_API_KEY : string)
    (zone : JsDate.TimeZone) (env_UNLOCK_WINDOW_MINUTES : option string)
    (request : Request) (userId : string) (w : World K) :
  Auth.getUserId request = Some userId ->
  UnlockRoute.UNLOCK_WINDOW_MINUTES env_UNLOCK_WINDOW_MINUTES = None ->
  exists res w',
    UnlockRoute.POST kms FISH_KMS_API_KEY zone env_UNLOCK_WINDOW_MINUTES request w
      = (Normal res, w') /\
    res_ok res = false /\ (res_status res = 400 \/ res_status res = 500) /\
    sessions w' = sessions w /\
    kms_log w' = (kms_log w ++ [CallUnlock userId])%list.
Proof.
  intros Hauth Hwindow.
  pose proof (unlock_POST_run kms FISH_KMS_API_KEY zone env_UNLOCK_WINDOW_MINUTES
                request userId w Hauth) as Hcases.
  cbv zeta in Hcases. rewrite Hwindow, setMinutes_NaN in Hcases.
  destruct (reports_success _).
  - do 2 eexists. split; [exact Hcases|]. simpl. auto.
  - destruct Hcases as [message [status [Hrun Hstatus]]].
    do 2 eexists. split; [exact Hrun|]. simpl. auto.
Qed.

(** [UNLOCK_WINDOW_MINUTES=ten], and a KMS that grants. *)
Lemma unlock_with_unreadable_window_witness :
  exists res w',
    UnlockRoute.POST Example.obliging_kms "dev_secret" Example.utc (Some "ten")
      (Example.request_of "alice" Js.JNull) Example.all_locked = (Normal res, w') /\
    res_ok res = false /\ sessions w' = sessions Example.all_locked.
Proof.
  destruct (unlock_with_unreadable_window Example.obliging_kms "dev_secret" Example.utc
              (Some "ten") (Example.request_of "alice" Js.JNull) "alice"
              Example.all_locked eq_refl eq_refl)
    as [res [w' [Hrun [Hok [_ [Hsame _]]]]]].
  exists res, w'. auto.
Defined.

(** X9. Unlock and gate composed, on a server whose offset from UTC is
    fixed: after an unlock that answered with a success, and as long as the
    row is readable, [checkUnlocked] for that owner is [true] at every clock
    reading before the reading of the call plus the window, and [false] from
    that instant on.  With a window of zero or fewer minutes the unlock
    succeeds and the owner is locked all the same. *)
Theorem unlock_then_checkUnlocked {K} (kms : KmsServer K) (FISH_KMS_API_KEY : string)
    (offset : Z) (env_UNLOCK_WINDOW_MINUTES : option string)
    (request : Request) (userId : string) (w w' : World K) (res : ApiResponse) :
  Auth.getUserId request = Some userId ->
  UnlockRoute.POST kms FISH_KMS_API_KEY (JsDate.fixed_zone offset)
    env_UNLOCK_WINDOW_MINUTES request w = (Normal res, w') ->
  res_ok res = true ->
  db_fault w SelectSession = None ->
  exists minutes,
    UnlockRoute.UNLOCK_WINDOW_MINUTES env_UNLOCK_WINDOW_MINUTES = Some minutes /\
    forall later,
      Session.checkUnlocked userId (set_now later w')
      = (Normal (later <? now w + minutes * 60000), set_now later w').
Proof.
  intros Hauth Hrun Hok Hread.
  destruct (unlock_sets_window_fixed_zone kms FISH_KMS_API_KEY offset
              env_UNLOCK_WINDOW_MINUTES request userId w w' res Hauth Hrun Hok)
    as [minutes [Hwindow [_ Hstored]]].
  exists minutes. split; [exact Hwindow|]. intros later.
  assert (Hfault : db_fault w' SelectSession = None).
  { pose proof (unlock_POST_run kms FISH_KMS_API_KEY (JsDate.fixed_zone offset)
                  env_UNLOCK_WINDOW_MINUTES request userId w Hauth) as Hcases.
    cbv zeta in Hcases.
    destruct (reports_success _).
    - destruct (JsDate.setMinutes _ _ _) as [iso|];
        [destruct (db_fault w UpsertSession)|];
        rewrite Hcases in Hrun; inversion Hrun; subst; exact Hread.
    - destruct Hcases as [m [s [Hfail _]]]. rewrite Hfail in Hrun.
      inversion Hrun; subst; exact Hread. }
  rewrite checkUnlocked_value. simpl. rewrite Hfault, Hstored, lookup_insert_eq.
  reflexivity.
Qed.

(** [UNLOCK_WINDOW_MINUTES=0]: Alice unlocks at 1000 and is locked at
    1000. *)
Lemma unlock_then_checkUnlocked_witness :
  exists minutes,
    UnlockRoute.UNLOCK_WINDOW_MINUTES (Some "0") = Some minutes /\
    forall later,
      Session.checkUnlocked "alice"
        (set_now later
           (UnlockRoute.POST Example.obliging_kms "dev_secret" (JsDate.fixed_zone 0)
              (Some "0") (Example.request_of "alice" Js.JNull) Example.all_locked).2)
      = (Normal (later <? now Example.all_locked + minutes * 60000),
         set_now later
           (UnlockRoute.POST Example.obliging_kms "dev_secret" (JsDate.fixed_zone 0)
              (Some "0") (Example.request_of "alice" Js.JNull) Example.all_locked).2).
Proof.
  apply (unlock_then_checkUnlocked Example.obliging_kms "dev_secret" 0 (Some "0")
           (Example.request_of "alice" Js.JNull) "alice" Example.all_locked
           (UnlockRoute.POST Example.obliging_kms "dev_secret" (JsDate.fixed_zone 0)
              (Some "0") (Example.request_of "alice" Js.JNull) Example.all_locked).2
           {| res_status := 200; res_ok := true; res_error := None;
              res_plaintext := None; res_unlockedUntil := Some 1000 |}).
  - reflexivity.
  - vm_compute. reflexivity.
  - reflexivity.
  - reflexivity.
Defined.

(** X10. An unlock concerns the requesting owner alone: whatever the answer,
    the route has made exactly one call to the KMS, an unlock for the
    cookie's user id, the [secrets] table is as it was, and so is the row of
    every other owner. *)
Theorem unlock_touches_one_owner {K} (kms : KmsServer K) (FISH_KMS_API_KEY : string)
    (zone : JsDate.TimeZone) (env_UNLOCK_WINDOW_MINUTES : option string)
    (request : Request) (userId : string) (w : World K) :
  Auth.getUserId request = Some userId ->
  exists res w',
    UnlockRoute.POST kms FISH_KMS_API_KEY zone env_UNLOCK_WINDOW_MINUTES request w
      = (Normal res, w') /\
    kms_log w' = (kms_log w ++ [CallUnlock userId])%list /\
    secrets w' = secrets w /\
    forall other, other <> userId -> sessions w' !! other = sessions w !! other.
Proof.
  intros Hauth.
  pose proof (unlock_POST_run kms FISH_KMS_API_KEY zone env_UNLOCK_WINDOW_MINUTES
                request userId w Hauth) as Hcases.
  cbv zeta in Hcases.
  destruct (reports_success _).
  - destruct (JsDate.setMinutes _ _ _) as [iso|];
      [destruct (db_fault w UpsertSession)|];
      do 2 eexists; (split; [exact Hcases|]); simpl;
      (split; [reflexivity|]); (split; [reflexivity|]); intros other Hother;
      try reflexivity.
    apply lookup_insert_ne. congruence.
  - destruct Hcases as [message [status [Hrun _]]].
    do 2 eexists. split; [exact Hrun|]. simpl. auto.
Qed.

Lemma unlock_touches_one_owner_witness :
  exists res w',
    UnlockRoute.POST Example.obliging_kms "dev_secret" Example.utc None
      (Example.request_of "bob" Js.JNull) Example.alice_unlocked = (Normal res, w') /\
    sessions w' !! "alice" = sessions Example.alice_unlocked !! "alice".
Proof.
  destruct (unlock_touches_one_owner Example.obliging_kms "dev_secret" Example.utc None
              (Example.request_of "bob" Js.JNull) "bob" Example.alice_unlocked eq_refl)
    as [res [w' [Hrun [_ [_ Hothers]]]]].
  exists res, w'. split; [exact Hrun|]. apply Hothers. discriminate.
Defined.

(** ** The create route, further *)

Section CreateOutcome.
Context {K : Type} (kms : KmsServer K) (FISH_KMS_API_KEY : string).

(** Either the request is let through, or it is answered with a failure and
    the world is untouched. *)
Lemma create_POST_validation (request : Request) (w : World K) :
  (exists userId title message, create_accepts request w userId title message) \/
  (exists res,
     CreateRoute.POST kms FISH_KMS_API_KEY request w = (Normal res, w) /\
     res_ok res = false).
Proof.
  unfold CreateRoute.POST, try_catch, bind at 1.
  destruct (Auth.getUserId request) as [userId|] eqn:Hauth.
  2:{ right. eexists. split; reflexivity. }
  unfold bind at 1.
  destruct (checkUnlocked_run w userId) as [b [Hb _]]. rewrite Hb.
  destruct b; simpl.
  2:{ right. eexists. split; reflexivity. }
  unfold request_json, bind at 1.
  destruct (body request) as [doc|] eqn:Hbody; simpl.
  2:{ right. eexists. split; reflexivity. }
  unfold destructure2, bind at 1.
  destruct (Js.prop doc "title") as [title|] eqn:Htitle; simpl.
  2:{ right. eexists. split; reflexivity. }
  destruct (Js.prop doc "plaintext") as [message|] eqn:Hmessage; simpl.
  2:{ right. eexists. split; reflexivity. }
  destruct (negb (Js.truthy title) || negb (String.eqb (Js.typeof title) "string"))
    eqn:Hcheck1.
  { right. eexists. split; reflexivity. }
  destruct (negb (Js.truthy message) || negb (String.eqb (Js.typeof message) "string"))
    eqn:Hcheck2.
  { right. eexists. split; reflexivity. }
  left.
  destruct (nonempty_string_inv title Hcheck1) as [t [-> Ht]].
  destruct (nonempty_string_inv message Hcheck2) as [m [-> Hm]].
  exists userId, t, m. unfold create_accepts.
  split; [exact Hauth|]. split; [exact Hb|]. exists doc. auto.
Qed.

(** A request that is let through: one call to the KMS, then one insert. *)
Lemma create_POST_accepted (request : Request) (w : World K)
    (userId title message : string) :
  create_accepts request w userId title message ->
  CreateRoute.POST kms FISH_KMS_API_KEY request w =
    let answer := serve_encrypt kms FISH_KMS_API_KEY userId message (kms_state w) in
    let w1 := set_kms answer.2 (CallEncrypt userId message) w in
    match answer.1 with
    | NetworkError e => (Normal (failure e 500), w1)
    | HttpResponse status b =>
        if FishKms.response_ok status
        then
          match b with
          | Some encrypted =>
              match db_fault w InsertSecret, secrets w !! new_uuid w with
              | None, None =>
                  (Normal success,
                   set_secrets
                     (<[new_uuid w :=
                          {| row_owner_id := userId; row_title := Js.trim title;
                             row_ciphertext := ciphertext encrypted;
                             row_nonce := nonce encrypted |}]>) w1)
              | _, _ => (Normal (failure "Failed to save secret" 500), w1)
              end
          | None => (Normal (failure "Unexpected end of JSON input" 500), w1)
          end
        else (Normal (failure ("Encrypt failed: HTTP " +:+ pretty status) 500), w1)
    end.
Proof.
  intros [Hauth [Hopen [doc [Hbody [Htitle [Ht [Hmessage Hm]]]]]]].
  unfold CreateRoute.POST, try_catch, bind at 1. rewrite Hauth.
  unfold bind at 1. rewrite Hopen. simpl.
  unfold request_json, bind at 1. rewrite Hbody. simpl.
  unfold destructure2, bind at 1. rewrite Htitle, Hmessage. simpl.
  apply String.eqb_neq in Ht, Hm. rewrite Ht, Hm. simpl.
  unfold bind at 1. rewrite encryptSecret_run. simpl.
  destruct (serve_encrypt kms FISH_KMS_API_KEY userId message (kms_state w))
    as [answer k].
  simpl. destruct answer as [e | status b]; simpl; [reflexivity|].
  destruct (FishKms.response_ok status); simpl; [|reflexivity].
  destruct b as [encrypted|]; simpl; [|reflexivity].
  unfold bind, CreateRoute.insert_secret. simpl.
  destruct (db_fault w InsertSecret); simpl; [reflexivity|].
  destruct (secrets w !! new_uuid w); reflexivity.
Qed.

End CreateOutcome.

(** On a concrete request, read the owner, the title and the plaintext off
    the fact that it was let through. *)
Ltac read_accepted H :=
  let Hauth := fresh "Hauth" in
  let Hbody := fresh "Hbody" in
  let Htitle := fresh "Htitle" in
  let Hmessage := fresh "Hmessage" in
  let doc := fresh "doc" in
  destruct H as [Hauth [_ [doc [Hbody [Htitle [_ [Hmessage _]]]]]]];
  vm_compute in Hauth; inversion Hauth; subst;
  vm_compute in Hbody; inversion Hbody; subst;
  vm_compute in Htitle; inversion Htitle; subst;
  vm_compute in Hmessage; inversion Hmessage; subst.

(** What a successful create has done. *)
Lemma create_POST_success {K} (kms : KmsServer K)
    (FISH_KMS_API_KEY : string) (request : Request) (w w' : World K)
    (res : ApiResponse) :
  CreateRoute.POST kms FISH_KMS_API_KEY request w = (Normal res, w') ->
  res_ok res = true ->
  exists userId title message status encrypted,
    create_accepts request w userId title message /\
    (serve_encrypt kms FISH_KMS_API_KEY userId message (kms_state w)).1
      = HttpResponse status (Some encrypted) /\
    kms_log w' = (kms_log w ++ [CallEncrypt userId message])%list /\
    secrets w !! new_uuid w = None /\
    secrets w' =
      <[new_uuid w :=
          {| row_owner_id := userId; row_title := Js.trim title;
             row_ciphertext := ciphertext encrypted;
             row_nonce := nonce encrypted |}]> (secrets w).
Proof.
  intros Hrun Hok.
  destruct (create_POST_validation kms FISH_KMS_API_KEY request w)
    as [[userId [title [message Haccepts]]] | [res0 [Hrun0 Hfail]]].
  2:{ rewrite Hrun0 in Hrun. inversion Hrun; subst. congruence. }
  rewrite (create_POST_accepted kms FISH_KMS_API_KEY request w userId title message
             Haccepts) in Hrun.
  cbv zeta in Hrun.
  destruct (serve_encrypt kms FISH_KMS_API_KEY userId message (kms_state w)).1
    as [e | status b] eqn:Hanswer.
  { inversion Hrun; subst. discriminate Hok. }
  destruct (FishKms.response_ok status).
  2:{ inversion Hrun; subst. discriminate Hok. }
  destruct b as [encrypted|].
  2:{ inversion Hrun; subst. discriminate Hok. }
  destruct (db_fault w InsertSecret).
  { inversion Hrun; subst. discriminate Hok. }
  destruct (secrets w !! new_uuid w) eqn:Hfree.
  { inversion Hrun; subst. discriminate Hok. }
  inversion Hrun; subst. clear Hrun.
  exists userId, title, message, status, encrypted.
  split; [exact Haccepts|]. split; [exact Hanswer|]. split; [reflexivity|].
  split; reflexivity.
Qed.

(** X11. A create that answers with a success has stored exactly what the
    KMS returned: the request was let through (authenticated, unlocked,
    non-empty title and plaintext), the KMS was called once, with the
    owner's id and the plaintext of the body, and answered with a ciphertext
    and a nonce; the row that carries them, the owner's id and the trimmed
    title was inserted under an id that was free, so no stored secret was
    overwritten. *)
Theorem create_stores_what_the_kms_returned {K} (kms : KmsServer K)
    (FISH_KMS_API_KEY : string) (request : Request) (w w' : World K)
    (res : ApiResponse) :
  CreateRoute.POST kms FISH_KMS_API_KEY request w = (Normal res, w') ->
  res_ok res = true ->
  exists userId title message status encrypted,
    create_accepts request w userId title message /\
    (serve_encrypt kms FISH_KMS_API_KEY userId message (kms_state w)).1
      = HttpResponse status (Some encrypted) /\
    kms_log w' = (kms_log w ++ [CallEncrypt userId message])%list /\
    secrets w !! new_uuid w = None /\
    secrets w' =
      <[new_uuid w :=
          {| row_owner_id := userId; row_title := Js.trim title;
             row_ciphertext := ciphertext encrypted;
             row_nonce := nonce encrypted |}]> (secrets w).
Proof. apply create_POST_success. Qed.

(** Alice, unlocked, stores "hunter2" under the title "wifi" written
    between a blank with a no-break space before it and a no-break space
    after it: the row holds "wifi" and what the KMS answered. *)
Lemma create_stores_what_the_kms_returned_witness :
  secrets
    (CreateRoute.POST Example.obliging_kms "dev_secret"
       (Example.request_of "alice"
          (Example.create_doc (Scenario.nbsp +:+ " wifi" +:+ Scenario.nbsp) "hunter2"))
       Example.alice_unlocked).2
  = <["s2" := {| row_owner_id := "alice"; row_title := "wifi";
                 row_ciphertext := "Y2lwaGVy"; row_nonce := "bm9uY2U=" |}]>
      (secrets Example.alice_unlocked).
Proof.
  destruct (create_stores_what_the_kms_returned Example.obliging_kms "dev_secret"
              (Example.request_of "alice"
                 (Example.create_doc (Scenario.nbsp +:+ " wifi" +:+ Scenario.nbsp)
                    "hunter2"))
              Example.alice_unlocked
              (CreateRoute.POST Example.obliging_kms "dev_secret"
                 (Example.request_of "alice"
                    (Example.create_doc (Scenario.nbsp +:+ " wifi" +:+ Scenario.nbsp)
                       "hunter2"))
                 Example.alice_unlocked).2
              success)
    as [userId [title [message [status [encrypted
         [Haccepts [Hanswer [_ [_ Hsecrets]]]]]]]]].
  - vm_compute. reflexivity.
  - reflexivity.
  - read_accepted Haccepts. vm_compute in Hanswer. inversion Hanswer; subst.
    rewrite Hsecrets. vm_compute. reflexivity.
Defined.

(** X12. The create route always answers, never touches [sessions], and is
    all-or-nothing on [secrets]: an answer that is not a success leaves the
    table as it was, also when the KMS had already encrypted.  The KMS is
    reached at most once, and only by a request that was let through, with
    that request's owner and plaintext. *)
Theorem create_fails_without_storing {K} (kms : KmsServer K)
    (FISH_KMS_API_KEY : string) (request : Request) (w : World K) :
  exists res w',
    CreateRoute.POST kms FISH_KMS_API_KEY request w = (Normal res, w') /\
    sessions w' = sessions w /\
    (res_ok res = false -> secrets w' = secrets w) /\
    (kms_log w' = kms_log w \/
     exists userId title message,
       create_accepts request w userId title message /\
       kms_log w' = (kms_log w ++ [CallEncrypt userId message])%list).
Proof.
  destruct (create_POST_validation kms FISH_KMS_API_KEY request w)
    as [[userId [title [message Haccepts]]] | [res0 [Hrun0 Hfail]]].
  2:{ exists res0, w. split; [exact Hrun0|]. auto. }
  rewrite (create_POST_accepted kms FISH_KMS_API_KEY request w userId title message
             Haccepts).
  cbv zeta.
  assert (Hcalled : forall log : list KmsCall,
            log = (kms_log w ++ [CallEncrypt userId message])%list ->
            log = kms_log w \/
            exists u t m,
              create_accepts request w u t m /\
              log = (kms_log w ++ [CallEncrypt u m])%list).
  { intros log Hlog. right. exists userId, title, message. auto. }
  destruct (serve_encrypt kms FISH_KMS_API_KEY userId message (kms_state w)).1
    as [e | status b].
  { do 2 eexists. split; [reflexivity|]. simpl. split; [reflexivity|].
    split; [reflexivity|]. apply Hcalled. reflexivity. }
  destruct (FishKms.response_ok status).
  2:{ do 2 eexists. split; [reflexivity|]. simpl. split; [reflexivity|].
      split; [reflexivity|]. apply Hcalled. reflexivity. }
  destruct b as [encrypted|].
  2:{ do 2 eexists. split; [reflexivity|]. simpl. split; [reflexivity|].
      split; [reflexivity|]. apply Hcalled. reflexivity. }
  destruct (db_fault w InsertSecret).
  { do 2 eexists. split; [reflexivity|]. simpl. split; [reflexivity|].
    split; [reflexivity|]. apply Hcalled. reflexivity. }
  destruct (secrets w !! new_uuid w).
  { do 2 eexists. split; [reflexivity|]. simpl. split; [reflexivity|].
    split; [reflexivity|]. apply Hcalled. reflexivity. }
  do 2 eexists. split; [reflexivity|]. simpl. split; [reflexivity|].
  split; [discriminate|]. apply Hcalled. reflexivity.
Qed.

(** The store refuses the insert after the KMS has encrypted. *)
Lemma create_fails_without_storing_witness :
  exists res w',
    CreateRoute.POST Example.obliging_kms "dev_secret"
      (Example.request_of "alice" (Example.create_doc "wifi" "hunter2"))
      (set_db_fault (fun op => match op with InsertSecret => Some "disk full" | _ => None end)
         Example.alice_unlocked) = (Normal res, w') /\
    res_ok res = false /\
    secrets w' = secrets Example.alice_unlocked /\
    kms_log w' = [CallEncrypt "alice" "hunter2"].
Proof.
  destruct (create_fails_without_storing Example.obliging_kms "dev_secret"
              (Example.request_of "alice" (Example.create_doc "wifi" "hunter2"))
              (set_db_fault
                 (fun op => match op with InsertSecret => Some "disk full" | _ => None end)
                 Example.alice_unlocked))
    as [res [w' [Hrun [_ [Hfail _]]]]].
  exists res, w'. split; [exact Hrun|].
  assert (Hvalue : (Normal res, w') =
            (Normal (failure "Failed to save secret" 500),
             set_kms tt (CallEncrypt "alice" "hunter2")
               (set_db_fault
                  (fun op => match op with InsertSecret => Some "disk full" | _ => None end)
                  Example.alice_unlocked))).
  { rewrite <- Hrun. vm_compute. reflexivity. }
  inversion Hvalue; subst. split; [reflexivity|]. split; reflexivity.
Defined.

(** ** The decrypt route, further *)

Section DecryptOutcome.
Context {K : Type} (kms : KmsServer K) (FISH_KMS_API_KEY : string).

Lemma decrypt_POST_validation (request : Request) (w : World K) :
  (exists userId secretId row, decrypt_accepts request w userId secretId row) \/
  (exists res,
     DecryptRoute.POST kms FISH_KMS_API_KEY request w = (Normal res, w) /\
     res_ok res = false /\ res_plaintext res = None).
Proof.
  unfold DecryptRoute.POST, try_catch, bind at 1.
  destruct (Auth.getUserId request) as [userId|] eqn:Hauth.
  2:{ right. eexists. repeat split. }
  unfold bind at 1.
  destruct (checkUnlocked_run w userId) as [b [Hb _]]. rewrite Hb.
  destruct b; simpl.
  2:{ right. eexists. repeat split. }
  unfold request_json, bind at 1.
  destruct (body request) as [doc|] eqn:Hbody; simpl.
  2:{ right. eexists. repeat split. }
  unfold destructure1, bind at 1.
  destruct (Js.prop doc "secretId") as [secretId|] eqn:Hprop; simpl.
  2:{ right. eexists. repeat split. }
  destruct (negb (Js.truthy secretId) || negb (String.eqb (Js.typeof secretId) "string"))
    eqn:Hcheck.
  { right. eexists. repeat split. }
  destruct (nonempty_string_inv secretId Hcheck) as [sid [-> Hsid]].
  unfold bind at 1, DecryptRoute.select_secret. simpl.
  destruct (db_fault w SelectSecret) eqn:Hfault; simpl.
  { right. eexists. repeat split. }
  destruct (secrets w !! sid) as [row|] eqn:Hrow; simpl.
  2:{ right. eexists. repeat split. }
  destruct (String.eqb (row_owner_id row) userId) eqn:Howner; simpl.
  2:{ right. eexists. repeat split. }
  left. exists userId, sid, row. unfold decrypt_accepts.
  apply String.eqb_eq in Howner.
  split; [exact Hauth|]. split; [exact Hb|]. split; [exists doc; auto|]. auto.
Qed.

Lemma decrypt_POST_accepted (request : Request) (w : World K)
    (userId secretId : string) (row : SecretRow) :
  decrypt_accepts request w userId secretId row ->
  DecryptRoute.POST kms FISH_KMS_API_KEY request w =
    let answer :=
      serve_decrypt kms FISH_KMS_API_KEY userId (row_ciphertext row) (row_nonce row)
        (kms_state w) in
    let w1 :=
      set_kms answer.2 (CallDecrypt userId (row_ciphertext row) (row_nonce row)) w in
    match answer.1 with
    | NetworkError e => (Normal (failure e 500), w1)
    | HttpResponse status b =>
        if FishKms.response_ok status
        then
          match b with
          | Some decrypted =>
              (Normal {| res_status := 200; res_ok := true; res_error := None;
                         res_plaintext := Some (plaintext decrypted);
                         res_unlockedUntil := None |}, w1)
          | None => (Normal (failure "Unexpected end of JSON input" 500), w1)
          end
        else (Normal (failure ("Decrypt failed: HTTP " +:+ pretty status) 500), w1)
    end.
Proof.
  intros [Hauth [Hopen [[doc [Hbody [Hprop Hsid]]] [Hfault [Hrow Howner]]]]].
  rewrite (decrypt_POST_lookup kms FISH_KMS_API_KEY request userId secretId doc w
             Hauth Hopen Hbody Hprop Hsid).
  unfold try_catch, bind at 1, DecryptRoute.select_secret.
  rewrite Hfault, Hrow. apply String.eqb_eq in Howner. rewrite Howner. simpl.
  unfold bind. rewrite decryptSecret_run. simpl.
  destruct (serve_decrypt kms FISH_KMS_API_KEY userId (row_ciphertext row)
              (row_nonce row) (kms_state w)) as [answer k].
  simpl. destruct answer as [e | status b]; simpl; [reflexivity|].
  destruct (FishKms.response_ok status); simpl; [|reflexivity].
  destruct b; reflexivity.
Qed.

End DecryptOutcome.

(** X13. The decrypt route only reads: whatever the request and the answer,
    the [sessions] and [secrets] tables are as they were.  A plaintext is
    returned only with a success, and it is then the plaintext the KMS
    answered for the ciphertext and nonce of a stored row that carries the
    requesting owner's id. *)
Theorem decrypt_reads_and_relays {K} (kms : KmsServer K) (FISH_KMS_API_KEY : string)
    (request : Request) (w : World K) :
  exists res w',
    DecryptRoute.POST kms FISH_KMS_API_KEY request w = (Normal res, w') /\
    sessions w' = sessions w /\ secrets w' = secrets w /\
    (res_ok res = false -> res_plaintext res = None) /\
    (res_ok res = true ->
       exists userId secretId row status decrypted,
         decrypt_accepts request w userId secretId row /\
         (serve_decrypt kms FISH_KMS_API_KEY userId (row_ciphertext row)
            (row_nonce row) (kms_state w)).1 = HttpResponse status (Some decrypted) /\
         FishKms.response_ok status = true /\
         res_plaintext res = Some (plaintext decrypted)).
Proof.
  destruct (decrypt_POST_validation kms FISH_KMS_API_KEY request w)
    as [[userId [secretId [row Haccepts]]] | [res0 [Hrun0 [Hfail Hplain]]]].
  2:{ exists res0, w. split; [exact Hrun0|]. split; [reflexivity|].
      split; [reflexivity|]. split; [auto|]. congruence. }
  rewrite (decrypt_POST_accepted kms FISH_KMS_API_KEY request w userId secretId row
             Haccepts).
  cbv zeta.
  destruct (serve_decrypt kms FISH_KMS_API_KEY userId (row_ciphertext row)
              (row_nonce row) (kms_state w)).1 as [e | status b] eqn:Hanswer.
  { do 2 eexists. split; [reflexivity|]. simpl. repeat split. discriminate. }
  destruct (FishKms.response_ok status) eqn:Hstatus.
  2:{ do 2 eexists. split; [reflexivity|]. simpl. repeat split. discriminate. }
  destruct b as [decrypted|].
  2:{ do 2 eexists. split; [reflexivity|]. simpl. repeat split. discriminate. }
  do 2 eexists. split; [reflexivity|]. simpl.
  split; [reflexivity|]. split; [reflexivity|]. split; [discriminate|].
  intros _. exists userId, secretId, row, status, decrypted. auto.
Qed.

(** X14. A refusal of the KMS comes out of both routes as status 500 with
    the KMS status in the message: when a request was let through and the
    KMS answers with a status outside 200 to 299, the create route answers
    500 "Encrypt failed: HTTP <status>" and the decrypt route 500 "Decrypt
    failed: HTTP <status>".  In particular a KMS that considers the owner
    locked (403) is reported as 500, not as the 403 of the route's own
    gate. *)
Theorem kms_refusal_is_answered_500 {K} (kms : KmsServer K) (FISH_KMS_API_KEY : string)
    (request : Request) (w : World K) (userId : string) :
  (forall title message status b,
     create_accepts request w userId title message ->
     (serve_encrypt kms FISH_KMS_API_KEY userId message (kms_state w)).1
       = HttpResponse status b ->
     FishKms.response_ok status = false ->
     (CreateRoute.POST kms FISH_KMS_API_KEY request w).1
       = Normal (failure ("Encrypt failed: HTTP " +:+ pretty status) 500)) /\
  (forall secretId row status b,
     decrypt_accepts request w userId secretId row ->
     (serve_decrypt kms FISH_KMS_API_KEY userId (row_ciphertext row) (row_nonce row)
        (kms_state w)).1 = HttpResponse status b ->
     FishKms.response_ok status = false ->
     (DecryptRoute.POST kms FISH_KMS_API_KEY request w).1
       = Normal (failure ("Decrypt failed: HTTP " +:+ pretty status) 500)).
Proof.
  split.
  - intros title message status b Haccepts Hanswer Hstatus.
    rewrite (create_POST_accepted kms FISH_KMS_API_KEY request w userId title message
               Haccepts).
    cbv zeta. rewrite Hanswer, Hstatus. reflexivity.
  - intros secretId row status b Haccepts Hanswer Hstatus.
    rewrite (decrypt_POST_accepted kms FISH_KMS_API_KEY request w userId secretId row
               Haccepts).
    cbv zeta. rewrite Hanswer, Hstatus. reflexivity.
Qed.

(** Alice, unlocked, asks for her own secret. *)
Lemma decrypt_reads_and_relays_witness :
  exists res w',
    DecryptRoute.POST Example.obliging_kms "dev_secret"
      (Example.request_of "alice" (Example.decrypt_doc "a1")) Scenario.both_unlocked
    = (Normal res, w') /\
    secrets w' = secrets Scenario.both_unlocked /\
    res_plaintext res = Some "secret123".
Proof.
  destruct (decrypt_reads_and_relays Example.obliging_kms "dev_secret"
              (Example.request_of "alice" (Example.decrypt_doc "a1"))
              Scenario.both_unlocked)
    as [res [w' [Hrun [_ [Hsecrets _]]]]].
  exists res, w'. split; [exact Hrun|]. split; [exact Hsecrets|].
  assert (Hvalue : (Normal res, w') =
            DecryptRoute.POST Example.obliging_kms "dev_secret"
              (Example.request_of "alice" (Example.decrypt_doc "a1"))
              Scenario.both_unlocked) by (symmetry; exact Hrun).
  vm_compute in Hvalue. inversion Hvalue. reflexivity.
Defined.

(** The route finds Alice unlocked, the KMS does not. *)
Lemma kms_refusal_is_answered_500_witness :
  (DecryptRoute.POST Scenario.kms_locked "dev_secret"
     (Example.request_of "alice" (Example.decrypt_doc "a1")) Scenario.both_unlocked).1
  = Normal (failure "Decrypt failed: HTTP 403" 500).
Proof.
  apply (proj2 (kms_refusal_is_answered_500 Scenario.kms_locked "dev_secret"
                  (Example.request_of "alice" (Example.decrypt_doc "a1"))
                  Scenario.both_unlocked "alice")
           "a1" Scenario.alices_secret 403 None).
  - unfold decrypt_accepts. split; [reflexivity|]. split; [reflexivity|].
    split; [|repeat split].
    exists (Example.decrypt_doc "a1"). split; [reflexivity|].
    split; [reflexivity | discriminate].
  - reflexivity.
  - reflexivity.
Defined.

(** X15. Create and decrypt composed.  After a create by an owner that
    answered with a success, while the store is readable: the KMS had
    answered the encryption of the request's plaintext with a ciphertext and
    a nonce, and a decrypt request of the same owner naming the new secret
    sends the KMS exactly this ciphertext and this nonce; a decrypt request
    of any other owner naming it is answered with a failure, returns no
    plaintext and leaves the world untouched, so the KMS is not asked. *)
Theorem create_then_decrypt {K} (kms : KmsServer K) (FISH_KMS_API_KEY : string)
    (request : Request) (w w' : World K) (res : ApiResponse) :
  CreateRoute.POST kms FISH_KMS_API_KEY request w = (Normal res, w') ->
  res_ok res = true ->
  db_fault w SelectSecret = None ->
  new_uuid w <> "" ->
  exists userId title message status encrypted,
    create_accepts request w userId title message /\
    (serve_encrypt kms FISH_KMS_API_KEY userId message (kms_state w)).1
      = HttpResponse status (Some encrypted) /\
    (forall request' doc,
       Auth.getUserId request' = Some userId ->
       body request' = Some doc ->
       Js.prop doc "secretId" = Some (Some (Js.JStr (new_uuid w))) ->
       kms_log (DecryptRoute.POST kms FISH_KMS_API_KEY request' w').2
       = (kms_log w' ++
          [CallDecrypt userId (ciphertext encrypted) (nonce encrypted)])%list) /\
    (forall request' doc other,
       other <> userId ->
       Auth.getUserId request' = Some other ->
       body request' = Some doc ->
       Js.prop doc "secretId" = Some (Some (Js.JStr (new_uuid w))) ->
       exists res',
         DecryptRoute.POST kms FISH_KMS_API_KEY request' w' = (Normal res', w') /\
         res_ok res' = false /\ res_plaintext res' = None).
Proof.
  intros Hrun Hok Hread Hid.
  destruct (create_POST_success kms FISH_KMS_API_KEY request w w' res Hrun Hok)
    as [userId [title [message [status [encrypted
         [Haccepts [Hanswer [Hlog [Hfree Hsecrets]]]]]]]]].
  pose proof Haccepts as [Hauth [Hopen _]].
  assert (Hw' : sessions w' = sessions w /\ now w' = now w /\ db_fault w' = db_fault w).
  { destruct (create_POST_validation kms FISH_KMS_API_KEY request w)
      as [[u [t [m Hacc]]] | [res0 [Hrun0 Hfail]]].
    - rewrite (create_POST_accepted kms FISH_KMS_API_KEY request w u t m Hacc) in Hrun.
      cbv zeta in Hrun.
      destruct (serve_encrypt kms FISH_KMS_API_KEY u m (kms_state w)).1 as [e | s b];
        [inversion Hrun; subst; auto|].
      destruct (FishKms.response_ok s); [|inversion Hrun; subst; auto].
      destruct b; [|inversion Hrun; subst; auto].
      destruct (db_fault w InsertSecret); [inversion Hrun; subst; auto|].
      destruct (secrets w !! new_uuid w); inversion Hrun; subst; auto.
    - rewrite Hrun0 in Hrun. inversion Hrun; subst. auto. }
  destruct Hw' as [Hsessions [Hnow Hfault]].
  assert (Hrow : secrets w' !! new_uuid w
                 = Some {| row_owner_id := userId; row_title := Js.trim title;
                           row_ciphertext := ciphertext encrypted;
                           row_nonce := nonce encrypted |}).
  { rewrite Hsecrets. apply lookup_insert_eq. }
  assert (Hopen' : Session.checkUnlocked userId w' = (Normal true, w')).
  { rewrite checkUnlocked_value. rewrite checkUnlocked_value in Hopen.
    rewrite Hsessions, Hnow, Hfault. inversion Hopen as [Hvalue].
    rewrite Hvalue. reflexivity. }
  exists userId, title, message, status, encrypted.
  split; [exact Haccepts|]. split; [exact Hanswer|]. split.
  - intros request' doc Hauth' Hbody Hprop.
    rewrite (decrypt_POST_accepted kms FISH_KMS_API_KEY request' w' userId (new_uuid w)
               {| row_owner_id := userId; row_title := Js.trim title;
                  row_ciphertext := ciphertext encrypted;
                  row_nonce := nonce encrypted |}).
    + cbv zeta. simpl.
      destruct (serve_decrypt kms FISH_KMS_API_KEY userId (ciphertext encrypted)
                  (nonce encrypted) (kms_state w')).1 as [e | s b]; [reflexivity|].
      destruct (FishKms.response_ok s); [|reflexivity].
      destruct b; reflexivity.
    + unfold decrypt_accepts. split; [exact Hauth'|]. split; [exact Hopen'|].
      split; [exists doc; auto|]. split; [congruence|]. split; [exact Hrow | reflexivity].
  - intros request' doc other Hother Hauth' Hbody Hprop.
    destruct (decrypt_POST_validation kms FISH_KMS_API_KEY request' w')
      as [[u [sid [row Hacc]]] | [res' Hres']].
    + exfalso. destruct Hacc as [Hu [_ [[doc' [Hbody' [Hprop' _]]] [_ [Hrow' Howner]]]]].
      assert (Hu' : u = other) by congruence.
      assert (Hdoc : doc' = doc) by congruence.
      rewrite Hdoc in Hprop'.
      assert (Hsid : sid = new_uuid w) by congruence.
      rewrite Hsid, Hrow in Hrow'. injection Hrow' as Hsame.
      rewrite <- Hsame in Howner. simpl in Howner. congruence.
    + exists res'. exact Hres'.
Qed.

(** Alice stores a secret; her own decrypt request sends the KMS what it
    had returned: after both, the log holds the two calls. *)
Lemma create_then_decrypt_witness :
  kms_log
    (DecryptRoute.POST Example.obliging_kms "dev_secret"
       (Example.request_of "alice" (Example.decrypt_doc "n1"))
       (CreateRoute.POST Example.obliging_kms "dev_secret"
          (Example.request_of "alice" (Example.create_doc "wifi" "hunter2"))
          Scenario.both_unlocked).2).2
  = [CallEncrypt "alice" "hunter2"; CallDecrypt "alice" "Y2lwaGVy" "bm9uY2U="].
Proof.
  destruct (create_then_decrypt Example.obliging_kms "dev_secret"
              (Example.request_of "alice" (Example.create_doc "wifi" "hunter2"))
              Scenario.both_unlocked
              (CreateRoute.POST Example.obliging_kms "dev_secret"
                 (Example.request_of "alice" (Example.create_doc "wifi" "hunter2"))
                 Scenario.both_unlocked).2
              success)
    as [userId [title [message [status [encrypted [Haccepts [Hanswer [Hown _]]]]]]]].
  - vm_compute. reflexivity.
  - reflexivity.
  - reflexivity.
  - discriminate.
  - read_accepted Haccepts. vm_compute in Hanswer. inversion Hanswer; subst.
    rewrite (Hown (Example.request_of "alice" (Example.decrypt_doc "n1"))
               (Example.decrypt_doc "n1") eq_refl eq_refl eq_refl).
    reflexivity.
Defined.

(** ** The list route *)

#[local] Instance newer_first_total : Total ListRoute.newer_first.
Proof. intros a b. unfold ListRoute.newer_first. lia. Qed.

Section ListFacts.
Context {K : Type}.
Variable created_at : string -> Z.

(** The rows the query returns, before they are ordered. *)
Lemma owned_rows_elem (userId : string) (w : World K) (s : ListRoute.SecretSummary) :
  s ∈ ListRoute.summary created_at <$>
        filter (ListRoute.owned_by userId) (map_to_list (secrets w))
  <-> exists row,
        secrets w !! ListRoute.sum_id s = Some row /\
        row_owner_id row = userId /\
        ListRoute.sum_title s = row_title row /\
        ListRoute.sum_created_at s = created_at (ListRoute.sum_id s).
Proof.
  rewrite list_elem_of_fmap. split.
  - intros [[id row] [-> Hin]]. apply list_elem_of_filter in Hin.
    destruct Hin as [Howned Hin]. apply elem_of_map_to_list in Hin.
    exists row. simpl. auto.
  - intros [row [Hrow [Howner [Htitle Hcreated]]]].
    exists (ListRoute.sum_id s, row). split.
    + destruct s as [id title created]. simpl in *. unfold ListRoute.summary. simpl.
      congruence.
    + apply list_elem_of_filter. split; [exact Howner|].
      apply elem_of_map_to_list. exact Hrow.
Qed.

Lemma owned_rows_NoDup (userId : string) (w : World K) :
  NoDup (ListRoute.sum_id <$>
           (ListRoute.summary created_at <$>
              filter (ListRoute.owned_by userId) (map_to_list (secrets w)))).
Proof.
  rewrite <- list_fmap_compose.
  replace (ListRoute.sum_id ∘ ListRoute.summary created_at <$>
             filter (ListRoute.owned_by userId) (map_to_list (secrets w)))
    with ((filter (ListRoute.owned_by userId) (map_to_list (secrets w))).*1)
    by (apply list_fmap_ext; intros i [id row] _; reflexivity).
  apply (sublist_NoDup _ ((map_to_list (secrets w)).*1));
    [apply NoDup_fst_map_to_list|].
  apply (fmap_sublist fst). apply sublist_filter.
Qed.

Lemma list_GET_run (request : Request) (userId : string) (w : World K) :
  Auth.getUserId request = Some userId ->
  ListRoute.GET created_at request w =
    (Normal
       match db_fault w SelectSecret with
       | Some _ => ListRoute.list_failure "Failed to fetch secrets" 500
       | None =>
           {| ListRoute.list_status := 200; ListRoute.list_ok := true;
              ListRoute.list_error := None;
              ListRoute.list_secrets :=
                merge_sort ListRoute.newer_first
                  (ListRoute.summary created_at <$>
                     filter (ListRoute.owned_by userId) (map_to_list (secrets w))) |}
       end, w).
Proof.
  intros Hauth. unfold ListRoute.GET, try_catch, bind, ListRoute.select_secrets.
  rewrite Hauth. destruct (db_fault w SelectSecret); reflexivity.
Qed.

End ListFacts.

(** X16. The list route shows an owner that owner's secrets and nothing
    else.  While [secrets] is readable, the answer is 200 with one entry for
    each row that carries the owner's id, giving its id, title and creation
    time, no id twice, later rows first; no row of another owner appears;
    and the world is untouched.  When the table cannot be read the answer is
    500 "Failed to fetch secrets" with no entries. *)
Theorem list_shows_the_owners_secrets {K} (created_at : string -> Z)
    (request : Request) (userId : string) (w : World K) :
  Auth.getUserId request = Some userId ->
  exists res,
    ListRoute.GET created_at request w = (Normal res, w) /\
    (db_fault w SelectSecret = None ->
       ListRoute.list_status res = 200 /\ ListRoute.list_ok res = true /\
       (forall s,
          s ∈ ListRoute.list_secrets res <->
          exists row,
            secrets w !! ListRoute.sum_id s = Some row /\
            row_owner_id row = userId /\
            ListRoute.sum_title s = row_title row /\
            ListRoute.sum_created_at s = created_at (ListRoute.sum_id s)) /\
       NoDup (ListRoute.sum_id <$> ListRoute.list_secrets res) /\
       Sorted ListRoute.newer_first (ListRoute.list_secrets res)) /\
    (is_Some (db_fault w SelectSecret) ->
       res = ListRoute.list_failure "Failed to fetch secrets" 500).
Proof.
  intros Hauth. eexists. split; [apply (list_GET_run created_at request userId w Hauth)|].
  split.
  - intros Hread. rewrite Hread. simpl. split; [reflexivity|]. split; [reflexivity|].
    split; [|split].
    + intros s. rewrite merge_sort_Permutation. apply owned_rows_elem.
    + rewrite merge_sort_Permutation. apply owned_rows_NoDup.
    + apply (Sorted_merge_sort ListRoute.newer_first).
  - intros [e He]. rewrite He. reflexivity.
Qed.

(** Alice sees [a1] and not Bob's [s1]. *)
Lemma list_shows_the_owners_secrets_witness :
  exists res,
    ListRoute.GET Scenario.created_at (Example.request_of "alice" Js.JNull)
      Scenario.both_unlocked = (Normal res, Scenario.both_unlocked) /\
    ListRoute.sum_id <$> ListRoute.list_secrets res = ["a1"].
Proof.
  destruct (list_shows_the_owners_secrets Scenario.created_at
              (Example.request_of "alice" Js.JNull) "alice" Scenario.both_unlocked
              eq_refl)
    as [res [Hrun _]].
  exists res. split; [exact Hrun|].
  assert (Hvalue : (Normal res, Scenario.both_unlocked) =
            ListRoute.GET Scenario.created_at (Example.request_of "alice" Js.JNull)
              Scenario.both_unlocked) by (symmetry; exact Hrun).
  vm_compute in Hvalue. inversion Hvalue. reflexivity.
Defined.

Lemma create_POST_frame {K} (kms : KmsServer K) (FISH_KMS_API_KEY : string)
    (request : Request) (w w' : World K) (res : ApiResponse) :
  CreateRoute.POST kms FISH_KMS_API_KEY request w = (Normal res, w') ->
  sessions w' = sessions w /\ now w' = now w /\ db_fault w' = db_fault w.
Proof.
  intros Hrun.
  destruct (create_POST_validation kms FISH_KMS_API_KEY request w)
    as [[u [t [m Hacc]]] | [res0 [Hrun0 Hfail]]].
  - rewrite (create_POST_accepted kms FISH_KMS_API_KEY request w u t m Hacc) in Hrun.
    cbv zeta in Hrun.
    destruct (serve_encrypt kms FISH_KMS_API_KEY u m (kms_state w)).1 as [e | s b];
      [inversion Hrun; subst; auto|].
    destruct (FishKms.response_ok s); [|inversion Hrun; subst; auto].
    destruct b; [|inversion Hrun; subst; auto].
    destruct (db_fault w InsertSecret); [inversion Hrun; subst; auto|].
    destruct (secrets w !! new_uuid w); inversion Hrun; subst; auto.
  - rewrite Hrun0 in Hrun. inversion Hrun; subst. auto.
Qed.

(** X17. Create and list composed.  After a create that answered with a
    success, while [secrets] is readable, the list of the creating owner is
    the list from before plus one entry, the new id with the title of the
    request, trimmed, and the list of every other owner has the same entries
    as before. *)
Theorem create_then_list {K} (kms : KmsServer K) (FISH_KMS_API_KEY : string)
    (created_at : string -> Z) (request : Request) (w w' : World K)
    (res : ApiResponse) :
  CreateRoute.POST kms FISH_KMS_API_KEY request w = (Normal res, w') ->
  res_ok res = true ->
  db_fault w SelectSecret = None ->
  exists userId title message,
    create_accepts request w userId title message /\
    forall request' viewer,
      Auth.getUserId request' = Some viewer ->
      exists before after,
        ListRoute.GET created_at request' w = (Normal before, w) /\
        ListRoute.GET created_at request' w' = (Normal after, w') /\
        forall s,
          s ∈ ListRoute.list_secrets after <->
          s ∈ ListRoute.list_secrets before \/
          (viewer = userId /\
           s = {| ListRoute.sum_id := new_uuid w;
                  ListRoute.sum_title := Js.trim title;
                  ListRoute.sum_created_at := created_at (new_uuid w) |}).
Proof.
  intros Hrun Hok Hread.
  destruct (create_POST_success kms FISH_KMS_API_KEY request w w' res Hrun Hok)
    as [userId [title [message [status [encrypted
         [Haccepts [_ [_ [Hfree Hsecrets]]]]]]]]].
  destruct (create_POST_frame kms FISH_KMS_API_KEY request w w' res Hrun)
    as [_ [_ Hfault]].
  exists userId, title, message. split; [exact Haccepts|].
  intros request' viewer Hviewer. do 2 eexists.
  split; [apply (list_GET_run created_at request' viewer w Hviewer)|].
  split; [apply (list_GET_run created_at request' viewer w' Hviewer)|].
  rewrite Hfault, Hread. simpl. intros s.
  rewrite !merge_sort_Permutation, !owned_rows_elem. rewrite Hsecrets. split.
  - intros [row [Hrow [Howner [Htitle Hcreated]]]].
    destruct (decide (ListRoute.sum_id s = new_uuid w)) as [Hid | Hid].
    + right. rewrite Hid, lookup_insert_eq in Hrow. inversion Hrow; subst row.
      simpl in *. split; [congruence|].
      destruct s as [id t c]. simpl in *. congruence.
    + left. rewrite lookup_insert_ne in Hrow by congruence. exists row. auto.
  - intros [[row [Hrow [Howner [Htitle Hcreated]]]] | [Hsame ->]].
    + exists row. split; [|auto].
      rewrite lookup_insert_ne; [exact Hrow|]. congruence.
    + simpl. eexists. split; [apply lookup_insert_eq|]. simpl. auto.
Qed.

(** Alice stores a secret under " wifi" followed by a no-break space; her
    list gains the entry [n1] with the title "wifi". *)
Lemma create_then_list_witness :
  exists before after,
    ListRoute.GET Scenario.created_at (Example.request_of "alice" Js.JNull)
      Scenario.both_unlocked = (Normal before, Scenario.both_unlocked) /\
    ListRoute.GET Scenario.created_at (Example.request_of "alice" Js.JNull)
      (CreateRoute.POST Example.obliging_kms "dev_secret"
         (Example.request_of "alice"
            (Example.create_doc (" wifi" +:+ Scenario.nbsp) "hunter2"))
         Scenario.both_unlocked).2
    = (Normal after,
       (CreateRoute.POST Example.obliging_kms "dev_secret"
          (Example.request_of "alice"
             (Example.create_doc (" wifi" +:+ Scenario.nbsp) "hunter2"))
          Scenario.both_unlocked).2) /\
    forall s,
      s ∈ ListRoute.list_secrets after <->
      s ∈ ListRoute.list_secrets before \/
      s = {| ListRoute.sum_id := "n1"; ListRoute.sum_title := "wifi";
             ListRoute.sum_created_at := 900 |}.
Proof.
  destruct (create_then_list Example.obliging_kms "dev_secret" Scenario.created_at
              (Example.request_of "alice"
                 (Example.create_doc (" wifi" +:+ Scenario.nbsp) "hunter2"))
              Scenario.both_unlocked
              (CreateRoute.POST Example.obliging_kms "dev_secret"
                 (Example.request_of "alice"
                    (Example.create_doc (" wifi" +:+ Scenario.nbsp) "hunter2"))
                 Scenario.both_unlocked).2
              success)
    as [userId [title [message [Haccepts Hlists]]]].
  - vm_compute. reflexivity.
  - reflexivity.
  - reflexivity.
  - read_accepted Haccepts.
    destruct (Hlists (Example.request_of "alice" Js.JNull) "alice" eq_refl)
      as [before [after [Hbefore [Hafter Hiff]]]].
    exists before, after. split; [exact Hbefore|]. split; [exact Hafter|].
    intros s. rewrite (Hiff s). split.
    + intros [Hold | [_ Hnew]]; [left; exact Hold | right; exact Hnew].
    + intros [Hold | Hnew]; [left; exact Hold | right; split; [reflexivity | exact Hnew]].
Defined.

(** ** Login and the cookie *)

Section LoginFacts.
Variable toLowerCase : string -> string.
Variable NODE_ENV : string.

#[local] Abbreviation login := (LoginRoute.POST toLowerCase NODE_ENV).
#[local] Abbreviation norm := (LoginRoute.normalized toLowerCase).

(** A login that gives an email: look the user up, create it if the lookup
    gave nothing, set the cookie. *)
Lemma login_POST_run (request : Request) (email : string) (st : LoginRoute.State) :
  gives_email request email ->
  login request st =
    match LoginRoute.users_fault st LoginRoute.SelectUser,
          LoginRoute.users st !! norm email with
    | None, Some userId =>
        (success,
         LoginRoute.set_jar (Cookies.setUserId NODE_ENV userId (LoginRoute.jar st)) st)
    | _, _ =>
        match LoginRoute.users_fault st LoginRoute.InsertUser,
              LoginRoute.users st !! norm email,
              LoginRoute.id_in_use (LoginRoute.next_user_id st) (LoginRoute.users st) with
        | None, None, false =>
            (success,
             LoginRoute.set_jar
               (Cookies.setUserId NODE_ENV (LoginRoute.next_user_id st)
                  (LoginRoute.jar st))
               (LoginRoute.set_users (<[norm email := LoginRoute.next_user_id st]>) st))
        | _, _, _ => (failure "Failed to create user" 500, st)
        end
    end.
Proof.
  intros [doc [Hbody [Hprop Hne]]].
  unfold LoginRoute.POST. rewrite Hbody, Hprop. simpl.
  apply String.eqb_neq in Hne. rewrite Hne. simpl.
  unfold LoginRoute.select_user, LoginRoute.insert_user.
  destruct (LoginRoute.users_fault st LoginRoute.SelectUser) as [e|]; simpl.
  - destruct (LoginRoute.users_fault st LoginRoute.InsertUser); simpl; [reflexivity|].
    destruct (LoginRoute.users st !! norm email); simpl; [reflexivity|].
    destruct (LoginRoute.id_in_use _ _); reflexivity.
  - destruct (LoginRoute.users st !! norm email) as [userId|]; simpl; [reflexivity|].
    destruct (LoginRoute.users_fault st LoginRoute.InsertUser); simpl; [reflexivity|].
    destruct (LoginRoute.id_in_use _ _); reflexivity.
Qed.

(** Without a usable email the login is refused and nothing changes. *)
Lemma login_POST_refused (request : Request) (st : LoginRoute.State) :
  (exists email, gives_email request email) \/
  (exists res, login request st = (res, st) /\ res_ok res = false).
Proof.
  unfold LoginRoute.POST.
  destruct (body request) as [doc|] eqn:Hbody.
  2:{ right. eexists. split; reflexivity. }
  destruct (Js.prop doc "email") as [email|] eqn:Hprop.
  2:{ right. eexists. split; reflexivity. }
  destruct (negb (Js.truthy email) || negb (String.eqb (Js.typeof email) "string"))
    eqn:Hcheck.
  { right. eexists. split; reflexivity. }
  left. destruct (nonempty_string_inv email Hcheck) as [e [-> He]].
  exists e, doc. auto.
Qed.

Lemma id_in_use_false (id : string) (table : gmap string string) :
  LoginRoute.id_in_use id table = false ->
  forall email, table !! email <> Some id.
Proof.
  unfold LoginRoute.id_in_use. intros Hfree email Hrow.
  apply bool_decide_eq_false in Hfree. apply Hfree.
  exists email, id. auto.
Qed.

End LoginFacts.

(** X18. A login either changes nothing or signs the browser in as a stored
    user.  An answer that is not a success leaves the [users] table and the
    cookie exactly as they were.  After a success the request had given a
    non-empty email, the cookie holds the id under which the lower-cased and
    trimmed email is stored, and the table is the old one, or the old one
    plus that single user under an id no user had. *)
Theorem login_signs_in_a_stored_user (toLowerCase : string -> string)
    (NODE_ENV : string) (request : Request) (st : LoginRoute.State) :
  (res_ok (LoginRoute.POST toLowerCase NODE_ENV request st).1 = false ->
     (LoginRoute.POST toLowerCase NODE_ENV request st).2 = st) /\
  (res_ok (LoginRoute.POST toLowerCase NODE_ENV request st).1 = true ->
     exists email userId,
       gives_email request email /\
       LoginRoute.users (LoginRoute.POST toLowerCase NODE_ENV request st).2
         !! LoginRoute.normalized toLowerCase email = Some userId /\
       Cookies.cookie_value <$>
         LoginRoute.jar (LoginRoute.POST toLowerCase NODE_ENV request st).2
         = Some userId /\
       (LoginRoute.users (LoginRoute.POST toLowerCase NODE_ENV request st).2
          = LoginRoute.users st
        \/
        ((forall other, LoginRoute.users st !! other <> Some userId) /\
         LoginRoute.users st !! LoginRoute.normalized toLowerCase email = None /\
         LoginRoute.users (LoginRoute.POST toLowerCase NODE_ENV request st).2
           = <[LoginRoute.normalized toLowerCase email := userId]>
               (LoginRoute.users st)))).
Proof.
  destruct (login_POST_refused toLowerCase NODE_ENV request st)
    as [[email Hgives] | [res [Hrun Hfail]]].
  2:{ rewrite Hrun. simpl. split; [reflexivity | congruence]. }
  rewrite (login_POST_run toLowerCase NODE_ENV request email st Hgives).
  assert (Hcreate :
    forall P : ApiResponse * LoginRoute.State -> Prop,
      P (failure "Failed to create user" 500, st) ->
      (LoginRoute.users_fault st LoginRoute.InsertUser = None ->
       LoginRoute.users st !! LoginRoute.normalized toLowerCase email = None ->
       LoginRoute.id_in_use (LoginRoute.next_user_id st) (LoginRoute.users st) = false ->
       P (success,
          LoginRoute.set_jar
            (Cookies.setUserId NODE_ENV (LoginRoute.next_user_id st) (LoginRoute.jar st))
            (LoginRoute.set_users
               (<[LoginRoute.normalized toLowerCase email := LoginRoute.next_user_id st]>)
               st))) ->
      P (match LoginRoute.users_fault st LoginRoute.InsertUser,
               LoginRoute.users st !! LoginRoute.normalized toLowerCase email,
               LoginRoute.id_in_use (LoginRoute.next_user_id st) (LoginRoute.users st) with
         | None, None, false =>
             (success,
              LoginRoute.set_jar
                (Cookies.setUserId NODE_ENV (LoginRoute.next_user_id st)
                   (LoginRoute.jar st))
                (LoginRoute.set_users
                   (<[LoginRoute.normalized toLowerCase email :=
                        LoginRoute.next_user_id st]>) st))
         | _, _, _ => (failure "Failed to create user" 500, st)
         end)).
  { intros P Hfail Hsuccess.
    destruct (LoginRoute.users_fault st LoginRoute.InsertUser); [exact Hfail|].
    destruct (LoginRoute.users st !! LoginRoute.normalized toLowerCase email);
      [exact Hfail|].
    destruct (LoginRoute.id_in_use _ _) eqn:Hfree; [exact Hfail|].
    apply Hsuccess; reflexivity. }
  assert (Hnew :
    let out :=
      match LoginRoute.users_fault st LoginRoute.InsertUser,
            LoginRoute.users st !! LoginRoute.normalized toLowerCase email,
            LoginRoute.id_in_use (LoginRoute.next_user_id st) (LoginRoute.users st) with
      | None, None, false =>
          (success,
           LoginRoute.set_jar
             (Cookies.setUserId NODE_ENV (LoginRoute.next_user_id st) (LoginRoute.jar st))
             (LoginRoute.set_users
                (<[LoginRoute.normalized toLowerCase email :=
                     LoginRoute.next_user_id st]>) st))
      | _, _, _ => (failure "Failed to create user" 500, st)
      end in
    (res_ok out.1 = false -> out.2 = st) /\
    (res_ok out.1 = true ->
       exists email0 userId,
         gives_email request email0 /\
         LoginRoute.users out.2 !! LoginRoute.normalized toLowerCase email0
           = Some userId /\
         Cookies.cookie_value <$> LoginRoute.jar out.2 = Some userId /\
         (LoginRoute.users out.2 = LoginRoute.users st \/
          ((forall other, LoginRoute.users st !! other <> Some userId) /\
           LoginRoute.users st !! LoginRoute.normalized toLowerCase email0 = None /\
           LoginRoute.users out.2
             = <[LoginRoute.normalized toLowerCase email0 := userId]>
                 (LoginRoute.users st))))).
  { cbv zeta. apply Hcreate.
    - simpl. split; [reflexivity | discriminate].
    - intros _ Hnone Hfree. simpl. split; [discriminate|]. intros _.
      exists email, (LoginRoute.next_user_id st). split; [exact Hgives|].
      split; [apply lookup_insert_eq|]. split; [reflexivity|]. right.
      split; [apply id_in_use_false; exact Hfree|]. split; [exact Hnone | reflexivity]. }
  cbv zeta in Hnew.
  destruct (LoginRoute.users_fault st LoginRoute.SelectUser); [exact Hnew|].
  destruct (LoginRoute.users st !! LoginRoute.normalized toLowerCase email)
    as [userId|] eqn:Hrow; [|exact Hnew].
  simpl. split; [discriminate|]. intros _.
  exists email, userId. split; [exact Hgives|]. split; [exact Hrow|].
  split; [reflexivity|]. left. reflexivity.
Qed.

(** A new address, written with capitals and a trailing no-break space. *)
Lemma login_signs_in_a_stored_user_witness :
  exists email userId,
    gives_email (Scenario.login_request ("Bob@Example.com" +:+ Scenario.nbsp)) email /\
    LoginRoute.users
      (LoginRoute.POST Scenario.ascii_lower "development"
         (Scenario.login_request ("Bob@Example.com" +:+ Scenario.nbsp)) Scenario.one_user).2
      !! LoginRoute.normalized Scenario.ascii_lower email = Some userId /\
    Cookies.cookie_value <$>
      LoginRoute.jar
        (LoginRoute.POST Scenario.ascii_lower "development"
           (Scenario.login_request ("Bob@Example.com" +:+ Scenario.nbsp)) Scenario.one_user).2
    = Some userId.
Proof.
  destruct (proj2 (login_signs_in_a_stored_user Scenario.ascii_lower "development"
                     (Scenario.login_request ("Bob@Example.com" +:+ Scenario.nbsp)) Scenario.one_user))
    as [email [userId [Hgives [Hrow [Hcookie _]]]]].
  - vm_compute. reflexivity.
  - exists email, userId. auto.
Defined.

(** X19. Login keeps the [users] table sound: whatever the request and the
    answer, every user that was stored is still stored under the same id,
    and if no two emails shared an id before, none do afterwards. *)
Theorem login_keeps_users (toLowerCase : string -> string) (NODE_ENV : string)
    (request : Request) (st : LoginRoute.State) :
  (forall email userId,
     LoginRoute.users st !! email = Some userId ->
     LoginRoute.users (LoginRoute.POST toLowerCase NODE_ENV request st).2 !! email
       = Some userId) /\
  (ids_unique (LoginRoute.users st) ->
   ids_unique (LoginRoute.users (LoginRoute.POST toLowerCase NODE_ENV request st).2)).
Proof.
  destruct (login_POST_refused toLowerCase NODE_ENV request st)
    as [[email Hgives] | [res [Hrun _]]].
  2:{ rewrite Hrun. simpl. auto. }
  rewrite (login_POST_run toLowerCase NODE_ENV request email st Hgives).
  assert (Hinsert :
    LoginRoute.users st !! LoginRoute.normalized toLowerCase email = None ->
    LoginRoute.id_in_use (LoginRoute.next_user_id st) (LoginRoute.users st) = false ->
    (forall e u, LoginRoute.users st !! e = Some u ->
       <[LoginRoute.normalized toLowerCase email := LoginRoute.next_user_id st]>
         (LoginRoute.users st) !! e = Some u) /\
    (ids_unique (LoginRoute.users st) ->
     ids_unique
       (<[LoginRoute.normalized toLowerCase email := LoginRoute.next_user_id st]>
          (LoginRoute.users st)))).
  { intros Hnone Hfree. split.
    - intros e u Hrow. rewrite lookup_insert_ne; [exact Hrow|]. congruence.
    - intros Hunique e1 e2 id H1 H2.
      pose proof (id_in_use_false _ _ Hfree) as Hfresh.
      destruct (decide (e1 = LoginRoute.normalized toLowerCase email)) as [->|Hne1];
        destruct (decide (e2 = LoginRoute.normalized toLowerCase email)) as [->|Hne2];
        try reflexivity.
      + rewrite lookup_insert_eq in H1. rewrite lookup_insert_ne in H2 by congruence.
        exfalso. apply (Hfresh e2). congruence.
      + rewrite lookup_insert_eq in H2. rewrite lookup_insert_ne in H1 by congruence.
        exfalso. apply (Hfresh e1). congruence.
      + rewrite lookup_insert_ne in H1 by congruence.
        rewrite lookup_insert_ne in H2 by congruence.
        exact (Hunique e1 e2 id H1 H2). }
  destruct (LoginRoute.users_fault st LoginRoute.SelectUser);
    [|destruct (LoginRoute.users st !! LoginRoute.normalized toLowerCase email) eqn:Hrow;
      [simpl; auto|]];
    (destruct (LoginRoute.users_fault st LoginRoute.InsertUser); [simpl; auto|]);
    (destruct (LoginRoute.users st !! LoginRoute.normalized toLowerCase email) eqn:Hrow';
       [simpl; auto|]);
    (destruct (LoginRoute.id_in_use _ _) eqn:Hfree; [simpl; auto|]);
    simpl; apply Hinsert; auto.
Qed.

Lemma login_keeps_users_witness :
  LoginRoute.users
    (LoginRoute.POST Scenario.ascii_lower "development"
       (Scenario.login_request "bob@example.com") Scenario.one_user).2
    !! "alice@example.com" = Some "u-alice".
Proof.
  apply (proj1 (login_keeps_users Scenario.ascii_lower "development"
                  (Scenario.login_request "bob@example.com") Scenario.one_user)).
  reflexivity.
Defined.

(** X20. Logging in again is signing in, not signing up: after a login with
    some email that answered with a success, a login with any spelling of
    the address that lower-cases and trims to the same text succeeds, while
    the table is readable, creates no user and sets the cookie to the same
    user id. *)
Theorem login_again_is_the_same_user (toLowerCase : string -> string)
    (NODE_ENV : string) (request request' : Request) (email email' : string)
    (st : LoginRoute.State) :
  gives_email request email ->
  gives_email request' email' ->
  LoginRoute.normalized toLowerCase email' = LoginRoute.normalized toLowerCase email ->
  res_ok (LoginRoute.POST toLowerCase NODE_ENV request st).1 = true ->
  LoginRoute.users_fault st LoginRoute.SelectUser = None ->
  let st1 := (LoginRoute.POST toLowerCase NODE_ENV request st).2 in
  (LoginRoute.POST toLowerCase NODE_ENV request' st1).1 = success /\
  LoginRoute.users (LoginRoute.POST toLowerCase NODE_ENV request' st1).2
    = LoginRoute.users st1 /\
  LoginRoute.jar (LoginRoute.POST toLowerCase NODE_ENV request' st1).2
    = LoginRoute.jar st1.
Proof.
  intros Hgives Hgives' Hsame Hok Hread. cbv zeta.
  rewrite (login_POST_run toLowerCase NODE_ENV request email st Hgives) in Hok |- *.
  rewrite Hread in Hok |- *.
  rewrite (login_POST_run toLowerCase NODE_ENV request' email' _ Hgives').
  rewrite Hsame.
  destruct (LoginRoute.users st !! LoginRoute.normalized toLowerCase email)
    as [userId|] eqn:Hrow.
  - simpl. rewrite Hread, Hrow. simpl. auto.
  - destruct (LoginRoute.users_fault st LoginRoute.InsertUser); [discriminate Hok|].
    destruct (LoginRoute.id_in_use _ _); [discriminate Hok|].
    simpl. rewrite Hread, lookup_insert_eq. simpl. auto.
Qed.

(** Bob signs up as "Bob@Example.com" followed by a no-break space and
    comes back as "bob@example.com". *)
Lemma login_again_is_the_same_user_witness :
  LoginRoute.jar
    (LoginRoute.POST Scenario.ascii_lower "development"
       (Scenario.login_request "bob@example.com")
       (LoginRoute.POST Scenario.ascii_lower "development"
          (Scenario.login_request ("Bob@Example.com" +:+ Scenario.nbsp)) Scenario.one_user).2).2
  = LoginRoute.jar
      (LoginRoute.POST Scenario.ascii_lower "development"
         (Scenario.login_request ("Bob@Example.com" +:+ Scenario.nbsp)) Scenario.one_user).2.
Proof.
  apply (login_again_is_the_same_user Scenario.ascii_lower "development"
           (Scenario.login_request ("Bob@Example.com" +:+ Scenario.nbsp))
           (Scenario.login_request "bob@example.com")
           ("Bob@Example.com" +:+ Scenario.nbsp) "bob@example.com" Scenario.one_user).
  - exists (Scenario.login_doc ("Bob@Example.com" +:+ Scenario.nbsp)).
    repeat split. discriminate.
  - exists (Scenario.login_doc "bob@example.com"). repeat split. discriminate.
  - reflexivity.
  - vm_compute. reflexivity.
  - reflexivity.
Defined.

(** X22. The home page sends every visitor to the login page, signed in or
    not: [redirect] works by throwing, the throw of [redirect('/vault')] is
    caught by the page's own [catch], and the handler redirects to
    [/login]. *)
Theorem home_always_redirects_to_login (request : Request) :
  HomePage.Home request = HomePage.redirect "/login".
Proof.
  unfold HomePage.Home, HomePage.catching.
  destruct (Js.truthy (Js.JStr <$> cookie_fishvault_user_id request)); reflexivity.
Qed.

(** X23. How the unlock route reports a KMS that does not grant.  A KMS
    that cannot be reached, or whose answer cannot be read, gives 500
    "Internal server error".  A KMS that answers with a status outside 200 to
    299 gives 400 with the error "HTTP <status>", because [unlockVault]
    turns the refusal into a result instead of throwing.  A KMS that answers
    [ok: false] gives 400 with its error text, or "Unlock failed" when it
    sent none or an empty one. *)
Theorem unlock_route_reports_the_kms {K} (kms : KmsServer K) (FISH_KMS_API_KEY : string)
    (zone : JsDate.TimeZone) (env_UNLOCK_WINDOW_MINUTES : option string)
    (request : Request) (userId : string) (w : World K) :
  Auth.getUserId request = Some userId ->
  let answered :=
    (UnlockRoute.POST kms FISH_KMS_API_KEY zone env_UNLOCK_WINDOW_MINUTES request w).1 in
  match (serve_unlock kms FISH_KMS_API_KEY userId (kms_state w)).1 with
  | NetworkError _ => answered = Normal (failure "Internal server error" 500)
  | HttpResponse status b =>
      if FishKms.response_ok status
      then
        match b with
        | None => answered = Normal (failure "Internal server error" 500)
        | Some unlockResult =>
            ok unlockResult = false ->
            answered =
              Normal (failure (Js.or_else (error unlockResult) "Unlock failed") 400)
        end
      else answered = Normal (failure ("HTTP " +:+ pretty status) 400)
  end.
Proof.
  intros Hauth answered. subst answered.
  unfold UnlockRoute.POST, try_catch, bind. rewrite Hauth.
  unfold FishKms.unlockVault, bind, FishKms.fetch.
  destruct (serve_unlock kms FISH_KMS_API_KEY userId (kms_state w)) as [answer k] eqn:Hserve.
  simpl. destruct answer as [message | status b]; simpl; [reflexivity|].
  destruct (FishKms.response_ok status) eqn:Hstatus; simpl; [|reflexivity].
  destruct b as [[granted err]|]; simpl; [|reflexivity].
  intros ->. reflexivity.
Qed.

(** The KMS answers 503. *)
Lemma unlock_route_reports_the_kms_witness :
  (UnlockRoute.POST
     {| serve_unlock := fun _ _ k => (HttpResponse 503 None, k);
        serve_encrypt := serve_encrypt Example.failing_kms;
        serve_decrypt := serve_decrypt Example.failing_kms |}
     "dev_secret" Example.utc None (Example.request_of "alice" Js.JNull)
     Example.all_locked).1
  = Normal (failure "HTTP 503" 400).
Proof.
  apply (unlock_route_reports_the_kms
           {| serve_unlock := fun _ _ k => (HttpResponse 503 None, k);
              serve_encrypt := serve_encrypt Example.failing_kms;
              serve_decrypt := serve_decrypt Example.failing_kms |}
           "dev_secret" Example.utc None (Example.request_of "alice" Js.JNull) "alice"
           Example.all_locked); reflexivity.
Defined.
